(** * EtherGuard-VPN: zero-overhead obfuscation and the pseudo-TCP transport

    A shallow embedding of
    - [obfuscation.ZeroOverheadHandler] (constructor, [Encrypt], [Decrypt]),
    - [faketcp.ParseTCPPacket],
    - [faketcp.Socket] ([Connect], [Send], [Close]) and
    - [faketcp.Stack] ([Connect], [unregisterSocket], [Close]),
    followed by the properties of these functions.

    Go values are modelled as follows.  A byte is a [Byte.byte]; a byte slice
    is a [list byte]; [int] is a [Z] whose 64-bit wrap-around is written at
    every operation on a configured size; [uint8], [uint16] and [uint32] are
    [Z] reduced modulo their width.  A Go call ends in one of four ways:
    it returns a value, it returns an error, it panics, or it blocks for ever.

    The AES block cipher and the XChaCha20-Poly1305 AEAD are parameters of the
    development, known by the contract of [cipher.Block] and [cipher.AEAD];
    the random sources, the TUN device, the timers and the other goroutines are
    the environment, whose choices are arguments of the functions. *)

From Stdlib Require Import ZArith Lia.
From Stdlib.Strings Require Import Byte.
From stdpp Require Import base option list gmap strings pretty.

Open Scope Z_scope.

(** ** The Go runtime fragment the code relies on *)

Abbreviation byte := Byte.byte.

Inductive panic_reason :=
  | IndexOutOfRange
  | SliceBoundsOutOfRange
  | NilDereference
  | CloseOfClosedChannel
  | InvalidArgument.

Inductive go (E A : Type) : Type :=
  | Ret (a : A)
  | Fail (e : E)
  | Panic (r : panic_reason)
  | Deadlock.
Arguments Ret {E A} a.
Arguments Fail {E A} e.
Arguments Panic {E A} r.
Arguments Deadlock {E A}.

#[global] Instance go_ret {E} : MRet (go E) := fun A a => Ret a.
#[global] Instance go_fmap {E} : FMap (go E) := fun A B f m =>
  match m with
  | Ret a => Ret (f a)
  | Fail e => Fail e
  | Panic r => Panic r
  | Deadlock => Deadlock
  end.
#[global] Instance go_bind {E} : MBind (go E) := fun A B f m =>
  match m with
  | Ret a => f a
  | Fail e => Fail e
  | Panic r => Panic r
  | Deadlock => Deadlock
  end.

(** [int] on a 64-bit platform. *)
Definition min_int : Z := - 2 ^ 63.
Definition max_int : Z := 2 ^ 63 - 1.
Definition wrap_int (z : Z) : Z := (z + 2 ^ 63) mod 2 ^ 64 - 2 ^ 63.

Definition uint8 (z : Z) : Z := z mod 2 ^ 8.
Definition uint16 (z : Z) : Z := z mod 2 ^ 16.
Definition uint32 (z : Z) : Z := z mod 2 ^ 32.

(** The runtime refuses any allocation of [maxAlloc] bytes or more, so
    the length of a byte slice stays below it. *)
Definition maxAlloc : Z := 2 ^ 48.

Definition len {A} (l : list A) : Z := Z.of_nat (length l).

Definition byteZ (b : byte) : Z := Z.of_N (Byte.to_N b).
Definition Zbyte (z : Z) : byte :=
  match Byte.of_N (Z.to_N (z mod 256)) with
  | Some b => b
  | None => Byte.x00
  end.

(** [l[i]], [l[lo:hi]], [l[lo:]] and [l[:hi]] with their bounds checks.  The
    checks are against the length; Go checks a slice expression against the
    capacity, which is never smaller, so a call that does not panic here does
    not panic there. *)
Definition index {E} (l : list byte) (i : Z) : go E byte :=
  match (if 0 <=? i then l !! Z.to_nat i else None) with
  | Some b => Ret b
  | None => Panic IndexOutOfRange
  end.

Definition slice {E} (l : list byte) (lo hi : Z) : go E (list byte) :=
  if (0 <=? lo) && (lo <=? hi) && (hi <=? len l)
  then Ret (take (Z.to_nat (hi - lo)) (drop (Z.to_nat lo) l))
  else Panic SliceBoundsOutOfRange.

Definition slice_from {E} (l : list byte) (lo : Z) : go E (list byte) :=
  slice l lo (len l).

Definition slice_to {E} (l : list byte) (hi : Z) : go E (list byte) :=
  slice l 0 hi.

(** [*p] for a pointer or interface value that may be nil. *)
Definition deref {E A} (p : option A) : go E A :=
  match p with
  | Some a => Ret a
  | None => Panic NilDereference
  end.

(** [encoding/binary.BigEndian] *)
Definition BigEndian_Uint16 {E} (b : list byte) : go E Z :=
  b1 ← index b 1;
  b0 ← index b 0;
  Ret (Z.lor (byteZ b1) (Z.shiftl (byteZ b0) 8)).

Definition BigEndian_Uint32 {E} (b : list byte) : go E Z :=
  b3 ← index b 3;
  b0 ← index b 0;
  b1 ← index b 1;
  b2 ← index b 2;
  Ret (Z.lor (Z.lor (Z.lor (byteZ b3) (Z.shiftl (byteZ b2) 8))
                    (Z.shiftl (byteZ b1) 16))
             (Z.shiftl (byteZ b0) 24)).

Definition BigEndian_AppendUint16 (b : list byte) (v : Z) : list byte :=
  b ++ [Zbyte (Z.shiftr v 8); Zbyte v].

(** [make([]byte, n)] *)
Definition make (n : Z) : list byte := replicate (Z.to_nat n) Byte.x00.

(** [copy(dst, src)]: the new content of [dst]. *)
Definition copy (dst src : list byte) : list byte :=
  take (length dst) src ++ drop (length src) dst.

(** [l[i] = v] *)
Definition set_index {E} (l : list byte) (i : Z) (v : byte) : go E (list byte) :=
  match (if 0 <=? i then l !! Z.to_nat i else None) with
  | Some _ => Ret (<[Z.to_nat i := v]> l)
  | None => Panic IndexOutOfRange
  end.

(** [f(l[lo:hi])] for an [f] that writes into its argument: the slice shares
    the array of [l], so the content [f] leaves lands in [l]. *)
Definition with_slice {E} (l : list byte) (lo hi : Z)
    (f : list byte -> go E (list byte)) : go E (list byte) :=
  part ← slice l lo hi;
  part ← f part;
  Ret (take (Z.to_nat lo) l ++ part ++ drop (Z.to_nat hi) l).

Definition BigEndian_PutUint16 {E} (v : Z) (b : list byte) : go E (list byte) :=
  _ ← index b 1;
  b ← set_index b 0 (Zbyte (Z.shiftr v 8));
  set_index b 1 (Zbyte v).

Definition BigEndian_PutUint32 {E} (v : Z) (b : list byte) : go E (list byte) :=
  _ ← index b 3;
  b ← set_index b 0 (Zbyte (Z.shiftr v 24));
  b ← set_index b 1 (Zbyte (Z.shiftr v 16));
  b ← set_index b 2 (Zbyte (Z.shiftr v 8));
  set_index b 3 (Zbyte v).

(** ** Package obfuscation *)

Module Obfuscation.

Definition MessageTypeRegister : Z := 1.
Definition MessageTypeServerUpdate : Z := 2.
Definition MessageTypePing : Z := 3.
Definition MessageTypePong : Z := 4.
Definition MessageTypeQueryPeer : Z := 5.
Definition MessageTypeBroadcastPeer : Z := 6.

Definition aes_BlockSize : Z := 16.
Definition chacha20poly1305_Overhead : Z := 16.
Definition chacha20poly1305_NonceSizeX : Z := 24.

Inductive error :=
  | ErrPSKLength              (* "PSK must be 32 bytes" *)
  | ErrKeySize                (* error of aes.NewCipher / chacha20poly1305.NewX *)
  | ErrControlPacketTooLarge  (* "control packet is too large" *)
  | ErrControlPacketLength    (* "invalid control packet length" *)
  | ErrOpen                   (* error of cipher.AEAD.Open *)
  | ErrDecryptedTooSmall      (* "decrypted packet too small" *)
  | ErrPayloadLength.         (* "invalid control packet payload length" *)

(** [cipher.Block]: one block in, one block out. *)
Record Block := {
  Block_Encrypt : list byte -> list byte;
  Block_Decrypt : list byte -> list byte
}.

(** [cipher.AEAD] without additional data: [AEAD_Seal nonce plaintext] is the
    ciphertext followed by the tag; [AEAD_Open nonce ciphertext] is the
    plaintext, or [None] when authentication fails. *)
Record AEAD := {
  AEAD_Seal : list byte -> list byte -> list byte;
  AEAD_Open : list byte -> list byte -> option (list byte)
}.

(** The two constructors of the cryptographic libraries. *)
Class Crypto := {
  aes_NewCipher : list byte -> option Block;
  chacha20poly1305_NewX : list byte -> option AEAD
}.

Record BlockLaws (cb : Block) : Prop := {
  Block_Encrypt_length : forall b, length b = 16%nat -> length (Block_Encrypt cb b) = 16%nat;
  Block_Decrypt_length : forall b, length b = 16%nat -> length (Block_Decrypt cb b) = 16%nat;
  Block_Decrypt_Encrypt : forall b, length b = 16%nat -> Block_Decrypt cb (Block_Encrypt cb b) = b
}.

Record AEADLaws (a : AEAD) : Prop := {
  AEAD_Seal_length : forall n p, length n = 24%nat ->
    length (AEAD_Seal a n p) = (length p + 16)%nat;
  AEAD_Open_Seal : forall n p, length n = 24%nat ->
    AEAD_Open a n (AEAD_Seal a n p) = Some p
}.

Class CryptoLaws (C : Crypto) : Prop := {
  aes_NewCipher_32 : forall k, length k = 32%nat ->
    exists cb, aes_NewCipher k = Some cb /\ BlockLaws cb;
  chacha20poly1305_NewX_32 : forall k, length k = 32%nat ->
    exists a, chacha20poly1305_NewX k = Some a /\ AEADLaws a
}.

(** The implementation of XChaCha20-Poly1305 refuses longer texts. *)
Definition chacha20poly1305_maxPlaintext : Z := 2 ^ 38 - 64.
Definition chacha20poly1305_maxCiphertext : Z := 2 ^ 38 - 48.

(** [Seal(dst, nonce, plaintext, nil)] and [Open(dst, nonce, ciphertext, nil)]
    of the XChaCha20-Poly1305 AEAD: both append to [dst]; both panic on a
    nonce that is not [NonceSizeX] bytes long and on a text beyond the limit;
    [Open] refuses a ciphertext that is shorter than the tag. *)
Definition Seal (a : AEAD) (dst nonce plaintext : list byte) : go error (list byte) :=
  if negb (len nonce =? chacha20poly1305_NonceSizeX) then Panic InvalidArgument
  else if len plaintext >? chacha20poly1305_maxPlaintext then Panic InvalidArgument
  else Ret (dst ++ AEAD_Seal a nonce plaintext).

Definition Open (a : AEAD) (dst nonce ciphertext : list byte) : go error (list byte) :=
  if negb (len nonce =? chacha20poly1305_NonceSizeX) then Panic InvalidArgument
  else if len ciphertext <? chacha20poly1305_Overhead then Fail ErrOpen
  else if len ciphertext >? chacha20poly1305_maxCiphertext then Panic InvalidArgument
  else match AEAD_Open a nonce ciphertext with
       | Some plaintext => Ret (dst ++ plaintext)
       | None => Fail ErrOpen
       end.
#[global] Arguments Seal : simpl never.
#[global] Arguments Open : simpl never.

(** What one call of [Encrypt] draws from its random sources: the value
    [math/rand.Intn] returns for its argument, and the bytes [crypto/rand.Read]
    stores at each position of the padding and of the nonce. *)
Record Entropy := {
  rand_Intn : Z -> Z;
  rand_padding : nat -> byte;
  rand_nonce : nat -> byte
}.

Class EntropyLaws (rnd : Entropy) : Prop :=
  rand_Intn_range : forall n, 0 < n -> 0 <= rand_Intn rnd n < n.

Definition Intn (rnd : Entropy) (n : Z) : go error Z :=
  if n <=? 0 then Panic InvalidArgument else Ret (rand_Intn rnd n).

(** [b := make([]byte, n); cryptorand.Read(b)] *)
Definition cryptorand_Read (src : nat -> byte) (n : Z) : list byte :=
  (fun i => src i) <$> seq 0 (Z.to_nat n).

Record ZeroOverheadHandler := {
  cb : option Block;
  aead : option AEAD;
  maxPacketSize : Z;
  maxControlPacketSize : Z;
  enabled : bool
}.

Section Handler.
Context {C : Crypto}.

(** [NewZeroOverheadHandler] *)
Definition NewZeroOverheadHandler (psk : list byte) (maxPacketSize : Z) (enabled : bool)
  : go error ZeroOverheadHandler :=
  if negb enabled then
    Ret {| cb := None; aead := None; maxPacketSize := 0;
           maxControlPacketSize := 0; enabled := false |}
  else if negb (len psk =? 32) then Fail ErrPSKLength
  else
    match aes_NewCipher psk with
    | None => Fail ErrKeySize
    | Some cb =>
      match chacha20poly1305_NewX psk with
      | None => Fail ErrKeySize
      | Some aead =>
        let maxControlPacketSize :=
          wrap_int (wrap_int (wrap_int (maxPacketSize - 2) - chacha20poly1305_Overhead)
                    - chacha20poly1305_NonceSizeX) in
        Ret {| cb := Some cb; aead := Some aead; maxPacketSize := maxPacketSize;
               maxControlPacketSize := maxControlPacketSize; enabled := true |}
      end
    end.

End Handler.

(** The handlers the constructor returns when obfuscation is enabled. *)
Record ready (h : ZeroOverheadHandler) (blk : Block) (a : AEAD) : Prop := {
  ready_enabled : enabled h = true;
  ready_cb : cb h = Some blk;
  ready_aead : aead h = Some a;
  ready_Block : BlockLaws blk;
  ready_AEAD : AEADLaws a
}.

Definition isControlPacket (messageType : byte) : bool :=
  let t := byteZ messageType in
  (t =? MessageTypeRegister) || (t =? MessageTypeServerUpdate) || (t =? MessageTypePing)
  || (t =? MessageTypePong) || (t =? MessageTypeQueryPeer) || (t =? MessageTypeBroadcastPeer).

(** The padding length [Encrypt] chooses for a control packet. *)
Definition choosePadding (rnd : Entropy) (paddingHeadroom : Z) : go error Z :=
  if 0 <? paddingHeadroom
  then n ← Intn rnd paddingHeadroom; Ret (wrap_int (1 + n))
  else Ret 0.

(** [ZeroOverheadHandler.Encrypt].  The 16 bytes of [dst] that [make]
    allocates hold, after [cb.Encrypt], the block the cipher produced. *)
Definition Encrypt (h : ZeroOverheadHandler) (rnd : Entropy) (packet : list byte)
  : go error (list byte) :=
  if negb (enabled h) then Ret packet
  else if len packet <? aes_BlockSize then Ret packet
  else
    messageType ← index packet 0;
    cb ← deref (cb h);
    src ← slice_to packet aes_BlockSize;
    let dst := Block_Encrypt cb src in
    remainingPayload ← slice_from packet aes_BlockSize;
    let plaintextStart := len dst in
    let dst := dst ++ remainingPayload in
    if negb (isControlPacket messageType) then Ret dst
    else
      let paddingHeadroom := wrap_int (maxControlPacketSize h - len packet) in
      if (paddingHeadroom <? 0) || (len remainingPayload >? 65535)
      then Fail ErrControlPacketTooLarge
      else
        paddingLen ← choosePadding rnd paddingHeadroom;
        let dst :=
          if 0 <? paddingLen then dst ++ cryptorand_Read (rand_padding rnd) paddingLen
          else dst in
        let dst := BigEndian_AppendUint16 dst (uint16 (len remainingPayload)) in
        let nonce := cryptorand_Read (rand_nonce rnd) chacha20poly1305_NonceSizeX in
        plaintext ← slice_from dst plaintextStart;
        head ← slice_to dst plaintextStart;
        aead ← deref (aead h);
        dst ← Seal aead head nonce plaintext;
        Ret (dst ++ nonce).

(** [ZeroOverheadHandler.Decrypt] *)
Definition Decrypt (h : ZeroOverheadHandler) (packet : list byte) : go error (list byte) :=
  if negb (enabled h) then Ret packet
  else if len packet <? aes_BlockSize then Ret packet
  else
    cb ← deref (cb h);
    src ← slice_to packet aes_BlockSize;
    let dst := Block_Decrypt cb src in
    messageType ← index dst 0;
    if negb (isControlPacket messageType)
    then rest ← slice_from packet aes_BlockSize; Ret (dst ++ rest)
    else
      let minControlPacketLen :=
        aes_BlockSize + 2 + chacha20poly1305_Overhead + chacha20poly1305_NonceSizeX in
      if len packet <? minControlPacketLen then Fail ErrControlPacketLength
      else
        let dstLen := len dst in
        let nonceStart := len packet - chacha20poly1305_NonceSizeX in
        nonce ← slice_from packet nonceStart;
        ciphertext ← slice packet aes_BlockSize nonceStart;
        aead ← deref (aead h);
        plaintext ← Open aead dst nonce ciphertext;
        if len plaintext <? 2 then Fail ErrDecryptedTooSmall
        else
          let paddingEnd := len plaintext - 2 in
          field ← slice_from plaintext paddingEnd;
          remainingPayloadSize ← BigEndian_Uint16 field;
          let dstLen := dstLen + remainingPayloadSize in
          if dstLen >? paddingEnd then Fail ErrPayloadLength
          else slice_to plaintext dstLen.

End Obfuscation.

(** ** Package faketcp *)

Module FakeTCP.

(** [time.Duration] counts nanoseconds. *)
Definition ConnTimeout : Z := 3 * 1000000000.
Definition RetryCount : Z := 6.
Definition MaxUnackedLen : Z := 128 * 1024 * 1024.
Definition IncomingQueueSize : Z := 512.

Inductive ConnState :=
  | StateIdle
  | StateSynSent
  | StateSynReceived
  | StateEstablished
  | StateClosed.

#[global] Instance ConnState_eq_dec : EqDecision ConnState.
Proof. solve_decision. Defined.

Definition IPv4HeaderLen : Z := 20.
Definition IPv6HeaderLen : Z := 40.
Definition TCPHeaderLen : Z := 20.
Definition MaxPacketLen : Z := 1500.

Definition FIN : Z := Z.shiftl 1 0.
Definition SYN : Z := Z.shiftl 1 1.
Definition RST : Z := Z.shiftl 1 2.
Definition PSH : Z := Z.shiftl 1 3.
Definition ACK : Z := Z.shiftl 1 4.
Definition URG : Z := Z.shiftl 1 5.

Inductive error :=
  | ErrNotIdle                     (* "socket not in idle state" *)
  | ErrClosedDuringConnect         (* "socket closed during connect" *)
  | ErrConnectTimeout (retries : Z) (* "connection timeout after %d retries" *)
  | ErrNotEstablished (st : ConnState) (* "socket not established (state: %v)" *)
  | ErrSocketClosed                (* "socket closed" *)
  | ErrWrite                       (* error of Tun.Write *)
  | ErrSendData (cause : error)    (* "failed to send data: %w" *)
  | ErrIPv6NotConfigured.          (* "IPv6 not configured" *)

Record TCPPacket := {
  SrcIP : list byte;
  DstIP : list byte;
  SrcPort : Z;
  DstPort : Z;
  Seq : Z;
  Ack : Z;
  Flags : Z;
  Window : Z;
  Payload : list byte;
  IsIPv6 : bool
}.

(** The IP header part of [ParseTCPPacket]: [None] stands for [return nil]. *)
Definition parseIPHeader (buf : list byte) (version : Z)
  : go Empty_set (option (bool * list byte * list byte * byte * Z)) :=
  if version =? 4 then
    if len buf <? IPv4HeaderLen then Ret None
    else
      src ← slice buf 12 16;
      dst ← slice buf 16 20;
      proto ← index buf 9;
      Ret (Some (false, src, dst, proto, IPv4HeaderLen))
  else if version =? 6 then
    if len buf <? IPv6HeaderLen then Ret None
    else
      src ← slice buf 8 24;
      dst ← slice buf 24 40;
      proto ← index buf 6;
      Ret (Some (true, src, dst, proto, IPv6HeaderLen))
  else Ret None.

(** [ParseTCPPacket]; it has no error result. *)
Definition ParseTCPPacket (buf : list byte) : go Empty_set (option TCPPacket) :=
  if len buf <? IPv4HeaderLen then Ret None
  else
    b0 ← index buf 0;
    let version := Z.shiftr (byteZ b0) 4 in
    hdr ← parseIPHeader buf version;
    match hdr with
    | None => Ret None
    | Some (isIPv6, srcIP, dstIP, proto, tcpStart) =>
      if negb (byteZ proto =? 6) then Ret None
      else if len buf <? tcpStart + TCPHeaderLen then Ret None
      else
        tcpBuf ← slice_from buf tcpStart;
        srcPort ← slice tcpBuf 0 2 ≫= BigEndian_Uint16;
        dstPort ← slice tcpBuf 2 4 ≫= BigEndian_Uint16;
        seq ← slice tcpBuf 4 8 ≫= BigEndian_Uint32;
        ack ← slice tcpBuf 8 12 ≫= BigEndian_Uint32;
        b12 ← index tcpBuf 12;
        let dataOffset := uint8 (Z.shiftr (byteZ b12) 4 * 4) in
        flags ← index tcpBuf 13;
        window ← slice tcpBuf 14 16 ≫= BigEndian_Uint16;
        payload ← (if dataOffset <? len tcpBuf then slice_from tcpBuf dataOffset
                   else Ret []);
        Ret (Some {| SrcIP := srcIP; DstIP := dstIP; SrcPort := srcPort;
                     DstPort := dstPort; Seq := seq; Ack := ack;
                     Flags := byteZ flags; Window := window; Payload := payload;
                     IsIPv6 := isIPv6 |})
    end.

(** The buffers for which [ParseTCPPacket] is said to return nil: shorter
    than an IPv4 header, an IP version other than 4 and 6, shorter than the
    IP header of its version, a protocol other than 6, or shorter than the IP
    header followed by a TCP header of [TCPHeaderLen] bytes. *)
Definition ipVersion (buf : list byte) : Z :=
  match buf !! 0%nat with
  | Some b => Z.shiftr (byteZ b) 4
  | None => 0
  end.

Definition ipHeaderLen (version : Z) : Z :=
  if version =? 4 then IPv4HeaderLen else IPv6HeaderLen.

Definition ipProtocol (buf : list byte) : Z :=
  match buf !! (if ipVersion buf =? 4 then 9%nat else 6%nat) with
  | Some b => byteZ b
  | None => 0
  end.

Definition not_tcp_packet (buf : list byte) : Prop :=
  len buf < IPv4HeaderLen
  \/ (ipVersion buf <> 4 /\ ipVersion buf <> 6)
  \/ len buf < ipHeaderLen (ipVersion buf)
  \/ ipProtocol buf <> 6
  \/ len buf < ipHeaderLen (ipVersion buf) + TCPHeaderLen.

(** The TCP segment of a buffer and the data offset its header announces. *)
Definition tcpSegment (buf : list byte) : list byte :=
  drop (Z.to_nat (ipHeaderLen (ipVersion buf))) buf.

Definition tcpDataOffset (buf : list byte) : Z :=
  match tcpSegment buf !! 12%nat with
  | Some b => Z.shiftr (byteZ b) 4 * 4
  | None => 0
  end.

(** [net.UDPAddr]; a nil [IP] is the empty list. *)
Record UDPAddr := { IP : list byte; Port : Z }.

(** [net.IP.To4] *)
Definition isZeros (p : list byte) : bool := forallb (fun b => byteZ b =? 0) p.

Definition To4 (ip : list byte) : option (list byte) :=
  if len ip =? 4 then Some ip
  else if (len ip =? 16) && isZeros (take 10 ip)
          && bool_decide (byteZ <$> ip !! 10%nat = Some 255)
          && bool_decide (byteZ <$> ip !! 11%nat = Some 255)
  then Some (take 4 (drop 12 ip))
  else None.

(** A socket.  [stack] tells whether the socket's stack pointer is non-nil
    (it then points to the stack whose map holds the socket); [closeChan] tells
    whether the channel has been closed.  The [tun] pointer and the [incoming]
    channel are driven by the environment, see [World] and [Attempt]. *)
Record Socket := {
  stack : bool;
  localAddr : UDPAddr;
  remoteAddr : UDPAddr;
  seq : Z;
  ack : Z;
  lastAck : Z;
  state : ConnState;
  closed : bool;
  closeChan : bool
}.

Definition set_state (st : ConnState) (s : Socket) : Socket :=
  {| stack := stack s; localAddr := localAddr s; remoteAddr := remoteAddr s;
     seq := seq s; ack := ack s; lastAck := lastAck s; state := st;
     closed := closed s; closeChan := closeChan s |}.

Definition set_seq (v : Z) (s : Socket) : Socket :=
  {| stack := stack s; localAddr := localAddr s; remoteAddr := remoteAddr s;
     seq := v; ack := ack s; lastAck := lastAck s; state := state s;
     closed := closed s; closeChan := closeChan s |}.

Definition set_ack (v : Z) (s : Socket) : Socket :=
  {| stack := stack s; localAddr := localAddr s; remoteAddr := remoteAddr s;
     seq := seq s; ack := v; lastAck := lastAck s; state := state s;
     closed := closed s; closeChan := closeChan s |}.

Definition set_lastAck (v : Z) (s : Socket) : Socket :=
  {| stack := stack s; localAddr := localAddr s; remoteAddr := remoteAddr s;
     seq := seq s; ack := ack s; lastAck := v; state := state s;
     closed := closed s; closeChan := closeChan s |}.

(** [closed.Swap(true)] followed by [state = StateClosed] and [close(closeChan)] *)
Definition mark_closed (s : Socket) : Socket :=
  {| stack := stack s; localAddr := localAddr s; remoteAddr := remoteAddr s;
     seq := seq s; ack := ack s; lastAck := lastAck s; state := StateClosed;
     closed := true; closeChan := true |}.

(** [newSocket]; [isn] is the value of [rand.Uint32()]. *)
Definition newSocket (stack : bool) (localAddr remoteAddr : UDPAddr)
    (initialAck : Z) (state : ConnState) (isn : Z) : Socket :=
  {| stack := stack; localAddr := localAddr; remoteAddr := remoteAddr;
     seq := uint32 isn; ack := initialAck; lastAck := initialAck; state := state;
     closed := false; closeChan := false |}.

(** What [BuildTCPPacket] is called with; the bytes handed to [Tun.Write] are
    a function of these. *)
Record Segment := {
  seg_local : UDPAddr;
  seg_remote : UDPAddr;
  seg_seq : Z;
  seg_ack : Z;
  seg_flags : Z;
  seg_payload : list byte
}.

(** The world around a socket: every call of [Tun.Write] with its success,
    and every period the caller spent blocked (in [time.Sleep] or in a
    [select]), oldest first. *)
Record World := {
  writes : list (Segment * bool);
  waits : list Z
}.

(** [Socket.sendPacket]; [write_ok] tells whether [Tun.Write] returns nil. *)
Definition sendPacket (s : Socket) (flags : Z) (payload : list byte)
    (write_ok : bool) (w : World) : option error * World :=
  let packet := {| seg_local := localAddr s; seg_remote := remoteAddr s;
                   seg_seq := seq s; seg_ack := ack s; seg_flags := flags;
                   seg_payload := payload |} in
  (if write_ok then None else Some ErrWrite,
   {| writes := writes w ++ [(packet, write_ok)]; waits := waits w |}).

Definition block (d : Z) (w : World) : World :=
  {| writes := writes w; waits := waits w ++ [d] |}.

(** The case of the [select] in [Connect] that fires.  The third one fires
    once another goroutine has run [Socket.Close] on the socket. *)
Inductive SelectCase :=
  | RecvIncoming (data : list byte)  (* case data := <-s.incoming *)
  | TimeAfter                        (* case <-time.After(ConnTimeout) *)
  | CloseChan.                       (* case <-s.closeChan *)

(** What the environment does during one iteration of the loop of [Connect]:
    whether the write of the SYN succeeds, which case of the [select] fires
    and after how long, and whether the write of the ACK succeeds. *)
Record Attempt := {
  syn_write_ok : bool;
  woke : SelectCase;
  wait : Z;
  ack_write_ok : bool
}.

Definition is_SynAck (data : list byte) : bool :=
  match ParseTCPPacket data with
  | Ret (Some pkt) => Flags pkt =? Z.lor SYN ACK
  | _ => false
  end.

(** The [for] loop of [Connect]: [n] iterations are left, [i] is the loop
    variable. *)
Fixpoint Connect_loop (env : nat -> Attempt) (n i : nat) (s : Socket) (w : World)
  : go error unit * Socket * World :=
  match n with
  | O => (Fail (ErrConnectTimeout RetryCount), set_state StateClosed s, w)
  | S n' =>
    let a := env i in
    let '(err, w) := sendPacket s SYN [] (syn_write_ok a) w in
    match err with
    | Some _ => Connect_loop env n' (S i) s (block ConnTimeout w)
    | None =>
      match woke a with
      | RecvIncoming data =>
        let w := block (wait a) w in
        match ParseTCPPacket data with
        | Ret None => Connect_loop env n' (S i) s w
        | Ret (Some pkt) =>
          if Flags pkt =? Z.lor SYN ACK then
            let s := set_seq (uint32 (seq s + 1)) s in
            let s := set_ack (uint32 (Seq pkt + 1)) s in
            let s := set_lastAck (uint32 (Seq pkt + 1)) s in
            let '(err, w) := sendPacket s ACK [] (ack_write_ok a) w in
            match err with
            | Some _ => Connect_loop env n' (S i) s w
            | None => (Ret (), set_state StateEstablished s, w)
            end
          else Connect_loop env n' (S i) s w
        | Fail e => match e with end
        | Panic r => (Panic r, s, w)
        | Deadlock => (Deadlock, s, w)
        end
      | TimeAfter => Connect_loop env n' (S i) s (block ConnTimeout w)
      | CloseChan => (Fail ErrClosedDuringConnect, s, block (wait a) w)
      end
    end
  end.

(** [Socket.Connect] *)
Definition Socket_Connect (env : nat -> Attempt) (s : Socket) (w : World)
  : go error unit * Socket * World :=
  if negb (bool_decide (state s = StateIdle)) then (Fail ErrNotIdle, s, w)
  else Connect_loop env (Z.to_nat RetryCount) 0 (set_state StateSynSent s) w.

(** [Socket.Send] *)
Definition Socket_Send (s : Socket) (data : list byte) (write_ok : bool) (w : World)
  : go error unit * Socket * World :=
  if negb (bool_decide (state s = StateEstablished))
  then (Fail (ErrNotEstablished (state s)), s, w)
  else if closed s then (Fail ErrSocketClosed, s, w)
  else
    let '(err, w) := sendPacket s ACK data write_ok w in
    match err with
    | Some e => (Fail (ErrSendData e), s, w)
    | None => (Ret (), set_seq (uint32 (seq s + uint32 (len data))) s, w)
    end.

(** A run of [Send] calls on one socket, each with the outcome of its write;
    the result carries the number of bytes of the calls that returned nil. *)
Fixpoint Socket_Send_all (calls : list (list byte * bool)) (s : Socket) (w : World)
  : Socket * World * Z :=
  match calls with
  | [] => (s, w, 0)
  | (data, write_ok) :: calls =>
    match Socket_Send s data write_ok w with
    | (Ret _, s, w) =>
      let '(s, w, n) := Socket_Send_all calls s w in (s, w, len data + n)
    | (_, s, w) => Socket_Send_all calls s w
    end
  end.

(** The bytes of the calls of a run whose write succeeds. *)
Fixpoint written (calls : list (list byte * bool)) : Z :=
  match calls with
  | [] => 0
  | (data, write_ok) :: calls =>
    if write_ok then len data + written calls else written calls
  end.

(** What is asked of the environment of a [Connect] that is to time out: no
    SYN|ACK comes in, nobody closes the socket, and a [select] that is woken
    by something other than its timer is woken before the timer fires. *)
Definition no_SynAck (a : Attempt) : Prop :=
  forall data, woke a = RecvIncoming data -> is_SynAck data = false.

Definition not_closed (a : Attempt) : Prop := woke a <> CloseChan.

Definition timely (a : Attempt) : Prop := 0 <= wait a <= ConnTimeout.

Record Tun := { tun_closed : bool }.

(** [Tun.Close]; the error of closing the file is dropped by every caller. *)
Definition Tun_Close (t : Tun) : Tun := {| tun_closed := true |}.

(** The stack.  [stopChan] tells whether the channel has been closed, [mu]
    whether the mutex is held. *)
Record Stack := {
  tuns : list Tun;
  localIPv4 : list byte;
  localIPv6 : option (list byte);
  listening : gmap Z bool;
  sockets : gmap (string * string) Socket;
  stopChan : bool;
  mu : bool
}.

Definition set_sockets (m : gmap (string * string) Socket) (st : Stack) : Stack :=
  {| tuns := tuns st; localIPv4 := localIPv4 st; localIPv6 := localIPv6 st;
     listening := listening st; sockets := m; stopChan := stopChan st; mu := mu st |}.

Definition set_mu (b : bool) (st : Stack) : Stack :=
  {| tuns := tuns st; localIPv4 := localIPv4 st; localIPv6 := localIPv6 st;
     listening := listening st; sockets := sockets st; stopChan := stopChan st; mu := b |}.

Definition set_tuns (ts : list Tun) (st : Stack) : Stack :=
  {| tuns := ts; localIPv4 := localIPv4 st; localIPv6 := localIPv6 st;
     listening := listening st; sockets := sockets st; stopChan := stopChan st; mu := mu st |}.

Definition set_stopChan (b : bool) (st : Stack) : Stack :=
  {| tuns := tuns st; localIPv4 := localIPv4 st; localIPv6 := localIPv6 st;
     listening := listening st; sockets := sockets st; stopChan := b; mu := mu st |}.

(** [mu.Lock()]: a goroutine that locks a mutex which is held blocks. *)
Definition Lock (st : Stack) : go error Stack :=
  if mu st then Deadlock else Ret (set_mu true st).

Definition Unlock (st : Stack) : Stack := set_mu false st.

(** [NewStack]; the packet readers it starts are not part of the model. *)
Definition NewStack (tuns : list Tun) (localIPv4 : list byte)
    (localIPv6 : option (list byte)) : Stack :=
  {| tuns := tuns; localIPv4 := localIPv4; localIPv6 := localIPv6;
     listening := ∅; sockets := ∅; stopChan := false; mu := false |}.

(** [net.IP.To16] *)
Definition To16 (ip : list byte) : option (list byte) :=
  if len ip =? 4 then Some (replicate 10 Byte.x00 ++ [Byte.xff; Byte.xff] ++ ip)
  else if len ip =? 16 then Some ip
  else None.

(** A [net.IP] that may be nil, as a slice. *)
Definition orNil (ip : option (list byte)) : list byte := default [] ip.

(** The loop [for i := 0; i < bound; i += 2] of the two checksum functions,
    which adds the 16-bit word at [i] to [sum]: [n] iterations are left. *)
Fixpoint sumWords {E} (data : list byte) (n : nat) (i sum : Z) : go E Z :=
  match n with
  | O => Ret sum
  | S n' =>
    w ← slice data i (i + 2) ≫= BigEndian_Uint16;
    sumWords data n' (i + 2) (uint32 (sum + uint32 w))
  end.

(** The number of values 0, 2, 4, ... below [bound]. *)
Definition iterations (bound : Z) : nat := Z.to_nat ((bound + 1) / 2).

(** [if len(data)%2 == 1 { sum += uint32(data[len(data)-1]) << 8 }] *)
Definition addOddByte {E} (data : list byte) (sum : Z) : go E Z :=
  if Z.rem (len data) 2 =? 1 then
    b ← index data (len data - 1);
    Ret (uint32 (sum + uint32 (Z.shiftl (uint32 (byteZ b)) 8)))
  else Ret sum.

(** The loop [for sum > 0xffff { sum = (sum & 0xffff) + (sum >> 16) }], given
    [fuel] iterations; a loop that is still running when they are used up
    has not returned. *)
Fixpoint foldCarry {E} (fuel : nat) (sum : Z) : go E Z :=
  if sum >? 65535 then
    match fuel with
    | O => Deadlock
    | S fuel => foldCarry fuel (uint32 (Z.land sum 65535 + Z.shiftr sum 16))
    end
  else Ret sum.

(** [calculateChecksumSimple] *)
Definition calculateChecksumSimple {E} (data : list byte) : go E Z :=
  sum ← sumWords data (iterations (len data - 1)) 0 0;
  sum ← addOddByte data sum;
  sum ← foldCarry 32 sum;
  Ret (uint16 (Z.lnot (uint16 sum))).

(** [calculateChecksum] *)
Definition calculateChecksum {E} (pseudoHeader tcpSegment : list byte) : go E Z :=
  sum ← sumWords pseudoHeader (iterations (len pseudoHeader)) 0 0;
  sum ← sumWords tcpSegment (iterations (len tcpSegment - 1)) 0 sum;
  sum ← addOddByte tcpSegment sum;
  sum ← foldCarry 32 sum;
  Ret (uint16 (Z.lnot (uint16 sum))).

(** [buildIPv4Header] *)
Definition buildIPv4Header {E} (buf srcIP dstIP : list byte) (totalLen : Z)
  : go E (list byte) :=
  let srcIP4 := orNil (To4 srcIP) in
  let dstIP4 := orNil (To4 dstIP) in
  buf ← set_index buf 0 (Zbyte 69);
  buf ← set_index buf 1 (Zbyte 0);
  buf ← with_slice buf 2 4 (BigEndian_PutUint16 (uint16 totalLen));
  buf ← with_slice buf 4 6 (BigEndian_PutUint16 0);
  buf ← with_slice buf 6 8 (BigEndian_PutUint16 16384);
  buf ← set_index buf 8 (Zbyte 64);
  buf ← set_index buf 9 (Zbyte 6);
  buf ← with_slice buf 10 12 (BigEndian_PutUint16 0);
  buf ← with_slice buf 12 16 (fun b => Ret (copy b srcIP4));
  buf ← with_slice buf 16 20 (fun b => Ret (copy b dstIP4));
  header ← slice_to buf IPv4HeaderLen;
  checksum ← calculateChecksumSimple header;
  with_slice buf 10 12 (BigEndian_PutUint16 checksum).

(** [buildIPv6Header] *)
Definition buildIPv6Header {E} (buf srcIP dstIP : list byte) (payloadLen : Z)
  : go E (list byte) :=
  buf ← set_index buf 0 (Zbyte 96);
  buf ← set_index buf 1 (Zbyte 0);
  buf ← set_index buf 2 (Zbyte 0);
  buf ← set_index buf 3 (Zbyte 0);
  buf ← with_slice buf 4 6 (BigEndian_PutUint16 (uint16 payloadLen));
  buf ← set_index buf 6 (Zbyte 6);
  buf ← set_index buf 7 (Zbyte 64);
  buf ← with_slice buf 8 24 (fun b => Ret (copy b (orNil (To16 srcIP))));
  with_slice buf 24 40 (fun b => Ret (copy b (orNil (To16 dstIP)))).

(** [buildTCPHeader] *)
Definition buildTCPHeader {E} (buf : list byte) (srcPort dstPort seq ack flags headerLen : Z)
    (payload : list byte) (wscale : bool) : go E (list byte) :=
  buf ← with_slice buf 0 2 (BigEndian_PutUint16 (uint16 srcPort));
  buf ← with_slice buf 2 4 (BigEndian_PutUint16 (uint16 dstPort));
  buf ← with_slice buf 4 8 (BigEndian_PutUint32 seq);
  buf ← with_slice buf 8 12 (BigEndian_PutUint32 ack);
  buf ← set_index buf 12 (Zbyte (uint8 (Z.shiftl (uint8 (Z.quot headerLen 4)) 4)));
  buf ← set_index buf 13 (Zbyte flags);
  buf ← with_slice buf 14 16 (BigEndian_PutUint16 65535);
  buf ← with_slice buf 16 18 (BigEndian_PutUint16 0);
  buf ← with_slice buf 18 20 (BigEndian_PutUint16 0);
  buf ← (if wscale then
           buf ← set_index buf 20 (Zbyte 1);
           buf ← set_index buf 21 (Zbyte 3);
           buf ← set_index buf 22 (Zbyte 3);
           set_index buf 23 (Zbyte 14)
         else Ret buf);
  if 0 <? len payload
  then with_slice buf headerLen (len buf) (fun b => Ret (copy b payload))
  else Ret buf.

(** [buildPseudoHeader] *)
Definition buildPseudoHeader {E} (srcIP dstIP : list byte) (tcpLen : Z) : go E (list byte) :=
  match To4 srcIP with
  | Some srcIP4 =>
    let pseudo := make 12 in
    pseudo ← with_slice pseudo 0 4 (fun b => Ret (copy b srcIP4));
    pseudo ← with_slice pseudo 4 8 (fun b => Ret (copy b (orNil (To4 dstIP))));
    pseudo ← set_index pseudo 8 (Zbyte 0);
    pseudo ← set_index pseudo 9 (Zbyte 6);
    with_slice pseudo 10 12 (BigEndian_PutUint16 (uint16 tcpLen))
  | None =>
    let pseudo := make 40 in
    pseudo ← with_slice pseudo 0 16 (fun b => Ret (copy b (orNil (To16 srcIP))));
    pseudo ← with_slice pseudo 16 32 (fun b => Ret (copy b (orNil (To16 dstIP))));
    pseudo ← with_slice pseudo 32 36 (BigEndian_PutUint32 (uint32 tcpLen));
    pseudo ← set_index pseudo 36 (Zbyte 0);
    pseudo ← set_index pseudo 37 (Zbyte 0);
    pseudo ← set_index pseudo 38 (Zbyte 0);
    set_index pseudo 39 (Zbyte 6)
  end.

(** [BuildTCPPacket].  [ipBuf] and [tcpBuf] are the two parts of [buf]; what
    the builders leave in them is what [buf] holds. *)
Definition BuildTCPPacket {E} (localAddr remoteAddr : UDPAddr) (seq ack flags : Z)
    (payload : list byte) : go E (list byte) :=
  let isIPv6 := bool_decide (To4 (IP localAddr) = None) in
  let ipHeaderLen := if isIPv6 then IPv6HeaderLen else IPv4HeaderLen in
  let wscale := negb (Z.land flags SYN =? 0) in
  let tcpHeaderLen := if wscale then TCPHeaderLen + 4 else TCPHeaderLen in
  let tcpTotalLen := tcpHeaderLen + len payload in
  let totalLen := ipHeaderLen + tcpTotalLen in
  let buf := make totalLen in
  ipBuf ← slice_to buf ipHeaderLen;
  tcpBuf ← slice_from buf ipHeaderLen;
  ipBuf ← (if isIPv6
           then buildIPv6Header ipBuf (IP localAddr) (IP remoteAddr) tcpTotalLen
           else buildIPv4Header ipBuf (IP localAddr) (IP remoteAddr) totalLen);
  tcpBuf ← buildTCPHeader tcpBuf (Port localAddr) (Port remoteAddr) seq ack flags
             tcpHeaderLen payload wscale;
  pseudoHeader ← buildPseudoHeader (IP localAddr) (IP remoteAddr) tcpTotalLen;
  checksum ← calculateChecksum pseudoHeader tcpBuf;
  tcpBuf ← with_slice tcpBuf 16 18 (BigEndian_PutUint16 checksum);
  Ret (ipBuf ++ tcpBuf).

(** What the builders leave in a fresh buffer, byte by byte; the facts below
    show that they do. *)
Definition word16 (v : Z) : list byte := [Zbyte (Z.shiftr v 8); Zbyte v].

Definition word32 (v : Z) : list byte :=
  [Zbyte (Z.shiftr v 24); Zbyte (Z.shiftr v 16); Zbyte (Z.shiftr v 8); Zbyte v].

Definition ipv4Header (srcIP dstIP : list byte) (totalLen checksum : Z) : list byte :=
  ([Zbyte 69; Zbyte 0] ++ word16 (uint16 totalLen) ++ word16 0 ++ word16 16384
   ++ [Zbyte 64; Zbyte 6])
  ++ word16 checksum
  ++ (copy (make 4) (orNil (To4 srcIP)) ++ copy (make 4) (orNil (To4 dstIP))).

Definition ipv6Header (srcIP dstIP : list byte) (payloadLen : Z) : list byte :=
  [Zbyte 96; Zbyte 0; Zbyte 0; Zbyte 0] ++ word16 (uint16 payloadLen)
  ++ [Zbyte 6; Zbyte 64]
  ++ copy (make 16) (orNil (To16 srcIP)) ++ copy (make 16) (orNil (To16 dstIP)).

Definition tcpHeader (srcPort dstPort seq ack flags : Z) (wscale : bool) (checksum : Z)
  : list byte :=
  (word16 (uint16 srcPort) ++ word16 (uint16 dstPort) ++ word32 seq ++ word32 ack
   ++ [Zbyte (if wscale then 96 else 80); Zbyte flags] ++ word16 65535)
  ++ word16 checksum
  ++ (word16 0 ++ (if wscale then [Zbyte 1; Zbyte 3; Zbyte 3; Zbyte 14] else [])).

(** The sum of the 16-bit big-endian words of [data]; a last single byte is
    the high byte of a word. *)
Fixpoint wordSum (data : list byte) : Z :=
  match data with
  | a :: b :: rest => byteZ a * 256 + byteZ b + wordSum rest
  | [a] => byteZ a * 256
  | [] => 0
  end.

(** The end-around-carry sum of 16 bits that [sum] folds to. *)
Definition onesFold (sum : Z) : Z :=
  if sum =? 0 then 0 else (sum - 1) mod 65535 + 1.

(** The errors of [Recv], [Accept] and [Listen]: those [Connect] and [Send]
    have as well, and their own. *)
Inductive error_more :=
  | Known (e : error)
  | ErrParseIncoming               (* "failed to parse incoming packet" *)
  | ErrSendSynAck (cause : error)  (* "failed to send SYN-ACK: %w" *)
  | ErrClosedDuringAccept          (* "socket closed during accept" *)
  | ErrAcceptTimeout (retries : Z) (* "accept timeout after %d retries" *)
  | ErrAlreadyListening (port : Z). (* "already listening on port %d" *)

(** What wakes the [select] of [Recv], which has no timer: a packet taken
    from the queue, or the close of [closeChan]. *)
Inductive RecvEvent :=
  | Incoming (data : list byte)
  | Closed.

(** [Socket.Recv].  [events] is what wakes the [select] of this call and of
    the calls it makes of itself, in order; with nothing left the [select]
    blocks.  [write_ok] tells whether the write of the ACK succeeds; its error
    is only logged.  The result is [n] and the new content of [buf]. *)
Fixpoint Socket_Recv (events : list RecvEvent) (buf : list byte) (write_ok : bool)
    (s : Socket) (w : World) : go error_more (Z * list byte) * Socket * World :=
  if negb (bool_decide (state s = StateEstablished))
  then (Fail (Known (ErrNotEstablished (state s))), s, w)
  else
    match events with
    | [] => (Deadlock, s, w)
    | Closed :: _ => (Fail (Known ErrSocketClosed), s, w)
    | Incoming data :: events =>
      match ParseTCPPacket data with
      | Ret None => (Fail ErrParseIncoming, s, w)
      | Ret (Some pkt) =>
        let payload := Payload pkt in
        if len payload =? 0 then Socket_Recv events buf write_ok s w
        else
          let newAck := uint32 (Seq pkt + uint32 (len payload)) in
          let s := set_ack newAck s in
          let '(s, w) :=
            if uint32 (newAck - lastAck s) >? MaxUnackedLen then
              let s := set_lastAck newAck s in
              (s, (sendPacket s ACK [] write_ok w).2)
            else (s, w) in
          (Ret (Z.min (len buf) (len payload), copy buf payload), s, w)
      | Fail e => match e with end
      | Panic r => (Panic r, s, w)
      | Deadlock => (Deadlock, s, w)
      end
    end.

(** The loop of [Accept]: [n] iterations are left, [i] is the loop variable.
    Of an [Attempt], [woke] and [wait] tell what ends the [select] and when,
    and [syn_write_ok] whether the SYN|ACK that is written again after a
    timeout goes out; the error of that write is only logged. *)
Fixpoint Accept_loop (env : nat -> Attempt) (n i : nat) (s : Socket) (w : World)
  : go error_more unit * Socket * World :=
  match n with
  | O => (Fail (ErrAcceptTimeout RetryCount), set_state StateClosed s, w)
  | S n' =>
    let a := env i in
    match woke a with
    | RecvIncoming data =>
      let w := block (wait a) w in
      match ParseTCPPacket data with
      | Ret None => Accept_loop env n' (S i) s w
      | Ret (Some pkt) =>
        if negb (Z.land (Flags pkt) ACK =? 0)
        then (Ret (), set_state StateEstablished (set_seq (uint32 (seq s + 1)) s), w)
        else Accept_loop env n' (S i) s w
      | Fail e => match e with end
      | Panic r => (Panic r, s, w)
      | Deadlock => (Deadlock, s, w)
      end
    | TimeAfter =>
      let w := block ConnTimeout w in
      Accept_loop env n' (S i) s (sendPacket s (Z.lor SYN ACK) [] (syn_write_ok a) w).2
    | CloseChan => (Fail ErrClosedDuringAccept, s, block (wait a) w)
    end
  end.

(** [Socket.Accept]; [synPacket] is a pointer that may be nil, [write_ok]
    tells whether the first SYN|ACK goes out. *)
Definition Socket_Accept (synPacket : option TCPPacket) (write_ok : bool)
    (env : nat -> Attempt) (s : Socket) (w : World)
  : go error_more unit * Socket * World :=
  if negb (bool_decide (state s = StateIdle)) then (Fail (Known ErrNotIdle), s, w)
  else
    let s := set_state StateSynReceived s in
    match synPacket with
    | None => (Panic NilDereference, s, w)
    | Some pkt =>
      let s := set_ack (uint32 (Seq pkt + 1)) s in
      let s := set_lastAck (uint32 (Seq pkt + 1)) s in
      let '(err, w) := sendPacket s (Z.lor SYN ACK) [] write_ok w in
      match err with
      | Some e => (Fail (ErrSendSynAck e), set_state StateClosed s, w)
      | None => Accept_loop env (Z.to_nat RetryCount) 0 s w
      end
    end.

Definition set_listening (m : gmap Z bool) (st : Stack) : Stack :=
  {| tuns := tuns st; localIPv4 := localIPv4 st; localIPv6 := localIPv6 st;
     listening := m; sockets := sockets st; stopChan := stopChan st; mu := mu st |}.

(** [Stack.Listen]; the deferred [Unlock] runs on both returns.  A port that
    is not in the map reads as false. *)
Definition Stack_Listen (st : Stack) (port : Z) : go error_more unit * Stack :=
  match Lock st with
  | Ret st =>
    if default false (listening st !! port)
    then (Fail (ErrAlreadyListening port), Unlock st)
    else (Ret (), Unlock (set_listening (<[port := true]> (listening st)) st))
  | Fail e => (Fail (Known e), st)
  | Panic r => (Panic r, st)
  | Deadlock => (Deadlock, st)
  end.

Section WithAddrString.
(** [net.UDPAddr.String] *)
Variable UDPAddr_String : UDPAddr -> string.

Definition newAddrTuple (local remote : UDPAddr) : string * string :=
  (UDPAddr_String local, UDPAddr_String remote).

Definition unregisterSocket (st : Stack) (localAddr remoteAddr : UDPAddr) : go error Stack :=
  let tuple := newAddrTuple localAddr remoteAddr in
  st ← Lock st;
  Ret (Unlock (set_sockets (delete tuple (sockets st)) st)).

(** [Socket.Close] of a socket whose stack, when it has one, is [st]. *)
Definition Socket_Close (s : Socket) (st : Stack) : go error unit * Socket * Stack :=
  if closed s then (Ret (), s, st)
  else
    let s := mark_closed s in
    if stack s then
      match unregisterSocket st (localAddr s) (remoteAddr s) with
      | Ret st => (Ret (), s, st)
      | Fail e => (Fail e, s, st)
      | Panic r => (Panic r, s, st)
      | Deadlock => (Deadlock, s, st)
      end
    else (Ret (), s, st).

(** The local IP [Stack.Connect] picks for a remote address; [None] when the
    remote address is an IPv6 one and the stack has no IPv6 address. *)
Definition chooseLocalIP (st : Stack) (remoteAddr : UDPAddr) : option (list byte) :=
  match To4 (IP remoteAddr) with
  | Some _ => Some (localIPv4 st)
  | None => localIPv6 st
  end.

(** [Stack.Connect] *)
Definition Stack_Connect (st : Stack) (localPort : Z) (remoteAddr : UDPAddr)
    (isn : Z) (env : nat -> Attempt) (w : World)
  : go error Socket * Stack * World :=
  match chooseLocalIP st remoteAddr with
  | None => (Fail ErrIPv6NotConfigured, st, w)
  | Some localIP =>
    let localAddr := {| IP := localIP; Port := localPort |} in
    match tuns st !! 0%nat with
    | None => (Panic IndexOutOfRange, st, w)
    | Some tun =>
      let sock := newSocket true localAddr remoteAddr 0 StateIdle isn in
      let tuple := newAddrTuple localAddr remoteAddr in
      match Lock st with
      | Ret st =>
        let st := Unlock (set_sockets (<[tuple := sock]> (sockets st)) st) in
        match Socket_Connect env sock w with
        | (Ret _, sock, w) =>
          (Ret sock, set_sockets (<[tuple := sock]> (sockets st)) st, w)
        | (Fail err, sock, w) =>
          match unregisterSocket (set_sockets (<[tuple := sock]> (sockets st)) st)
                                 localAddr remoteAddr with
          | Ret st => (Fail err, st, w)
          | Fail e => (Fail e, st, w)
          | Panic r => (Panic r, st, w)
          | Deadlock => (Deadlock, st, w)
          end
        | (Panic r, sock, w) =>
          (Panic r, set_sockets (<[tuple := sock]> (sockets st)) st, w)
        | (Deadlock, sock, w) =>
          (Deadlock, set_sockets (<[tuple := sock]> (sockets st)) st, w)
        end
      | Fail e => (Fail e, st, w)
      | Panic r => (Panic r, st, w)
      | Deadlock => (Deadlock, st, w)
      end
    end
  end.

(** The loop [for _, sock := range s.sockets { sock.Close() }] over the
    entries of the map in the order [entries]. *)
Fixpoint closeSockets (entries : list (string * string * Socket)) (st : Stack)
  : go error unit * Stack :=
  match entries with
  | [] => (Ret (), st)
  | (tuple, sock) :: rest =>
    match Socket_Close sock st with
    | (Ret _, sock, st) =>
      closeSockets rest
        (if bool_decide (is_Some (sockets st !! tuple))
         then set_sockets (<[tuple := sock]> (sockets st)) st else st)
    | (Fail e, _, st) => (Fail e, st)
    | (Panic r, _, st) => (Panic r, st)
    | (Deadlock, _, st) => (Deadlock, st)
    end
  end.

(** [Stack.Close].  [wg.Wait()] returns once the packet readers have left;
    the readers are not part of the model. *)
Definition Stack_Close (st : Stack) : go error unit * Stack :=
  if stopChan st then (Panic CloseOfClosedChannel, st)
  else
    let st := set_stopChan true st in
    let st := set_tuns (Tun_Close <$> tuns st) st in
    match Lock st with
    | Ret st =>
      match closeSockets (map_to_list (sockets st)) st with
      | (Ret _, st) => (Ret (), Unlock (set_sockets ∅ st))
      | other => other
      end
    | Fail e => (Fail e, st)
    | Panic r => (Panic r, st)
    | Deadlock => (Deadlock, st)
    end.

End WithAddrString.

End FakeTCP.

(** ** Concrete instances on which the functions are run *)

Module Sample.
Import Obfuscation.

Definition xor8 (a b : bool * (bool * (bool * (bool * (bool * (bool * (bool * bool)))))))
  : bool * (bool * (bool * (bool * (bool * (bool * (bool * bool)))))) :=
  let '(a0, (a1, (a2, (a3, (a4, (a5, (a6, a7))))))) := a in
  let '(b0, (b1, (b2, (b3, (b4, (b5, (b6, b7))))))) := b in
  (xorb a0 b0, (xorb a1 b1, (xorb a2 b2, (xorb a3 b3,
   (xorb a4 b4, (xorb a5 b5, (xorb a6 b6, xorb a7 b7))))))).

Definition byte_xor (a b : byte) : byte :=
  Byte.of_bits (xor8 (Byte.to_bits a) (Byte.to_bits b)).

Fixpoint bytes_eqb (a b : list byte) : bool :=
  match a, b with
  | [], [] => true
  | x :: a, y :: b => Byte.eqb x y && bytes_eqb a b
  | _, _ => false
  end.

(** A block cipher that adds the first key byte to every byte of the block. *)
Definition xorBlock (k : list byte) : Block :=
  {| Block_Encrypt b := byte_xor (hd Byte.x00 k) <$> b;
     Block_Decrypt b := byte_xor (hd Byte.x00 k) <$> b |}.

(** An AEAD whose ciphertext is the plaintext with the first key byte added
    and whose 16-byte tag is the head of the nonce. *)
Definition tagAEAD (k : list byte) : AEAD :=
  {| AEAD_Seal n p := (byte_xor (hd Byte.x00 k) <$> p) ++ take 16 n;
     AEAD_Open n c :=
       if (length c <? 16)%nat then None
       else if bytes_eqb (drop (length c - 16) c) (take 16 n)
            then Some (byte_xor (hd Byte.x00 k) <$> take (length c - 16) c)
            else None |}.

#[export] Instance crypto : Crypto :=
  {| aes_NewCipher k :=
       if (len k =? 16) || (len k =? 24) || (len k =? 32) then Some (xorBlock k) else None;
     chacha20poly1305_NewX k :=
       if len k =? 32 then Some (tagAEAD k) else None |}.

Definition psk : list byte := replicate 32 Byte.xa5.

(** [Intn] answers its largest value, the padding is 0x11 bytes, the nonce
    counts upwards. *)
Definition entropy : Entropy :=
  {| rand_Intn n := n - 1;
     rand_padding _ := Byte.x11;
     rand_nonce i := Zbyte (Z.of_nat i) |}.

(** [handler mps] is the handler [NewZeroOverheadHandler psk mps true] returns. *)
Definition handler (mps : Z) : ZeroOverheadHandler :=
  {| cb := Some (xorBlock psk); aead := Some (tagAEAD psk); maxPacketSize := mps;
     maxControlPacketSize := mps - 42; enabled := true |}.

(** A packet of [n] bytes [kind, 1, 2, ...]. *)
Definition packet (kind : byte) (n : nat) : list byte :=
  kind :: ((fun i => Zbyte (Z.of_nat i)) <$> seq 1 (n - 1)).

(** [host:port] with the bytes of the address in decimal. *)
Definition addrString (a : FakeTCP.UDPAddr) : string :=
  String.concat "." ((fun b => pretty (byteZ b)) <$> FakeTCP.IP a)
  +:+ ":" +:+ pretty (FakeTCP.Port a).

Definition local4 : list byte := [Byte.x0a; Byte.x00; Byte.x00; Byte.x01].
Definition remote4 : list byte := [Byte.x0a; Byte.x00; Byte.x00; Byte.x02].

Definition localAddr : FakeTCP.UDPAddr := {| FakeTCP.IP := local4; FakeTCP.Port := 3001 |}.
Definition remoteAddr : FakeTCP.UDPAddr := {| FakeTCP.IP := remote4; FakeTCP.Port := 443 |}.

Definition world0 : FakeTCP.World := {| FakeTCP.writes := []; FakeTCP.waits := [] |}.

Definition idleSocket : FakeTCP.Socket :=
  FakeTCP.newSocket true localAddr remoteAddr 0 FakeTCP.StateIdle 1000.

Definition establishedSocket : FakeTCP.Socket :=
  FakeTCP.set_state FakeTCP.StateEstablished
    (FakeTCP.newSocket true localAddr remoteAddr 0 FakeTCP.StateIdle 4294967290).

(** Nothing ever arrives: every [select] ends with its timer. *)
Definition silence (i : nat) : FakeTCP.Attempt :=
  {| FakeTCP.syn_write_ok := true; FakeTCP.woke := FakeTCP.TimeAfter;
     FakeTCP.wait := 0; FakeTCP.ack_write_ok := true |}.

(** The socket is closed one second into the first [select]. *)
Definition closing (i : nat) : FakeTCP.Attempt :=
  {| FakeTCP.syn_write_ok := true; FakeTCP.woke := FakeTCP.CloseChan;
     FakeTCP.wait := 1000000000; FakeTCP.ack_write_ok := true |}.

(** An IPv4 packet from [remoteAddr] to [localAddr] carrying a TCP header
    with the flags SYN|ACK and the sequence number 7. *)
Definition synAck : list byte :=
  [Byte.x45; Byte.x00; Byte.x00; Byte.x28; Byte.x00; Byte.x00; Byte.x40; Byte.x00;
   Byte.x40; Byte.x06; Byte.x00; Byte.x00]
  ++ remote4 ++ local4
  ++ [Byte.x01; Byte.xbb; Byte.x0b; Byte.xb9;
      Byte.x00; Byte.x00; Byte.x00; Byte.x07;
      Byte.x00; Byte.x00; Byte.x03; Byte.xe9;
      Byte.x50; Byte.x12; Byte.xff; Byte.xff;
      Byte.x00; Byte.x00; Byte.x00; Byte.x00].

(** The same header announcing a data offset of 60 bytes, past the end of
    the 20-byte segment. *)
Definition synAckOffset60 : list byte := <[32%nat := Byte.xf0]> synAck.

(** The SYN|ACK arrives half a second into the first [select]. *)
Definition answering (i : nat) : FakeTCP.Attempt :=
  {| FakeTCP.syn_write_ok := true; FakeTCP.woke := FakeTCP.RecvIncoming synAck;
     FakeTCP.wait := 500000000; FakeTCP.ack_write_ok := true |}.

(** Two packets from [remoteAddr] to [localAddr], as [BuildTCPPacket] makes
    them: a bare ACK, and an ACK with the sequence number 200000000 that
    carries three bytes. *)
Definition ackPacket : list byte :=
  match FakeTCP.BuildTCPPacket (E := Empty_set) remoteAddr localAddr 7 1001 FakeTCP.ACK [] with
  | Ret buf => buf
  | _ => []
  end.

Definition dataPacket : list byte :=
  match FakeTCP.BuildTCPPacket (E := Empty_set) remoteAddr localAddr 200000000 1001
          FakeTCP.ACK [Byte.x68; Byte.x69; Byte.x21] with
  | Ret buf => buf
  | _ => []
  end.

(** The first [select] of [Accept] ends with its timer, the second with the
    ACK of the peer. *)
Definition acking (i : nat) : FakeTCP.Attempt :=
  {| FakeTCP.syn_write_ok := true;
     FakeTCP.woke := if Nat.eqb i 0 then FakeTCP.TimeAfter else FakeTCP.RecvIncoming ackPacket;
     FakeTCP.wait := 1000; FakeTCP.ack_write_ok := true |}.

Definition stack1 : FakeTCP.Stack :=
  FakeTCP.NewStack [ {| FakeTCP.tun_closed := false |} ] local4 None.

(** [stack1] with [idleSocket] registered, as [handlePacket] or
    [Stack.Connect] leave it while the handshake runs. *)
Definition stack2 : FakeTCP.Stack :=
  FakeTCP.set_sockets
    (<[FakeTCP.newAddrTuple addrString localAddr remoteAddr := idleSocket]> ∅) stack1.

End Sample.

(** ** Facts about the runtime fragment *)

Section Runtime.

Lemma len_nonneg {A} (l : list A) : 0 <= len l.
Proof. unfold len. lia. Qed.

Lemma len_app {A} (l k : list A) : len (l ++ k) = len l + len k.
Proof. unfold len. rewrite length_app. lia. Qed.

Lemma len_take {A} (l : list A) (n : Z) :
  0 <= n <= len l -> len (take (Z.to_nat n) l) = n.
Proof. unfold len. intros H. rewrite length_take. lia. Qed.

Lemma len_drop {A} (l : list A) (n : Z) :
  0 <= n <= len l -> len (drop (Z.to_nat n) l) = len l - n.
Proof. unfold len. intros H. rewrite length_drop. lia. Qed.

Lemma wrap_int_id (z : Z) : min_int <= z <= max_int -> wrap_int z = z.
Proof.
  unfold wrap_int, min_int, max_int. intros H.
  rewrite Z.mod_small; lia.
Qed.

Lemma wrap_int_range (z : Z) : min_int <= wrap_int z <= max_int.
Proof.
  unfold wrap_int, min_int, max_int.
  pose proof (Z.mod_pos_bound (z + 2 ^ 63) (2 ^ 64)). lia.
Qed.

Lemma byteZ_range (b : byte) : 0 <= byteZ b < 256.
Proof.
  unfold byteZ. pose proof (Byte.to_N_bounded b). lia.
Qed.

Lemma byteZ_Zbyte (z : Z) : byteZ (Zbyte z) = z mod 256.
Proof.
  unfold byteZ, Zbyte.
  pose proof (Z.mod_pos_bound z 256 eq_refl) as Hm.
  destruct (Byte.of_N (Z.to_N (z mod 256))) as [b|] eqn:Hb.
  - apply Byte.to_of_N in Hb. rewrite Hb. lia.
  - apply Byte.of_N_None_iff in Hb. lia.
Qed.

Lemma slice_Ret {E} (l : list byte) (lo hi : Z) :
  0 <= lo <= hi -> hi <= len l ->
  slice (E := E) l lo hi = Ret (take (Z.to_nat (hi - lo)) (drop (Z.to_nat lo) l)).
Proof.
  intros [H1 H2] H3. unfold slice.
  destruct (0 <=? lo) eqn:E1; [|lia].
  destruct (lo <=? hi) eqn:E2; [|lia].
  destruct (hi <=? len l) eqn:E3; [|lia].
  reflexivity.
Qed.

Lemma slice_from_Ret {E} (l : list byte) (lo : Z) :
  0 <= lo <= len l -> slice_from (E := E) l lo = Ret (drop (Z.to_nat lo) l).
Proof.
  intros H. unfold slice_from. rewrite slice_Ret by lia.
  f_equal. apply take_ge. rewrite length_drop. unfold len in *. lia.
Qed.

Lemma slice_to_Ret {E} (l : list byte) (hi : Z) :
  0 <= hi <= len l -> slice_to (E := E) l hi = Ret (take (Z.to_nat hi) l).
Proof.
  intros H. unfold slice_to. rewrite slice_Ret by lia.
  rewrite Z.sub_0_r. reflexivity.
Qed.

Lemma index_Ret {E} (l : list byte) (i : Z) :
  0 <= i < len l -> exists b, index (E := E) l i = Ret b /\ l !! Z.to_nat i = Some b.
Proof.
  intros H. unfold index.
  destruct (0 <=? i) eqn:E1; [|lia].
  destruct (l !! Z.to_nat i) as [b|] eqn:Hb.
  - eauto.
  - apply lookup_ge_None in Hb. unfold len in H. lia.
Qed.

Lemma index_lookup {E} (l : list byte) (n : nat) (b : byte) :
  l !! n = Some b -> index (E := E) l (Z.of_nat n) = Ret b.
Proof.
  intros H. unfold index.
  destruct (Z.leb_spec 0 (Z.of_nat n)); [|lia].
  rewrite Nat2Z.id, H. reflexivity.
Qed.

Lemma land_low_high (lo hi : Z) :
  0 <= lo < 256 -> Z.land lo (hi * 256) = 0.
Proof.
  intros Hlo. apply Z.bits_inj'. intros n Hn.
  rewrite Z.land_spec, Z.bits_0.
  destruct (Z.ltb_spec n 8).
  - change 256 with (2 ^ 8). rewrite Z.mul_pow2_bits_low by lia. apply andb_false_r.
  - replace (Z.testbit lo n) with false; [reflexivity|].
    symmetry. destruct (Z.eq_dec lo 0) as [->|]; [apply Z.bits_0|].
    apply Z.bits_above_log2; [lia|].
    apply Z.log2_lt_pow2; [lia|].
    apply Z.lt_le_trans with (2 ^ 8); [lia|]. apply Z.pow_le_mono_r; lia.
Qed.

(** Two bytes put side by side are the sum of their weights. *)
Lemma lor_shiftl_8 (lo hi : Z) :
  0 <= lo < 256 -> 0 <= hi -> Z.lor lo (Z.shiftl hi 8) = lo + hi * 256.
Proof.
  intros Hlo Hhi.
  rewrite Z.shiftl_mul_pow2 by lia. change (2 ^ 8) with 256.
  rewrite <- Z.lxor_lor by (apply land_low_high; lia).
  symmetry. apply Z.add_nocarry_lxor. apply land_low_high; lia.
Qed.

Lemma BigEndian_Uint16_pair {E} (v : Z) :
  0 <= v < 65536 ->
  BigEndian_Uint16 (E := E) [Zbyte (Z.shiftr v 8); Zbyte v] = Ret v.
Proof.
  intros Hv. unfold BigEndian_Uint16, index. simpl.
  rewrite !byteZ_Zbyte. rewrite Z.shiftr_div_pow2 by lia. change (2 ^ 8) with 256.
  f_equal.
  assert (0 <= v / 256 < 256) by (split; [apply Z.div_pos; lia | apply Z.div_lt_upper_bound; lia]).
  rewrite (Z.mod_small (v / 256)) by lia.
  rewrite lor_shiftl_8; [| apply Z.mod_pos_bound; lia | lia].
  pose proof (Z.div_mod v 256). lia.
Qed.

End Runtime.

(** ** Package obfuscation: the shape of [Encrypt] and [Decrypt] *)

Section ObfuscationFacts.
Import Obfuscation.
Context {C : Crypto} {HC : CryptoLaws C}.

Lemma isControlPacket_spec (b : byte) :
  isControlPacket b = true <-> 1 <= byteZ b <= 6.
Proof.
  unfold isControlPacket, MessageTypeRegister, MessageTypeServerUpdate,
    MessageTypePing, MessageTypePong, MessageTypeQueryPeer, MessageTypeBroadcastPeer.
  rewrite !orb_true_iff, !Z.eqb_eq. lia.
Qed.

Lemma isControlPacket_false (b : byte) :
  isControlPacket b = false <-> ~ (1 <= byteZ b <= 6).
Proof.
  rewrite <- isControlPacket_spec. destruct (isControlPacket b); split; congruence.
Qed.

Lemma NewZeroOverheadHandler_ready (psk : list byte) (mps : Z) (h : ZeroOverheadHandler) :
  NewZeroOverheadHandler psk mps true = Ret h ->
  length psk = 32%nat /\
  maxPacketSize h = mps /\
  maxControlPacketSize h = wrap_int (wrap_int (wrap_int (mps - 2) - 16) - 24) /\
  exists blk a, ready h blk a.
Proof.
  unfold NewZeroOverheadHandler. simpl.
  destruct (Z.eqb_spec (len psk) 32) as [Hlen|]; simpl; [|discriminate].
  assert (length psk = 32%nat) as Hpsk by (unfold len in Hlen; lia).
  destruct (aes_NewCipher_32 psk Hpsk) as (blk & -> & Hblk).
  destruct (chacha20poly1305_NewX_32 psk Hpsk) as (a & -> & Ha).
  intros [= <-]. simpl. repeat split; trivial.
  exists blk, a. split; trivial.
Qed.

Lemma NewZeroOverheadHandler_disabled (psk : list byte) (mps : Z) (h : ZeroOverheadHandler) :
  NewZeroOverheadHandler psk mps false = Ret h -> enabled h = false.
Proof. unfold NewZeroOverheadHandler. simpl. intros [= <-]. reflexivity. Qed.

Lemma cryptorand_Read_len (src : nat -> byte) (n : Z) :
  len (cryptorand_Read src n) = Z.max 0 n.
Proof. unfold len, cryptorand_Read. rewrite length_fmap, length_seq. lia. Qed.

Lemma cryptorand_Read_nonpos (src : nat -> byte) (n : Z) :
  n <= 0 -> cryptorand_Read src n = [].
Proof.
  intros H. unfold cryptorand_Read. replace (Z.to_nat n) with 0%nat by lia. reflexivity.
Qed.

Lemma take_16_length (P : list byte) : 16 <= len P -> length (take 16 P) = 16%nat.
Proof. unfold len. intros H. rewrite length_take. lia. Qed.

(** A data packet: the first block is enciphered, the rest is appended. *)
Lemma Encrypt_data (h : ZeroOverheadHandler) blk a rnd (P : list byte) (b0 : byte) :
  ready h blk a -> 16 <= len P -> P !! 0%nat = Some b0 ->
  isControlPacket b0 = false ->
  Encrypt h rnd P = Ret (Block_Encrypt blk (take 16 P) ++ drop 16 P).
Proof.
  intros Hr HP Hb0 Hk. unfold Encrypt, aes_BlockSize.
  rewrite (ready_enabled _ _ _ Hr), (ready_cb _ _ _ Hr). simpl.
  destruct (Z.ltb_spec (len P) 16); [lia|].
  rewrite (index_lookup P 0 b0 Hb0). simpl.
  rewrite slice_to_Ret by lia. simpl.
  rewrite slice_from_Ret by lia. simpl.
  rewrite Hk. reflexivity.
Qed.

(** A control packet: the rest, the padding and the length field are sealed,
    and the nonce is appended. *)
Lemma Encrypt_control (h : ZeroOverheadHandler) blk a rnd (P : list byte) (b0 : byte) :
  ready h blk a -> 16 <= len P -> P !! 0%nat = Some b0 ->
  isControlPacket b0 = true ->
  Encrypt h rnd P =
    let paddingHeadroom := wrap_int (maxControlPacketSize h - len P) in
    if (paddingHeadroom <? 0) || (len P - 16 >? 65535)
    then Fail ErrControlPacketTooLarge
    else
      paddingLen ← choosePadding rnd paddingHeadroom;
      let nonce := cryptorand_Read (rand_nonce rnd) 24 in
      dst ← Seal a (Block_Encrypt blk (take 16 P)) nonce
              (drop 16 P ++ cryptorand_Read (rand_padding rnd) paddingLen
               ++ [Zbyte (Z.shiftr (len P - 16) 8); Zbyte (len P - 16)]);
      Ret (dst ++ nonce).
Proof.
  intros Hr HP Hb0 Hk. unfold Encrypt, aes_BlockSize, chacha20poly1305_NonceSizeX.
  rewrite (ready_enabled _ _ _ Hr), (ready_cb _ _ _ Hr), (ready_aead _ _ _ Hr). simpl.
  destruct (Z.ltb_spec (len P) 16); [lia|].
  rewrite (index_lookup P 0 b0 Hb0). simpl.
  rewrite slice_to_Ret by lia. simpl.
  rewrite slice_from_Ret by lia. simpl.
  rewrite Hk. simpl. change (Z.to_nat 16) with 16%nat.
  assert (len (drop 16 P) = len P - 16) as -> by (apply (len_drop P 16); lia).
  destruct ((wrap_int (maxControlPacketSize h - len P) <? 0) || (len P - 16 >? 65535)) eqn:Hguard;
    [reflexivity|].
  apply orb_false_iff in Hguard as [Hh Hrem].
  destruct (choosePadding rnd (wrap_int (maxControlPacketSize h - len P))) as [pad| | |];
    simpl; try reflexivity.
  pose proof (Block_Encrypt_length _ (ready_Block _ _ _ Hr) (take 16 P) (take_16_length P HP)) as HE.
  set (E := Block_Encrypt blk (take 16 P)) in *.
  assert (len E = 16) as HlenE by (unfold len; lia).
  set (padded := if 0 <? pad then _ else _).
  assert (padded = (E ++ drop 16 P) ++ cryptorand_Read (rand_padding rnd) pad) as ->.
  { subst padded. destruct (Z.ltb_spec 0 pad); [reflexivity|].
    rewrite cryptorand_Read_nonpos by lia. rewrite app_nil_r. reflexivity. }
  unfold BigEndian_AppendUint16, uint16.
  rewrite (Z.mod_small (len P - 16)) by lia.
  rewrite HlenE.
  rewrite <- !app_assoc.
  set (body := drop 16 P ++ _).
  pose proof (len_nonneg body).
  rewrite slice_from_Ret by (rewrite len_app; lia).
  rewrite slice_to_Ret by (rewrite len_app; lia).
  simpl.
  rewrite (drop_app_length' E) by lia.
  rewrite (take_app_length' E) by lia.
  reflexivity.
Qed.

Lemma Seal_cases (a : AEAD) (dst nonce plaintext : list byte) :
  len nonce = 24 ->
  (len plaintext <= chacha20poly1305_maxPlaintext /\
   Seal a dst nonce plaintext = Ret (dst ++ AEAD_Seal a nonce plaintext)) \/
  (chacha20poly1305_maxPlaintext < len plaintext /\
   Seal a dst nonce plaintext = Panic InvalidArgument).
Proof.
  intros Hn. unfold Seal, chacha20poly1305_NonceSizeX. rewrite Hn. simpl.
  destruct (Z.gtb_spec (len plaintext) chacha20poly1305_maxPlaintext); [right|left]; split;
    (lia || reflexivity).
Qed.

Lemma Open_cases (a : AEAD) (dst nonce ciphertext : list byte) :
  len nonce = 24 ->
  16 <= len ciphertext <= chacha20poly1305_maxCiphertext ->
  Open a dst nonce ciphertext =
    match AEAD_Open a nonce ciphertext with
    | Some plaintext => Ret (dst ++ plaintext)
    | None => Fail ErrOpen
    end.
Proof.
  intros Hn Hc. unfold Open, chacha20poly1305_NonceSizeX, chacha20poly1305_Overhead.
  rewrite Hn. simpl.
  destruct (Z.ltb_spec (len ciphertext) 16); [lia|].
  destruct (Z.gtb_spec (len ciphertext) chacha20poly1305_maxCiphertext); [lia|].
  reflexivity.
Qed.

Lemma Decrypt_data (h : ZeroOverheadHandler) blk a (c : list byte) (b0 : byte) :
  ready h blk a -> 16 <= len c ->
  Block_Decrypt blk (take 16 c) !! 0%nat = Some b0 ->
  isControlPacket b0 = false ->
  Decrypt h c = Ret (Block_Decrypt blk (take 16 c) ++ drop 16 c).
Proof.
  intros Hr Hc Hb0 Hk. unfold Decrypt, aes_BlockSize.
  rewrite (ready_enabled _ _ _ Hr), (ready_cb _ _ _ Hr). simpl.
  destruct (Z.ltb_spec (len c) 16); [lia|].
  rewrite slice_to_Ret by lia. simpl. change (Z.to_nat 16) with 16%nat.
  rewrite (index_lookup _ 0 b0 Hb0). simpl.
  rewrite Hk. simpl.
  rewrite slice_from_Ret by lia. reflexivity.
Qed.

Lemma Decrypt_control (h : ZeroOverheadHandler) blk a (c : list byte) (b0 : byte) :
  ready h blk a -> 16 <= len c ->
  Block_Decrypt blk (take 16 c) !! 0%nat = Some b0 ->
  isControlPacket b0 = true ->
  Decrypt h c =
    if len c <? 58 then Fail ErrControlPacketLength
    else
      plaintext ← Open a (Block_Decrypt blk (take 16 c))
                    (drop (Z.to_nat (len c - 24)) c)
                    (take (Z.to_nat (len c - 24 - 16)) (drop 16 c));
      if len plaintext <? 2 then Fail ErrDecryptedTooSmall
      else
        field ← slice_from plaintext (len plaintext - 2);
        remainingPayloadSize ← BigEndian_Uint16 field;
        if 16 + remainingPayloadSize >? len plaintext - 2 then Fail ErrPayloadLength
        else slice_to plaintext (16 + remainingPayloadSize).
Proof.
  intros Hr Hc Hb0 Hk.
  unfold Decrypt, aes_BlockSize, chacha20poly1305_NonceSizeX, chacha20poly1305_Overhead.
  rewrite (ready_enabled _ _ _ Hr), (ready_cb _ _ _ Hr), (ready_aead _ _ _ Hr). simpl.
  destruct (Z.ltb_spec (len c) 16); [lia|].
  rewrite slice_to_Ret by lia. simpl. change (Z.to_nat 16) with 16%nat.
  rewrite (index_lookup _ 0 b0 Hb0). simpl.
  rewrite Hk. simpl. change (16 + 2 + 16 + 24) with 58.
  destruct (Z.ltb_spec (len c) 58); [reflexivity|].
  rewrite slice_from_Ret by lia. simpl.
  rewrite slice_Ret by lia. simpl. change (Z.to_nat 16) with 16%nat.
  assert (length (Block_Decrypt blk (take 16 c)) = 16%nat) as HD
    by (apply (Block_Decrypt_length _ (ready_Block _ _ _ Hr)), take_16_length; lia).
  assert (len (Block_Decrypt blk (take 16 c)) = 16) as -> by (unfold len; lia).
  reflexivity.
Qed.

(** [Decrypt] neither panics nor blocks on a packet the AEAD can take. *)
Lemma Decrypt_returns (h : ZeroOverheadHandler) blk a (c : list byte) :
  ready h blk a ->
  len c - 16 - 24 <= chacha20poly1305_maxCiphertext ->
  (exists p, Decrypt h c = Ret p) \/ (exists e, Decrypt h c = Fail e).
Proof.
  intros Hr Hmax.
  destruct (Z.ltb_spec (len c) 16) as [Hshort|Hlong].
  { left. exists c. unfold Decrypt, aes_BlockSize.
    rewrite (ready_enabled _ _ _ Hr). simpl.
    destruct (Z.ltb_spec (len c) 16); [reflexivity|lia]. }
  assert (length (Block_Decrypt blk (take 16 c)) = 16%nat) as HD
    by (apply (Block_Decrypt_length _ (ready_Block _ _ _ Hr)), take_16_length; lia).
  destruct (Block_Decrypt blk (take 16 c) !! 0%nat) as [b0|] eqn:Hb0;
    [|apply lookup_ge_None in Hb0; lia].
  destruct (isControlPacket b0) eqn:Hk.
  2:{ left. eexists. eapply Decrypt_data; eauto. }
  rewrite (Decrypt_control h blk a c b0) by assumption.
  destruct (Z.ltb_spec (len c) 58); [right; eauto|].
  assert (len (drop 16 c) = len c - 16) as Hrest by (apply (len_drop c 16); lia).
  rewrite Open_cases.
  2:{ rewrite len_drop by lia. lia. }
  2:{ rewrite len_take by lia. lia. }
  destruct (AEAD_Open a _ _) as [p|]; simpl; [|right; eauto].
  set (D := Block_Decrypt blk (take 16 c)) in *.
  assert (len (D ++ p) = 16 + len p) as Hlen by (rewrite len_app; unfold len; lia).
  pose proof (len_nonneg p) as Hp.
  destruct (Z.ltb_spec (len (D ++ p)) 2); [right; eauto|].
  rewrite slice_from_Ret by lia. simpl.
  set (field := drop _ (D ++ p)).
  assert (len field = 2) as Hf by (subst field; rewrite len_drop; lia).
  destruct field as [|f0 [|f1 [|]]]; try (unfold len in Hf; simpl in Hf; lia).
  unfold BigEndian_Uint16, index. simpl.
  assert (0 <= Z.lor (byteZ f1) (Z.shiftl (byteZ f0) 8)) as Hv.
  { apply Z.lor_nonneg. pose proof (byteZ_range f0). pose proof (byteZ_range f1).
    split; [lia|]. apply Z.shiftl_nonneg. lia. }
  destruct (Z.gtb_spec (16 + Z.lor (byteZ f1) (Z.shiftl (byteZ f0) 8)) (len (D ++ p) - 2));
    [right; eauto|].
  left. rewrite slice_to_Ret by lia. eauto.
Qed.

(** What a successful [Encrypt] of a control packet returns. *)
Lemma Encrypt_control_Ret (h : ZeroOverheadHandler) blk a rnd (P c : list byte) (b0 : byte) :
  ready h blk a -> 16 <= len P -> P !! 0%nat = Some b0 ->
  isControlPacket b0 = true ->
  Encrypt h rnd P = Ret c ->
  0 <= wrap_int (maxControlPacketSize h - len P) /\ len P - 16 <= 65535 /\
  exists pad,
    choosePadding rnd (wrap_int (maxControlPacketSize h - len P)) = Ret pad /\
    len P - 16 + Z.max 0 pad + 2 <= chacha20poly1305_maxPlaintext /\
    c = Block_Encrypt blk (take 16 P)
        ++ AEAD_Seal a (cryptorand_Read (rand_nonce rnd) 24)
             (drop 16 P ++ cryptorand_Read (rand_padding rnd) pad
              ++ [Zbyte (Z.shiftr (len P - 16) 8); Zbyte (len P - 16)])
        ++ cryptorand_Read (rand_nonce rnd) 24.
Proof.
  intros Hr HP Hb0 Hk. rewrite (Encrypt_control h blk a rnd P b0) by assumption.
  cbv zeta.
  destruct (Z.ltb_spec (wrap_int (maxControlPacketSize h - len P)) 0); simpl; [discriminate|].
  destruct (Z.gtb_spec (len P - 16) 65535); simpl; [discriminate|].
  destruct (choosePadding rnd _) as [pad| | |]; simpl; try discriminate.
  set (body := drop 16 P ++ _).
  assert (len body = len P - 16 + Z.max 0 pad + 2) as Hbody.
  { assert (len (drop 16 P) = len P - 16) as Hrest by (apply (len_drop P 16); lia).
    subst body. rewrite !len_app, Hrest, cryptorand_Read_len.
    unfold len. simpl. lia. }
  destruct (Seal_cases a (Block_Encrypt blk (take 16 P))
              (cryptorand_Read (rand_nonce rnd) 24) body) as [[Hle ->]|[_ ->]];
    [apply cryptorand_Read_len| |discriminate].
  simpl. intros [= <-]. repeat split; try lia. exists pad.
  split; [reflexivity|]. split; [lia|]. rewrite <- app_assoc. reflexivity.
Qed.

Lemma Decrypt_Encrypt_control (h : ZeroOverheadHandler) blk a rnd (P c : list byte) (b0 : byte) :
  ready h blk a -> 16 <= len P -> P !! 0%nat = Some b0 ->
  isControlPacket b0 = true ->
  Encrypt h rnd P = Ret c -> Decrypt h c = Ret P.
Proof.
  intros Hr HP Hb0 Hk Henc.
  destruct (Encrypt_control_Ret h blk a rnd P c b0 Hr HP Hb0 Hk Henc)
    as (Hhead & Hrem & pad & _ & Hsz & ->).
  pose proof (take_16_length P HP) as Hfirst.
  pose proof (Block_Encrypt_length _ (ready_Block _ _ _ Hr) _ Hfirst) as HE.
  set (E := Block_Encrypt blk (take 16 P)) in *.
  assert (Block_Decrypt blk E = take 16 P) as HDE
    by (apply (Block_Decrypt_Encrypt _ (ready_Block _ _ _ Hr)); assumption).
  set (nonce := cryptorand_Read (rand_nonce rnd) 24).
  assert (length nonce = 24%nat) as Hn
    by (pose proof (cryptorand_Read_len (rand_nonce rnd) 24); unfold len in *; subst nonce; lia).
  set (padding := cryptorand_Read (rand_padding rnd) pad).
  set (field := [Zbyte (Z.shiftr (len P - 16) 8); Zbyte (len P - 16)]).
  set (body := drop 16 P ++ padding ++ field).
  pose proof (AEAD_Seal_length _ (ready_AEAD _ _ _ Hr) nonce body Hn) as HS.
  set (S := AEAD_Seal a nonce body) in *.
  assert (length body = (length P - 16 + length padding + 2)%nat) as Hbody
    by (subst body field; rewrite !length_app, length_drop; simpl; lia).
  assert (take 16 (E ++ S ++ nonce) = E) as Htake by (apply take_app_length'; lia).
  assert (len (E ++ S ++ nonce) = 16 + (len body + 16) + 24) as Hlen
    by (unfold len; rewrite !length_app; lia).
  assert (16 <= len P) as HP' by assumption. unfold len in HP'.
  rewrite (Decrypt_control h blk a _ b0 Hr); try assumption; try (unfold len in *; lia).
  2:{ rewrite Htake, HDE.
      rewrite lookup_take_lt by lia. assumption. }
  rewrite Htake, HDE.
  destruct (Z.ltb_spec (len (E ++ S ++ nonce)) 58); [unfold len in *; lia|].
  assert (drop (Z.to_nat (len (E ++ S ++ nonce) - 24)) (E ++ S ++ nonce) = nonce) as ->.
  { rewrite Hlen, (app_assoc E S nonce). apply drop_app_length'.
    rewrite length_app. unfold len. lia. }
  assert (take (Z.to_nat (len (E ++ S ++ nonce) - 24 - 16)) (drop 16 (E ++ S ++ nonce)) = S) as ->.
  { rewrite Hlen, (drop_app_length' E) by lia. apply take_app_length'. unfold len. lia. }
  assert (len padding = Z.max 0 pad) as Hpadlen by apply cryptorand_Read_len.
  rewrite Open_cases by (unfold len in *; unfold chacha20poly1305_maxCiphertext,
                           chacha20poly1305_maxPlaintext in *; lia).
  subst S. rewrite (AEAD_Open_Seal _ (ready_AEAD _ _ _ Hr)) by assumption. simpl.
  assert (len (take 16 P ++ body) = len P + len padding + 2) as Hpl
    by (unfold len; rewrite length_app; lia).
  pose proof (len_nonneg padding) as Hpad.
  destruct (Z.ltb_spec (len (take 16 P ++ body)) 2); [lia|].
  rewrite slice_from_Ret by lia. simpl.
  assert (drop (Z.to_nat (len (take 16 P ++ body) - 2)) (take 16 P ++ body) = field) as ->.
  { rewrite Hpl. subst body. rewrite !app_assoc. apply drop_app_length'.
    rewrite !length_app, length_drop. unfold len. lia. }
  subst field. rewrite BigEndian_Uint16_pair by lia. simpl.
  destruct (Z.gtb_spec (16 + (len P - 16)) (len (take 16 P ++ body) - 2)); [lia|].
  rewrite slice_to_Ret by lia. f_equal.
  subst body. rewrite app_assoc, take_drop.
  apply take_app_length'. unfold len. lia.
Qed.

Lemma Decrypt_Encrypt_data (h : ZeroOverheadHandler) blk a rnd (P : list byte) (b0 : byte) :
  ready h blk a -> 16 <= len P -> P !! 0%nat = Some b0 ->
  isControlPacket b0 = false ->
  exists c, Encrypt h rnd P = Ret c /\ Decrypt h c = Ret P.
Proof.
  intros Hr HP Hb0 Hk. eexists. split; [eapply Encrypt_data; eassumption|].
  pose proof (take_16_length P HP) as Hfirst.
  pose proof (Block_Encrypt_length _ (ready_Block _ _ _ Hr) _ Hfirst) as HE.
  set (E := Block_Encrypt blk (take 16 P)) in *.
  assert (Block_Decrypt blk E = take 16 P) as HDE
    by (apply (Block_Decrypt_Encrypt _ (ready_Block _ _ _ Hr)); assumption).
  assert (take 16 (E ++ drop 16 P) = E) as Htake by (apply take_app_length'; lia).
  assert (16 <= len P) as HP' by assumption. unfold len in HP'.
  rewrite (Decrypt_data h blk a _ b0 Hr).
  - rewrite Htake, HDE.
    rewrite (drop_app_length' E) by lia. rewrite take_drop. reflexivity.
  - unfold len. rewrite length_app. lia.
  - rewrite Htake, HDE.
    rewrite lookup_take_lt by lia. assumption.
  - assumption.
Qed.

Lemma choosePadding_zero (rnd : Entropy) (headroom : Z) :
  headroom <= 0 -> choosePadding rnd headroom = Ret 0.
Proof.
  intros H. unfold choosePadding. destruct (Z.ltb_spec 0 headroom); [lia|reflexivity].
Qed.

Lemma choosePadding_pos (rnd : Entropy) (headroom : Z) :
  EntropyLaws rnd -> 0 < headroom <= max_int ->
  exists pad, choosePadding rnd headroom = Ret pad /\ 1 <= pad <= headroom.
Proof.
  intros HR H. unfold choosePadding, Intn.
  destruct (Z.ltb_spec 0 headroom); [|lia].
  destruct (Z.leb_spec headroom 0); [lia|]. simpl.
  pose proof (rand_Intn_range headroom ltac:(lia)) as Hn.
  rewrite wrap_int_id by (unfold min_int, max_int in *; lia).
  eexists. split; [reflexivity|lia].
Qed.

(** The headroom of a packet under a handler built with a sensible size. *)
Lemma paddingHeadroom_exact (psk : list byte) (mps : Z) (h : ZeroOverheadHandler) (P : list byte) :
  NewZeroOverheadHandler psk mps true = Ret h ->
  0 <= mps <= max_int -> len P <= maxAlloc ->
  maxControlPacketSize h = mps - 2 - 16 - 24 /\
  wrap_int (maxControlPacketSize h - len P) = maxControlPacketSize h - len P.
Proof.
  intros Hnew Hmps HP.
  destruct (NewZeroOverheadHandler_ready psk mps h Hnew) as (_ & _ & Hmax & _).
  pose proof (len_nonneg P).
  unfold max_int, maxAlloc in *.
  rewrite (wrap_int_id (mps - 2)) in Hmax by (unfold min_int, max_int; lia).
  rewrite (wrap_int_id (mps - 2 - 16)) in Hmax by (unfold min_int, max_int; lia).
  rewrite (wrap_int_id (mps - 2 - 16 - 24)) in Hmax by (unfold min_int, max_int; lia).
  split; [exact Hmax|].
  apply wrap_int_id. unfold min_int, max_int. lia.
Qed.

(** [Encrypt] returns for a control packet that fits. *)
Lemma Encrypt_control_succeeds (h : ZeroOverheadHandler) blk a rnd (P : list byte)
    (b0 : byte) (pad : Z) :
  ready h blk a -> 16 <= len P -> P !! 0%nat = Some b0 ->
  isControlPacket b0 = true ->
  0 <= wrap_int (maxControlPacketSize h - len P) -> len P - 16 <= 65535 ->
  choosePadding rnd (wrap_int (maxControlPacketSize h - len P)) = Ret pad ->
  len P - 16 + Z.max 0 pad + 2 <= chacha20poly1305_maxPlaintext ->
  exists c, Encrypt h rnd P = Ret c.
Proof.
  intros Hr HP Hb0 Hk Hhead Hrem Hpad Hsz.
  rewrite (Encrypt_control h blk a rnd P b0) by assumption. cbv zeta.
  destruct (Z.ltb_spec (wrap_int (maxControlPacketSize h - len P)) 0); [lia|].
  destruct (Z.gtb_spec (len P - 16) 65535); [lia|]. simpl.
  rewrite Hpad. simpl.
  set (body := drop 16 P ++ _).
  assert (len body = len P - 16 + Z.max 0 pad + 2) as Hbody.
  { assert (len (drop 16 P) = len P - 16) as Hrest by (apply (len_drop P 16); lia).
    subst body. rewrite !len_app, Hrest, cryptorand_Read_len.
    unfold len. simpl. lia. }
  destruct (Seal_cases a (Block_Encrypt blk (take 16 P))
              (cryptorand_Read (rand_nonce rnd) 24) body) as [[_ ->]|[Hbig _]];
    [apply cryptorand_Read_len| |lia].
  simpl. eauto.
Qed.

(** The length of what [Encrypt] makes of a control packet. *)
Lemma Encrypt_control_len (h : ZeroOverheadHandler) blk a rnd (P c : list byte) (b0 : byte) :
  ready h blk a -> 16 <= len P -> P !! 0%nat = Some b0 ->
  isControlPacket b0 = true ->
  Encrypt h rnd P = Ret c ->
  exists pad,
    choosePadding rnd (wrap_int (maxControlPacketSize h - len P)) = Ret pad /\
    len c = len P + Z.max 0 pad + 2 + 16 + 24.
Proof.
  intros Hr HP Hb0 Hk Henc.
  destruct (Encrypt_control_Ret h blk a rnd P c b0 Hr HP Hb0 Hk Henc)
    as (_ & _ & pad & Hpad & _ & ->).
  exists pad. split; [exact Hpad|].
  pose proof (Block_Encrypt_length _ (ready_Block _ _ _ Hr) _ (take_16_length P HP)) as HE.
  pose proof (cryptorand_Read_len (rand_nonce rnd) 24) as Hn.
  pose proof (cryptorand_Read_len (rand_padding rnd) pad) as Hp.
  assert (length (cryptorand_Read (rand_nonce rnd) 24) = 24%nat) as Hn'
    by (unfold len in Hn; lia).
  rewrite !len_app.
  unfold len at 2. rewrite (AEAD_Seal_length _ (ready_AEAD _ _ _ Hr)) by assumption.
  rewrite !length_app, length_drop. simpl length.
  unfold len in *. lia.
Qed.

End ObfuscationFacts.

(** ** The sample cipher suite obeys the laws *)

Section SampleLaws.
Import Obfuscation Sample.

Lemma xor8_involutive a b : xor8 a (xor8 a b) = b.
Proof.
  destruct a as (a0 & a1 & a2 & a3 & a4 & a5 & a6 & a7).
  destruct b as (b0 & b1 & b2 & b3 & b4 & b5 & b6 & b7).
  simpl. rewrite <- !xorb_assoc, !xorb_nilpotent, !xorb_false_l. reflexivity.
Qed.

Lemma byte_xor_involutive (k b : byte) : byte_xor k (byte_xor k b) = b.
Proof.
  unfold byte_xor. rewrite Byte.to_bits_of_bits, xor8_involutive.
  apply Byte.of_bits_to_bits.
Qed.

Lemma byte_xor_fmap_involutive (k : byte) (l : list byte) :
  byte_xor k <$> (byte_xor k <$> l) = l.
Proof.
  induction l as [|b l IH]; simpl; [reflexivity|].
  rewrite byte_xor_involutive. f_equal. exact IH.
Qed.

Lemma bytes_eqb_refl (l : list byte) : bytes_eqb l l = true.
Proof.
  induction l as [|b l IH]; simpl; [reflexivity|].
  rewrite (Byte.byte_dec_lb (x := b) (y := b) eq_refl). exact IH.
Qed.

Lemma xorBlock_laws (k : list byte) : BlockLaws (xorBlock k).
Proof.
  split; simpl; intros b Hb.
  - rewrite length_fmap. exact Hb.
  - rewrite length_fmap. exact Hb.
  - apply byte_xor_fmap_involutive.
Qed.

Lemma tagAEAD_laws (k : list byte) : AEADLaws (tagAEAD k).
Proof.
  split; simpl; intros n p Hn.
  - rewrite length_app, length_fmap, length_take. lia.
  - set (X := byte_xor (hd Byte.x00 k) <$> p).
    assert (length (take 16 n) = 16%nat) as HT by (rewrite length_take; lia).
    assert (length (X ++ take 16 n) - 16 = length X)%nat as ->
      by (rewrite length_app; lia).
    destruct (Nat.ltb_spec (length (X ++ take 16 n)) 16) as [Hlt|_];
      [rewrite length_app in Hlt; lia|].
    rewrite drop_app_length, take_app_length, bytes_eqb_refl.
    subst X. rewrite byte_xor_fmap_involutive. reflexivity.
Qed.

Lemma crypto_laws : CryptoLaws crypto.
Proof.
  split; intros k Hk; simpl.
  - assert (len k = 32) as -> by (unfold len; lia). simpl.
    eexists. split; [reflexivity|apply xorBlock_laws].
  - assert (len k = 32) as -> by (unfold len; lia). simpl.
    eexists. split; [reflexivity|apply tagAEAD_laws].
Qed.

Lemma entropy_laws : EntropyLaws entropy.
Proof. intros n Hn. simpl. lia. Qed.

Lemma handler_built (mps : Z) :
  0 <= mps <= max_int -> NewZeroOverheadHandler psk mps true = Ret (handler mps).
Proof.
  intros H. unfold NewZeroOverheadHandler, handler. simpl.
  unfold chacha20poly1305_Overhead, chacha20poly1305_NonceSizeX.
  unfold max_int in H.
  rewrite (wrap_int_id (mps - 2)) by (unfold min_int, max_int; lia).
  rewrite (wrap_int_id (mps - 2 - 16)) by (unfold min_int, max_int; lia).
  rewrite (wrap_int_id (mps - 2 - 16 - 24)) by (unfold min_int, max_int; lia).
  do 2 f_equal. lia.
Qed.

End SampleLaws.

(** ** Package obfuscation: the properties *)

Section ObfuscationProperties.
Import Obfuscation.
Context {C : Crypto} {HC : CryptoLaws C}.

(** C1.  With an enabled handler built from a 32-byte PSK and a packet [P] of
    at least 16 bytes, whatever [Encrypt] returns for [P] is taken back to [P]
    by [Decrypt]; for a data packet [Encrypt] does return. *)
Theorem Decrypt_Encrypt_roundtrip
    (psk : list byte) (mps : Z) (h : ZeroOverheadHandler) (rnd : Entropy) (P : list byte) :
  NewZeroOverheadHandler psk mps true = Ret h ->
  16 <= len P ->
  (forall c, Encrypt h rnd P = Ret c -> Decrypt h c = Ret P) /\
  (forall b0, P !! 0%nat = Some b0 -> ~ (1 <= byteZ b0 <= 6) ->
     exists c, Encrypt h rnd P = Ret c /\ Decrypt h c = Ret P).
Proof.
  intros Hnew HP.
  destruct (NewZeroOverheadHandler_ready psk mps h Hnew) as (_ & _ & _ & blk & a & Hr).
  assert (exists b0, P !! 0%nat = Some b0) as [b0 Hb0].
  { destruct (P !! 0%nat) eqn:E; [eauto|].
    apply lookup_ge_None in E. unfold len in HP. lia. }
  split.
  - intros c Henc. destruct (isControlPacket b0) eqn:Hk.
    + eapply Decrypt_Encrypt_control; eassumption.
    + destruct (Decrypt_Encrypt_data h blk a rnd P b0 Hr HP Hb0 Hk) as (c' & Henc' & Hdec).
      congruence.
  - intros b Hb Hdata. apply isControlPacket_false in Hdata.
    eapply Decrypt_Encrypt_data; eassumption.
Qed.

(** C2.  For a data packet [P] (first byte outside 1..6) of at least 16 bytes
    [Encrypt] returns a packet of the same length that agrees with [P] from
    byte 16 on. *)
Theorem Encrypt_data_zero_overhead
    (psk : list byte) (mps : Z) (en : bool) (h : ZeroOverheadHandler)
    (rnd : Entropy) (P : list byte) (b0 : byte) :
  NewZeroOverheadHandler psk mps en = Ret h ->
  16 <= len P ->
  P !! 0%nat = Some b0 -> ~ (1 <= byteZ b0 <= 6) ->
  exists c, Encrypt h rnd P = Ret c /\ len c = len P /\ drop 16 c = drop 16 P.
Proof.
  intros Hnew HP Hb0 Hdata. destruct en.
  - destruct (NewZeroOverheadHandler_ready psk mps h Hnew) as (_ & _ & _ & blk & a & Hr).
    apply isControlPacket_false in Hdata.
    eexists. split; [eapply Encrypt_data; eassumption|].
    pose proof (Block_Encrypt_length _ (ready_Block _ _ _ Hr) _ (take_16_length P HP)) as HE.
    split.
    + unfold len in *. rewrite length_app, length_drop. lia.
    + apply drop_app_length'. lia.
  - apply NewZeroOverheadHandler_disabled in Hnew.
    exists P. unfold Encrypt. rewrite Hnew. auto.
Qed.

(** C3, as amended.  For a control packet [P] of at least 16 bytes, under a
    handler built with a size the AEAD can take: [Encrypt] fails with "control
    packet is too large" when [len P] exceeds [maxControlPacketSize] or when
    more than 65535 bytes follow the first block; otherwise it returns, with no
    padding when [len P = maxControlPacketSize] and with 1 to headroom bytes
    of padding when the headroom is positive. *)
Theorem Encrypt_control_padding
    (psk : list byte) (mps : Z) (h : ZeroOverheadHandler) (rnd : Entropy)
    (P : list byte) (b0 : byte) :
  EntropyLaws rnd ->
  NewZeroOverheadHandler psk mps true = Ret h ->
  0 <= mps <= chacha20poly1305_maxPlaintext ->
  16 <= len P <= maxAlloc ->
  P !! 0%nat = Some b0 -> 1 <= byteZ b0 <= 6 ->
  let headroom := maxControlPacketSize h - len P in
  (headroom < 0 \/ 65535 < len P - 16 ->
     Encrypt h rnd P = Fail ErrControlPacketTooLarge) /\
  (len P - 16 <= 65535 -> headroom = 0 ->
     choosePadding rnd (wrap_int headroom) = Ret 0 /\
     exists c, Encrypt h rnd P = Ret c /\ len c = len P + 0 + 2 + 16 + 24) /\
  (len P - 16 <= 65535 -> 0 < headroom ->
     exists pad c, choosePadding rnd (wrap_int headroom) = Ret pad /\
       1 <= pad <= headroom /\
       Encrypt h rnd P = Ret c /\ len c = len P + pad + 2 + 16 + 24).
Proof.
  intros HR Hnew Hmps [HP HPmax] Hb0 Hctl headroom.
  assert (0 <= mps <= max_int) as Hint
    by (unfold chacha20poly1305_maxPlaintext, max_int in *; lia).
  destruct (NewZeroOverheadHandler_ready psk mps h Hnew) as (_ & _ & _ & blk & a & Hr).
  destruct (paddingHeadroom_exact psk mps h P Hnew Hint HPmax) as [Hmax Hwrap].
  apply isControlPacket_spec in Hctl.
  fold headroom in Hwrap. rewrite Hwrap.
  assert (headroom <= max_int) as Hhi
    by (subst headroom; pose proof (len_nonneg P); unfold max_int in *; lia).
  split; [|split].
  - intros Hbig. rewrite (Encrypt_control h blk a rnd P b0 Hr HP Hb0 Hctl). cbv zeta.
    fold headroom. rewrite Hwrap.
    destruct (Z.ltb_spec headroom 0); [reflexivity|].
    destruct (Z.gtb_spec (len P - 16) 65535); [reflexivity|lia].
  - intros Hrem H0.
    pose proof (choosePadding_zero rnd headroom ltac:(lia)) as Hpad.
    split; [exact Hpad|].
    destruct (Encrypt_control_succeeds h blk a rnd P b0 0 Hr HP Hb0 Hctl) as [c Henc];
      try (fold headroom; rewrite Hwrap); try assumption;
      try (unfold chacha20poly1305_maxPlaintext in *; lia).
    exists c. split; [exact Henc|].
    destruct (Encrypt_control_len h blk a rnd P c b0 Hr HP Hb0 Hctl Henc) as (pad' & Hpad' & ->).
    fold headroom in Hpad'. rewrite Hwrap, Hpad in Hpad'. injection Hpad' as <-. lia.
  - intros Hrem Hpos.
    destruct (choosePadding_pos rnd headroom HR ltac:(lia)) as (pad & Hpad & Hrange).
    destruct (Encrypt_control_succeeds h blk a rnd P b0 pad Hr HP Hb0 Hctl) as [c Henc];
      try (fold headroom; rewrite Hwrap); try assumption;
      try (subst headroom; unfold chacha20poly1305_maxPlaintext in *; lia).
    exists pad, c. split; [exact Hpad|]. split; [exact Hrange|]. split; [exact Henc|].
    destruct (Encrypt_control_len h blk a rnd P c b0 Hr HP Hb0 Hctl Henc) as (pad' & Hpad' & ->).
    fold headroom in Hpad'. rewrite Hwrap, Hpad in Hpad'. injection Hpad' as <-. lia.
Qed.

(** C4, as amended.  When [Encrypt] returns for a control packet [P] of at
    least 16 bytes, the result is longer than [P], at least 16 + 2 + 16 + 24
    bytes long, and at most [maxControlPacketSize + 2 + 16 + 24] bytes long.
    A control packet of fewer than 16 bytes is returned as it is. *)
Theorem Encrypt_control_length
    (psk : list byte) (mps : Z) (h : ZeroOverheadHandler) (rnd : Entropy)
    (P c : list byte) (b0 : byte) :
  EntropyLaws rnd ->
  NewZeroOverheadHandler psk mps true = Ret h ->
  0 <= mps <= max_int ->
  len P <= maxAlloc ->
  P !! 0%nat = Some b0 -> 1 <= byteZ b0 <= 6 ->
  Encrypt h rnd P = Ret c ->
  (len P < 16 -> c = P) /\
  (16 <= len P ->
   len P < len c /\
   16 + 2 + 16 + 24 <= len c /\
   len c <= maxControlPacketSize h + 2 + 16 + 24).
Proof.
  intros HR Hnew Hmps HPmax Hb0 Hctl Henc. split.
  - intros Hshort. unfold Encrypt in Henc.
    destruct (negb (enabled h)); [congruence|].
    destruct (Z.ltb_spec (len P) aes_BlockSize) as [_|Hge];
      [congruence | unfold aes_BlockSize in Hge; lia].
  - intros HP.
    destruct (NewZeroOverheadHandler_ready psk mps h Hnew) as (_ & _ & _ & blk & a & Hr).
    destruct (paddingHeadroom_exact psk mps h P Hnew Hmps HPmax) as [Hmax Hwrap].
    apply isControlPacket_spec in Hctl.
    destruct (Encrypt_control_Ret h blk a rnd P c b0 Hr HP Hb0 Hctl Henc) as (Hhead & _ & _).
    destruct (Encrypt_control_len h blk a rnd P c b0 Hr HP Hb0 Hctl Henc) as (pad & Hpad & ->).
    rewrite Hwrap in Hpad, Hhead.
    set (headroom := maxControlPacketSize h - len P) in *.
    destruct (Z.eq_dec headroom 0) as [H0|Hne].
    + rewrite (choosePadding_zero rnd headroom) in Hpad by lia.
      injection Hpad as <-. lia.
    + assert (headroom <= max_int) as Hhi
        by (subst headroom; pose proof (len_nonneg P); unfold max_int in *; lia).
      destruct (choosePadding_pos rnd headroom HR ltac:(lia)) as (pad' & Hpad' & Hrange).
      rewrite Hpad' in Hpad. injection Hpad as <-. lia.
Qed.

(** C5.  A packet whose first block deciphers to a control kind and that is
    shorter than 16 + 2 + 16 + 24 bytes is refused with "invalid control packet
    length".  An enciphered control packet that lost its last byte makes
    [Decrypt] return, never panic: it is refused with that error when it
    became too short, and with the error of [Open] when the AEAD rejects what
    is left.  More generally [Decrypt] returns for every packet whose
    ciphertext part the AEAD can take. *)
Theorem Decrypt_truncated_control
    (psk : list byte) (mps : Z) (h : ZeroOverheadHandler) :
  NewZeroOverheadHandler psk mps true = Ret h ->
  (forall blk packet b0,
     cb h = Some blk -> 16 <= len packet ->
     Block_Decrypt blk (take 16 packet) !! 0%nat = Some b0 -> 1 <= byteZ b0 <= 6 ->
     len packet < 16 + 2 + 16 + 24 ->
     Decrypt h packet = Fail ErrControlPacketLength) /\
  (forall a rnd P b0 c,
     aead h = Some a -> 16 <= len P ->
     P !! 0%nat = Some b0 -> 1 <= byteZ b0 <= 6 ->
     Encrypt h rnd P = Ret c ->
     let t := take (length c - 1) c in
     ((exists p, Decrypt h t = Ret p) \/ (exists e, Decrypt h t = Fail e)) /\
     (len t < 16 + 2 + 16 + 24 -> Decrypt h t = Fail ErrControlPacketLength) /\
     (16 + 2 + 16 + 24 <= len t ->
      AEAD_Open a (drop (Z.to_nat (len t - 24)) t)
                  (take (Z.to_nat (len t - 24 - 16)) (drop 16 t)) = None ->
      Decrypt h t = Fail ErrOpen)) /\
  (forall packet,
     len packet - 16 - 24 <= chacha20poly1305_maxCiphertext ->
     (exists p, Decrypt h packet = Ret p) \/ (exists e, Decrypt h packet = Fail e)).
Proof.
  intros Hnew.
  destruct (NewZeroOverheadHandler_ready psk mps h Hnew) as (_ & _ & _ & blk & a & Hr).
  split; [|split].
  - intros blk' packet b0 Hcb Hlen Hb0 Hctl Hshort.
    rewrite (ready_cb _ _ _ Hr) in Hcb. injection Hcb as <-.
    apply isControlPacket_spec in Hctl.
    rewrite (Decrypt_control h blk a packet b0 Hr Hlen Hb0 Hctl).
    destruct (Z.ltb_spec (len packet) 58); [reflexivity|lia].
  - intros a' rnd P b0 c Ha HP Hb0 Hctl Henc t.
    rewrite (ready_aead _ _ _ Hr) in Ha. injection Ha as <-.
    apply isControlPacket_spec in Hctl.
    destruct (Encrypt_control_Ret h blk a rnd P c b0 Hr HP Hb0 Hctl Henc)
      as (_ & _ & pad & Hpad & Hsz & Hc).
    destruct (Encrypt_control_len h blk a rnd P c b0 Hr HP Hb0 Hctl Henc) as (pad' & Hpad' & Hlenc).
    rewrite Hpad in Hpad'. injection Hpad' as <-.
    pose proof (take_16_length P HP) as Hfirst.
    pose proof (Block_Encrypt_length _ (ready_Block _ _ _ Hr) _ Hfirst) as HE.
    assert (len t = len c - 1) as Hlent
      by (subst t; unfold len in *; rewrite length_take; lia).
    assert (take 16 t = Block_Encrypt blk (take 16 P)) as Htake.
    { subst t. rewrite take_take.
      replace (16 `min` (length c - 1))%nat with 16%nat by (unfold len in *; lia).
      rewrite Hc. apply take_app_length'. lia. }
    assert (Block_Decrypt blk (take 16 t) !! 0%nat = Some b0) as Hd0.
    { rewrite Htake, (Block_Decrypt_Encrypt _ (ready_Block _ _ _ Hr)) by assumption.
      rewrite lookup_take_lt by lia. assumption. }
    split; [|split].
    + apply (Decrypt_returns h blk a t Hr).
      unfold chacha20poly1305_maxCiphertext, chacha20poly1305_maxPlaintext in *. lia.
    + intros Hlen. rewrite (Decrypt_control h blk a t b0 Hr ltac:(lia) Hd0 Hctl).
      change (16 + 2 + 16 + 24) with 58 in Hlen.
      destruct (Z.ltb_spec (len t) 58); [reflexivity|lia].
    + intros Hlen Hrej. rewrite (Decrypt_control h blk a t b0 Hr ltac:(lia) Hd0 Hctl).
      change (16 + 2 + 16 + 24) with 58 in Hlen.
      destruct (Z.ltb_spec (len t) 58); [lia|].
      assert (len (drop 16 t) = len t - 16) as Hrest by (apply (len_drop t 16); lia).
      rewrite Open_cases, Hrej; [reflexivity| |].
      * rewrite len_drop by lia. lia.
      * rewrite len_take by lia.
        unfold chacha20poly1305_maxCiphertext, chacha20poly1305_maxPlaintext in *. lia.
  - intros packet Hmax. eapply Decrypt_returns; eassumption.
Qed.

End ObfuscationProperties.

Section ObfuscationWitnesses.
Import Obfuscation Sample.

Lemma Decrypt_Encrypt_roundtrip_witness :
  let h := handler 1452 in
  let P := packet Byte.x03 128 in
  match Encrypt h entropy P with
  | Ret c => Decrypt h c = Ret P
  | _ => False
  end.
Proof.
  intros h P.
  destruct (Encrypt h entropy P) as [c| | |] eqn:Henc;
    try (vm_compute in Henc; discriminate Henc).
  refine (proj1 (Decrypt_Encrypt_roundtrip (HC := crypto_laws) psk 1452 h entropy P _ _) c Henc).
  - reflexivity.
  - vm_compute. discriminate.
Defined.

Lemma Encrypt_data_zero_overhead_witness :
  exists c, Encrypt (handler 1452) entropy (packet Byte.x00 128) = Ret c /\
    len c = len (packet Byte.x00 128) /\ drop 16 c = drop 16 (packet Byte.x00 128).
Proof.
  apply (Encrypt_data_zero_overhead (HC := crypto_laws) psk 1452 true _ _ _ Byte.x00).
  - reflexivity.
  - vm_compute. discriminate.
  - reflexivity.
  - vm_compute. intros [H _]. apply H. reflexivity.
Defined.

Lemma Encrypt_control_padding_witness :
  let h := handler 1452 in
  let P := packet Byte.x03 128 in
  let headroom := maxControlPacketSize h - len P in
  (headroom < 0 \/ 65535 < len P - 16 ->
     Encrypt h entropy P = Fail ErrControlPacketTooLarge) /\
  (len P - 16 <= 65535 -> headroom = 0 ->
     choosePadding entropy (wrap_int headroom) = Ret 0 /\
     exists c, Encrypt h entropy P = Ret c /\ len c = len P + 0 + 2 + 16 + 24) /\
  (len P - 16 <= 65535 -> 0 < headroom ->
     exists pad c, choosePadding entropy (wrap_int headroom) = Ret pad /\
       1 <= pad <= headroom /\
       Encrypt h entropy P = Ret c /\ len c = len P + pad + 2 + 16 + 24).
Proof.
  apply (Encrypt_control_padding (HC := crypto_laws) psk 1452 _ _ _ Byte.x03).
  - exact entropy_laws.
  - reflexivity.
  - vm_compute. split; discriminate.
  - vm_compute. split; discriminate.
  - reflexivity.
  - vm_compute. split; discriminate.
Defined.

(** C3 as stated fails: a control packet of exactly [maxControlPacketSize]
    bytes is refused when more than 65535 bytes follow its first block. *)
Lemma Encrypt_at_limit_counterexample :
  let h := handler 65594 in
  let P := Byte.x03 :: replicate (Z.to_nat 65551) Byte.x00 in
  NewZeroOverheadHandler psk 65594 true = Ret h /\
  16 <= len P /\
  P !! 0%nat = Some Byte.x03 /\
  len P = maxControlPacketSize h /\
  Encrypt h entropy P = Fail ErrControlPacketTooLarge.
Proof.
  cbv zeta. split; [reflexivity|].
  split; [vm_compute; discriminate|].
  split; [reflexivity|].
  split; vm_compute; reflexivity.
Qed.

Lemma Encrypt_control_length_witness :
  let h := handler 1452 in
  let P := packet Byte.x03 128 in
  match Encrypt h entropy P with
  | Ret c =>
    (len P < 16 -> c = P) /\
    (16 <= len P ->
     len P < len c /\
     16 + 2 + 16 + 24 <= len c /\
     len c <= maxControlPacketSize h + 2 + 16 + 24)
  | _ => False
  end.
Proof.
  intros h P.
  destruct (Encrypt h entropy P) as [c| | |] eqn:Henc;
    try (vm_compute in Henc; discriminate Henc).
  apply (Encrypt_control_length (HC := crypto_laws) psk 1452 h entropy P c Byte.x03).
  - exact entropy_laws.
  - reflexivity.
  - vm_compute. split; discriminate.
  - vm_compute. discriminate.
  - reflexivity.
  - vm_compute. split; discriminate.
  - exact Henc.
Defined.

(** A control packet of four bytes comes back as it is: shorter than one
    cipher block, it is neither enciphered nor padded. *)
Example Encrypt_control_short :
  let P := [Byte.x01; Byte.x02; Byte.x03; Byte.x04] in
  Encrypt (handler 1452) entropy P = Ret P.
Proof. reflexivity. Qed.

(** C4 as stated fails: a control packet of exactly [maxControlPacketSize]
    bytes becomes [maxControlPacketSize + 2 + 16 + 24] bytes, which is more
    than [maxControlPacketSize + 16 + 24]. *)
Lemma Encrypt_control_length_counterexample :
  let h := handler 100 in
  let P := packet Byte.x03 58 in
  NewZeroOverheadHandler psk 100 true = Ret h /\
  16 <= len P /\
  P !! 0%nat = Some Byte.x03 /\
  exists c, Encrypt h entropy P = Ret c /\
    len c = 100 /\ ~ (len c <= maxControlPacketSize h + 16 + 24).
Proof.
  cbv zeta. split; [reflexivity|].
  split; [vm_compute; discriminate|].
  split; [reflexivity|].
  eexists. split; [vm_compute; reflexivity|].
  split; [vm_compute; reflexivity|].
  vm_compute. intros H. apply H. reflexivity.
Qed.

Lemma Decrypt_truncated_control_witness :
  let h := handler 100 in
  (forall blk packet b0,
     cb h = Some blk -> 16 <= len packet ->
     Block_Decrypt blk (take 16 packet) !! 0%nat = Some b0 -> 1 <= byteZ b0 <= 6 ->
     len packet < 16 + 2 + 16 + 24 ->
     Decrypt h packet = Fail ErrControlPacketLength) /\
  (forall a rnd P b0 c,
     aead h = Some a -> 16 <= len P ->
     P !! 0%nat = Some b0 -> 1 <= byteZ b0 <= 6 ->
     Encrypt h rnd P = Ret c ->
     let t := take (length c - 1) c in
     ((exists p, Decrypt h t = Ret p) \/ (exists e, Decrypt h t = Fail e)) /\
     (len t < 16 + 2 + 16 + 24 -> Decrypt h t = Fail ErrControlPacketLength) /\
     (16 + 2 + 16 + 24 <= len t ->
      AEAD_Open a (drop (Z.to_nat (len t - 24)) t)
                  (take (Z.to_nat (len t - 24 - 16)) (drop 16 t)) = None ->
      Decrypt h t = Fail ErrOpen)) /\
  (forall packet,
     len packet - 16 - 24 <= chacha20poly1305_maxCiphertext ->
     (exists p, Decrypt h packet = Ret p) \/ (exists e, Decrypt h packet = Fail e)).
Proof.
  apply (Decrypt_truncated_control (HC := crypto_laws) psk 100).
  reflexivity.
Defined.

(** The two ways a truncated control packet is refused, on the sample suite:
    the packet of 58 bytes falls below the minimum, the longer one no longer
    authenticates. *)
Example Decrypt_truncated_short :
  (c ← Encrypt (handler 58) entropy (packet Byte.x03 16);
   Decrypt (handler 58) (take (length c - 1) c)) = Fail ErrControlPacketLength.
Proof. vm_compute. reflexivity. Qed.

Example Decrypt_truncated_long :
  (c ← Encrypt (handler 100) entropy (packet Byte.x03 20);
   Decrypt (handler 100) (take (length c - 1) c)) = Fail ErrOpen.
Proof. vm_compute. reflexivity. Qed.

End ObfuscationWitnesses.

(** ** Package faketcp: the packet parser *)

Section ParserFacts.
Import FakeTCP.

Lemma index_at {E} (l : list byte) (i : Z) (n : nat) :
  i = Z.of_nat n -> i < len l ->
  exists b, l !! n = Some b /\ index (E := E) l i = Ret b.
Proof.
  intros -> H. destruct (l !! n) as [b|] eqn:Hb.
  - exists b. split; [reflexivity|]. apply index_lookup. exact Hb.
  - apply lookup_ge_None in Hb. unfold len in H. lia.
Qed.

Lemma BigEndian_Uint16_Ret {E} (b : list byte) :
  len b = 2 -> exists v, BigEndian_Uint16 (E := E) b = Ret v.
Proof.
  intros H. destruct b as [|b0 [|b1 [|]]]; try (unfold len in H; simpl in H; lia).
  eexists. reflexivity.
Qed.

Lemma BigEndian_Uint32_Ret {E} (b : list byte) :
  len b = 4 -> exists v, BigEndian_Uint32 (E := E) b = Ret v.
Proof.
  intros H.
  destruct b as [|b0 [|b1 [|b2 [|b3 [|]]]]]; try (unfold len in H; simpl in H; lia).
  eexists. reflexivity.
Qed.

Lemma slice_Uint16 {E} (l : list byte) (lo hi : Z) :
  0 <= lo -> hi = lo + 2 -> hi <= len l ->
  exists v, slice (E := E) l lo hi ≫= BigEndian_Uint16 = Ret v.
Proof.
  intros H1 -> H2. rewrite slice_Ret by lia. simpl.
  apply BigEndian_Uint16_Ret.
  replace (lo + 2 - lo) with 2 by lia.
  rewrite len_take; [reflexivity|]. rewrite len_drop; lia.
Qed.

Lemma slice_Uint32 {E} (l : list byte) (lo hi : Z) :
  0 <= lo -> hi = lo + 4 -> hi <= len l ->
  exists v, slice (E := E) l lo hi ≫= BigEndian_Uint32 = Ret v.
Proof.
  intros H1 -> H2. rewrite slice_Ret by lia. simpl.
  apply BigEndian_Uint32_Ret.
  replace (lo + 4 - lo) with 4 by lia.
  rewrite len_take; [reflexivity|]. rewrite len_drop; lia.
Qed.

(** The TCP part of [ParseTCPPacket], over a segment that holds a header. *)
Lemma parse_segment (tcpBuf srcIP dstIP : list byte) (isIPv6 : bool) :
  20 <= len tcpBuf ->
  exists b12 pkt,
    tcpBuf !! 12%nat = Some b12 /\
    (srcPort ← slice tcpBuf 0 2 ≫= BigEndian_Uint16;
     dstPort ← slice tcpBuf 2 4 ≫= BigEndian_Uint16;
     seq ← slice tcpBuf 4 8 ≫= BigEndian_Uint32;
     ack ← slice tcpBuf 8 12 ≫= BigEndian_Uint32;
     b12 ← index tcpBuf 12;
     let dataOffset := uint8 (Z.shiftr (byteZ b12) 4 * 4) in
     flags ← index tcpBuf 13;
     window ← slice tcpBuf 14 16 ≫= BigEndian_Uint16;
     payload ← (if dataOffset <? len tcpBuf then slice_from tcpBuf dataOffset
                else Ret []);
     Ret (Some {| SrcIP := srcIP; DstIP := dstIP; SrcPort := srcPort;
                  DstPort := dstPort; Seq := seq; Ack := ack;
                  Flags := byteZ flags; Window := window; Payload := payload;
                  IsIPv6 := isIPv6 |}))
    = Ret (E := Empty_set) (Some pkt) /\
    Payload pkt =
      (if Z.shiftr (byteZ b12) 4 * 4 <? len tcpBuf
       then drop (Z.to_nat (Z.shiftr (byteZ b12) 4 * 4)) tcpBuf else []).
Proof.
  intros Hlen.
  destruct (slice_Uint16 (E := Empty_set) tcpBuf 0 2) as [srcPort ->]; [lia..|].
  destruct (slice_Uint16 (E := Empty_set) tcpBuf 2 4) as [dstPort ->]; [lia..|].
  destruct (slice_Uint32 (E := Empty_set) tcpBuf 4 8) as [sq ->]; [lia..|].
  destruct (slice_Uint32 (E := Empty_set) tcpBuf 8 12) as [ak ->]; [lia..|].
  destruct (index_at (E := Empty_set) tcpBuf 12 12%nat eq_refl) as (b12 & Hb12 & ->); [lia|].
  destruct (index_at (E := Empty_set) tcpBuf 13 13%nat eq_refl) as (b13 & _ & ->); [lia|].
  destruct (slice_Uint16 (E := Empty_set) tcpBuf 14 16) as [window ->]; [lia..|].
  simpl.
  assert (uint8 (Z.shiftr (byteZ b12) 4 * 4) = Z.shiftr (byteZ b12) 4 * 4) as ->.
  { unfold uint8. apply Z.mod_small. pose proof (byteZ_range b12).
    rewrite Z.shiftr_div_pow2 by lia. change (2 ^ 4) with 16. change (2 ^ 8) with 256.
    assert (0 <= byteZ b12 / 16 < 16)
      by (split; [apply Z.div_pos; lia | apply Z.div_lt_upper_bound; lia]).
    lia. }
  assert (0 <= Z.shiftr (byteZ b12) 4 * 4) as Hoff.
  { pose proof (byteZ_range b12). rewrite Z.shiftr_div_pow2 by lia.
    assert (0 <= byteZ b12 / 2 ^ 4) by (apply Z.div_pos; lia). lia. }
  exists b12. destruct (Z.ltb_spec (Z.shiftr (byteZ b12) 4 * 4) (len tcpBuf)).
  - rewrite slice_from_Ret by lia. simpl. eexists.
    split; [exact Hb12|]. split; reflexivity.
  - simpl. eexists. split; [exact Hb12|]. split; reflexivity.
Qed.

Lemma ParseTCPPacket_cases (buf : list byte) :
  (not_tcp_packet buf /\ ParseTCPPacket buf = Ret None) \/
  (~ not_tcp_packet buf /\
   exists pkt, ParseTCPPacket buf = Ret (Some pkt) /\
     Payload pkt =
       (if tcpDataOffset buf <? len (tcpSegment buf)
        then drop (Z.to_nat (tcpDataOffset buf)) (tcpSegment buf) else [])).
Proof.
  unfold ParseTCPPacket, not_tcp_packet, IPv4HeaderLen, TCPHeaderLen.
  destruct (Z.ltb_spec (len buf) 20) as [Hshort|Hlen]; [left; split; [left; lia|reflexivity]|].
  destruct (index_at (E := Empty_set) buf 0 0%nat eq_refl) as (b0 & Hb0 & ->); [lia|]. simpl.
  assert (ipVersion buf = Z.shiftr (byteZ b0) 4) as Hv by (unfold ipVersion; rewrite Hb0; reflexivity).
  unfold tcpDataOffset, tcpSegment, ipProtocol. rewrite Hv.
  set (v := Z.shiftr (byteZ b0) 4) in *.
  unfold parseIPHeader, ipHeaderLen, IPv4HeaderLen, IPv6HeaderLen.
  destruct (Z.eqb_spec v 4) as [Hv4|Hv4].
  - destruct (Z.ltb_spec (len buf) 20); [lia|].
    rewrite !slice_Ret by lia. simpl.
    destruct (index_at (E := Empty_set) buf 9 9%nat eq_refl) as (b9 & Hb9 & ->); [lia|]. simpl.
    rewrite Hb9.
    destruct (Z.eqb_spec (byteZ b9) 6) as [Hp|Hp]; simpl;
      [|left; split; [tauto|reflexivity]].
    destruct (Z.ltb_spec (len buf) (20 + 20)) as [Ht|Ht];
      [left; split; [tauto|reflexivity]|].
    rewrite slice_from_Ret by lia. simpl.
    destruct (parse_segment (drop (Z.to_nat 20) buf) (take 4 (drop 12 buf))
                (take 4 (drop 16 buf)) false) as (b12 & pkt & Hb12 & Hparse & Hpay).
    { rewrite len_drop; lia. }
    right. split; [lia|]. exists pkt. split; [exact Hparse|].
    rewrite Hb12. exact Hpay.
  - destruct (Z.eqb_spec v 6) as [Hv6|Hv6]; [|left; split; [tauto|reflexivity]].
    destruct (Z.ltb_spec (len buf) 40) as [H40|H40]; [left; split; [tauto|reflexivity]|].
    rewrite !slice_Ret by lia. simpl.
    destruct (index_at (E := Empty_set) buf 6 6%nat eq_refl) as (b6 & Hb6 & ->); [lia|]. simpl.
    rewrite Hb6.
    destruct (Z.eqb_spec (byteZ b6) 6) as [Hp|Hp]; simpl;
      [|left; split; [tauto|reflexivity]].
    destruct (Z.ltb_spec (len buf) (40 + 20)) as [Ht|Ht];
      [left; split; [tauto|reflexivity]|].
    rewrite slice_from_Ret by lia. simpl.
    destruct (parse_segment (drop (Z.to_nat 40) buf) (take 16 (drop 8 buf))
                (take 16 (drop 24 buf)) true) as (b12 & pkt & Hb12 & Hparse & Hpay).
    { rewrite len_drop; lia. }
    right. split; [lia|]. exists pkt. split; [exact Hparse|].
    rewrite Hb12. exact Hpay.
Qed.

Lemma ParseTCPPacket_returns (buf : list byte) :
  exists r, ParseTCPPacket buf = Ret r.
Proof.
  destruct (ParseTCPPacket_cases buf) as [[_ ->]|(_ & pkt & -> & _)]; eauto.
Qed.

End ParserFacts.

(** ** Package faketcp: sockets *)

Section SocketFacts.
Import FakeTCP.

(** One iteration of the loop of [Connect] in which no SYN|ACK comes in and
    the socket is not closed: a SYN is written, the caller waits, and the loop
    goes on with the socket as it was. *)
Lemma Connect_loop_step (env : nat -> Attempt) (i : nat) (s : Socket) (w : World) :
  no_SynAck (env i) -> not_closed (env i) -> timely (env i) ->
  exists x d,
    seg_flags x.1 = SYN /\ seg_payload x.1 = [] /\
    0 <= d <= ConnTimeout /\
    (woke (env i) = TimeAfter -> d = ConnTimeout) /\
    forall n, Connect_loop env (S n) i s w =
              Connect_loop env n (S i) s
                {| writes := writes w ++ [x]; waits := waits w ++ [d] |}.
Proof.
  intros Hsyn Hopen Htime.
  assert (0 <= ConnTimeout <= ConnTimeout) as HT by (unfold ConnTimeout; lia).
  exists ({| seg_local := localAddr s; seg_remote := remoteAddr s; seg_seq := seq s;
             seg_ack := ack s; seg_flags := SYN; seg_payload := [] |},
          syn_write_ok (env i)).
  destruct (syn_write_ok (env i)) eqn:Hok.
  - destruct (woke (env i)) as [data| |] eqn:Hw.
    + exists (wait (env i)).
      split; [reflexivity|]. split; [reflexivity|]. split; [exact Htime|].
      split; [discriminate|].
      intros n. simpl. rewrite Hok, Hw. simpl.
      specialize (Hsyn data Hw). unfold is_SynAck in Hsyn.
      destruct (ParseTCPPacket_returns data) as [[pkt|] Hp]; rewrite Hp in *.
      * rewrite Hsyn. reflexivity.
      * reflexivity.
    + exists ConnTimeout.
      split; [reflexivity|]. split; [reflexivity|]. split; [exact HT|].
      split; [reflexivity|].
      intros n. simpl. rewrite Hok, Hw. reflexivity.
    + contradiction.
  - exists ConnTimeout.
    split; [reflexivity|]. split; [reflexivity|]. split; [exact HT|].
    split; [reflexivity|].
    intros n. simpl. rewrite Hok. reflexivity.
Qed.

Lemma Connect_loop_timeout (env : nat -> Attempt) (n i : nat) (s : Socket) (w : World) :
  (forall j, (i <= j < i + n)%nat ->
     no_SynAck (env j) /\ not_closed (env j) /\ timely (env j)) ->
  exists ws ds,
    Connect_loop env n i s w =
      (Fail (ErrConnectTimeout RetryCount), set_state StateClosed s,
       {| writes := writes w ++ ws; waits := waits w ++ ds |}) /\
    length ws = n /\
    Forall (fun x => seg_flags x.1 = SYN /\ seg_payload x.1 = []) ws /\
    length ds = n /\
    Forall (fun d => 0 <= d <= ConnTimeout) ds /\
    ((forall j, (i <= j < i + n)%nat -> woke (env j) = TimeAfter) ->
     ds = replicate n ConnTimeout).
Proof.
  revert i s w. induction n as [|n IH]; intros i s w Henv.
  - exists [], []. simpl. rewrite !app_nil_r. destruct w. repeat split; constructor.
  - destruct (Henv i ltac:(lia)) as (Hsyn & Hopen & Htime).
    destruct (Connect_loop_step env i s w Hsyn Hopen Htime)
      as (x & d & Hx & Hpay & Hd & Hexact & Hstep).
    rewrite Hstep.
    destruct (IH (S i) s {| writes := writes w ++ [x]; waits := waits w ++ [d] |})
      as (ws & ds & Hrun & Hws & Hsyns & Hds & Hbound & Hall).
    { intros j Hj. apply Henv. lia. }
    exists (x :: ws), (d :: ds). simpl in Hrun. rewrite <- !app_assoc in Hrun. simpl in Hrun.
    split; [exact Hrun|]. simpl.
    repeat split; try (f_equal; assumption); try (constructor; auto).
    intros Hquiet. f_equal.
    + apply Hexact, Hquiet. lia.
    + apply Hall. intros j Hj. apply Hquiet. lia.
Qed.

Lemma Send_refused (s : Socket) (data : list byte) (ok : bool) (w : World) :
  state s <> StateEstablished \/ closed s = true ->
  exists e, Socket_Send s data ok w = (Fail e, s, w).
Proof.
  intros H. unfold Socket_Send. case_bool_decide as Hst; simpl.
  - destruct H as [H|H]; [contradiction|]. rewrite H. eauto.
  - eauto.
Qed.

Lemma Send_cases (s : Socket) (data : list byte) (ok : bool) (w : World) :
  (exists e w', Socket_Send s data ok w = (Fail e, s, w')) \/
  (state s = StateEstablished /\ closed s = false /\
   exists w', Socket_Send s data ok w =
     (Ret (), set_seq (uint32 (seq s + uint32 (len data))) s, w')).
Proof.
  unfold Socket_Send. case_bool_decide as Hst; simpl; [|left; eauto].
  destruct (closed s) eqn:Hc; [left; eauto|].
  unfold sendPacket. destruct ok; simpl; [right; eauto|left; eauto].
Qed.

Lemma uint32_add (a b : Z) : uint32 (a + uint32 b) = (a + b) mod 2 ^ 32.
Proof. unfold uint32. apply Zplus_mod_idemp_r. Qed.

Lemma Send_all_seq (calls : list (list byte * bool)) (s : Socket) (w : World) :
  let '(s', _, n) := Socket_Send_all calls s w in
  0 <= n /\ seq s' mod 2 ^ 32 = (seq s + n) mod 2 ^ 32.
Proof.
  revert s w. induction calls as [|[data ok] calls IH]; intros s w.
  - simpl. rewrite Z.add_0_r. split; [lia|reflexivity].
  - simpl. destruct (Send_cases s data ok w) as [(e & w' & ->)|(Hst & _ & w' & ->)].
    + apply IH.
    + specialize (IH (set_seq (uint32 (seq s + uint32 (len data))) s) w').
      destruct (Socket_Send_all calls _ w') as [[s' w''] n].
      destruct IH as (Hn & Hseq). simpl in Hseq.
      pose proof (len_nonneg data). split; [lia|].
      rewrite Hseq, uint32_add. rewrite Zplus_mod_idemp_l. f_equal. lia.
Qed.

Lemma Send_established (s : Socket) (data : list byte) (ok : bool) (w : World) :
  state s = StateEstablished -> closed s = false ->
  Socket_Send s data ok w =
    (if ok then Ret () else Fail (ErrSendData ErrWrite),
     if ok then set_seq ((seq s + len data) mod 2 ^ 32) s else s,
     {| writes := writes w ++
          [({| seg_local := localAddr s; seg_remote := remoteAddr s;
               seg_seq := seq s; seg_ack := ack s; seg_flags := ACK;
               seg_payload := data |}, ok)];
        waits := waits w |}).
Proof.
  intros Hst Hc. unfold Socket_Send. rewrite Hc.
  case_bool_decide; [|contradiction]. simpl.
  destruct ok; simpl; [rewrite uint32_add|]; reflexivity.
Qed.

Lemma Send_all_written (calls : list (list byte * bool)) (s : Socket) (w : World) :
  state s = StateEstablished -> closed s = false ->
  let '(s', _, n) := Socket_Send_all calls s w in
  n = written calls /\ state s' = StateEstablished /\ closed s' = false.
Proof.
  revert s w. induction calls as [|[data ok] calls IH]; intros s w Hst Hc.
  - simpl. auto.
  - simpl. rewrite (Send_established s data ok w Hst Hc). destruct ok.
    + specialize (IH (set_seq ((seq s + len data) mod 2 ^ 32) s)
                     {| writes := writes w ++
                          [({| seg_local := localAddr s; seg_remote := remoteAddr s;
                               seg_seq := seq s; seg_ack := ack s; seg_flags := ACK;
                               seg_payload := data |}, true)];
                        waits := waits w |} Hst Hc).
      destruct (Socket_Send_all calls _ _) as [[s' w'] n].
      destruct IH as (-> & IH). split; [reflexivity|exact IH].
    + apply IH; assumption.
Qed.

End SocketFacts.

(** ** Package faketcp: the stack *)

Section StackFacts.
Import FakeTCP.
Variable addr_string : UDPAddr -> string.

Lemma unregisterSocket_Ret (st : Stack) (l r : UDPAddr) :
  mu st = false ->
  unregisterSocket addr_string st l r =
    Ret (Unlock (set_sockets (delete (newAddrTuple addr_string l r) (sockets st))
                   (set_mu true st))).
Proof. intros H. unfold unregisterSocket, Lock. rewrite H. reflexivity. Qed.

Lemma unregisterSocket_stopChan (st st' : Stack) (l r : UDPAddr) :
  unregisterSocket addr_string st l r = Ret st' -> stopChan st' = stopChan st.
Proof.
  unfold unregisterSocket, Lock. destruct (mu st); simpl; [discriminate|].
  intros [= <-]. reflexivity.
Qed.

Lemma Socket_Close_stopChan (s s' : Socket) (st st' : Stack) (r : go error unit) :
  Socket_Close addr_string s st = (r, s', st') -> stopChan st' = stopChan st.
Proof.
  unfold Socket_Close. destruct (closed s); [intros [= _ _ <-]; reflexivity|].
  simpl. destruct (stack s); [|intros [= _ _ <-]; reflexivity].
  destruct (unregisterSocket addr_string st _ _) as [st1| | |] eqn:Hu;
    intros [= _ _ <-]; try reflexivity.
  eapply unregisterSocket_stopChan; eassumption.
Qed.

Lemma Socket_Close_closed (s : Socket) (st : Stack) :
  closed (Socket_Close addr_string s st).1.2 = true.
Proof.
  unfold Socket_Close. destruct (closed s) eqn:Hc; [exact Hc|].
  simpl. destruct (stack s); [|reflexivity].
  destruct (unregisterSocket addr_string st _ _); reflexivity.
Qed.

Lemma closeSockets_stopChan (entries : list (string * string * Socket))
    (st st' : Stack) (r : go error unit) :
  closeSockets addr_string entries st = (r, st') -> stopChan st' = stopChan st.
Proof.
  revert st. induction entries as [|[tuple sock] rest IH]; intros st; simpl.
  - intros [= _ <-]. reflexivity.
  - destruct (Socket_Close addr_string sock st) as [[o sock'] st1] eqn:Hc.
    apply Socket_Close_stopChan in Hc.
    destruct o; try (intros [= _ <-]; exact Hc).
    intros Hrest. apply IH in Hrest. rewrite Hrest.
    case_bool_decide; simpl; exact Hc.
Qed.

Lemma Stack_Close_stopChan (st st1 : Stack) :
  Stack_Close addr_string st = (Ret (), st1) -> stopChan st = false /\ stopChan st1 = true.
Proof.
  unfold Stack_Close. destruct (stopChan st) eqn:Hs; [discriminate|].
  intros Hclose. split; [reflexivity|].
  unfold Lock in Hclose. simpl in Hclose. destruct (mu st); [discriminate|].
  destruct (closeSockets addr_string _ _) as [o st2] eqn:Hc.
  apply closeSockets_stopChan in Hc. simpl in Hc.
  destruct o; try discriminate. injection Hclose as <-. simpl. exact Hc.
Qed.

End StackFacts.

(** ** Package faketcp: the properties *)

Section FakeTCPProperties.
Import FakeTCP.

(** C9.  [ParseTCPPacket] returns for every buffer: nil when the buffer is
    shorter than an IPv4 header, has an IP version other than 4 and 6, is
    shorter than the header of its version, carries a protocol other than 6 or
    is shorter than the IP header followed by 20 bytes; a packet otherwise.
    When the data offset reaches the end of the segment the payload is empty. *)
Theorem ParseTCPPacket_total (buf : list byte) :
  (not_tcp_packet buf /\ ParseTCPPacket buf = Ret None) \/
  (~ not_tcp_packet buf /\
   exists pkt, ParseTCPPacket buf = Ret (Some pkt) /\
     (len (tcpSegment buf) <= tcpDataOffset buf -> Payload pkt = []) /\
     (tcpDataOffset buf < len (tcpSegment buf) ->
      Payload pkt = drop (Z.to_nat (tcpDataOffset buf)) (tcpSegment buf))).
Proof.
  destruct (ParseTCPPacket_cases buf) as [H|(Hok & pkt & Hp & Hpay)]; [left; exact H|].
  right. split; [exact Hok|]. exists pkt. split; [exact Hp|].
  destruct (Z.ltb_spec (tcpDataOffset buf) (len (tcpSegment buf))); split; intros; (lia || assumption).
Qed.

(** C6, as amended.  On an idle socket, when during the six attempts no
    SYN|ACK comes in and nobody closes the socket, [Connect] writes exactly
    [RetryCount] SYN packets, waits after each of them for at most
    [ConnTimeout] (for exactly [ConnTimeout] when nothing comes in at all),
    leaves the socket in [StateClosed] and returns the timeout error. *)
Theorem Connect_timeout (env : nat -> Attempt) (s : Socket) (w : World) :
  state s = StateIdle ->
  (forall i, (i < Z.to_nat RetryCount)%nat ->
     no_SynAck (env i) /\ not_closed (env i) /\ timely (env i)) ->
  exists s' ws ds,
    Socket_Connect env s w =
      (Fail (ErrConnectTimeout RetryCount), s',
       {| writes := writes w ++ ws; waits := waits w ++ ds |}) /\
    state s' = StateClosed /\
    length ws = Z.to_nat RetryCount /\
    Forall (fun x => seg_flags x.1 = SYN /\ seg_payload x.1 = []) ws /\
    length ds = Z.to_nat RetryCount /\
    Forall (fun d => 0 <= d <= ConnTimeout) ds /\
    ((forall i, (i < Z.to_nat RetryCount)%nat -> woke (env i) = TimeAfter) ->
     ds = replicate (Z.to_nat RetryCount) ConnTimeout).
Proof.
  intros Hidle Henv. unfold Socket_Connect.
  rewrite bool_decide_eq_true_2 by exact Hidle. simpl negb. cbv iota.
  destruct (Connect_loop_timeout env (Z.to_nat RetryCount) 0 (set_state StateSynSent s) w)
    as (ws & ds & Hrun & Hws & Hsyn & Hds & Hbound & Hall).
  { intros j Hj. apply Henv. lia. }
  exists (set_state StateClosed (set_state StateSynSent s)), ws, ds.
  repeat split; try assumption.
  intros Hquiet. apply Hall. intros j Hj. apply Hquiet. lia.
Qed.

(** C7.  [Send] returns an error, and leaves the socket as it is, whenever
    the state is not [StateEstablished] or the socket has been closed, so
    after every [Close].  On an open socket in [StateEstablished] a [Send]
    whose write succeeds returns nil, has written one ACK segment that
    carries the data and the old [seq], and has moved [seq] forward by
    [len data] modulo 2^32; one whose write fails returns the error of the
    write, wrapped, and leaves the socket as it is.  A [Send] that returns nil
    was made in [StateEstablished] and moves [seq] forward by [len data] modulo
    2^32; a [Send] that returns an error leaves [seq] where it was.  Over any
    run of [Send] calls [seq] moves forward by the number of bytes accepted,
    modulo 2^32, which on an open socket in [StateEstablished] is the number
    of bytes of the calls whose write succeeds. *)
Theorem Send_advances_seq (s : Socket) (data : list byte) (ok : bool) (w : World) :
  (state s <> StateEstablished \/ closed s = true ->
     exists e, Socket_Send s data ok w = (Fail e, s, w)) /\
  (forall addr_string st,
     let s1 := (Socket_Close addr_string s st).1.2 in
     exists e, Socket_Send s1 data ok w = (Fail e, s1, w)) /\
  (state s = StateEstablished -> closed s = false ->
     let w' := {| writes := writes w ++
                    [({| seg_local := localAddr s; seg_remote := remoteAddr s;
                         seg_seq := seq s; seg_ack := ack s; seg_flags := ACK;
                         seg_payload := data |}, ok)];
                  waits := waits w |} in
     (ok = true ->
      Socket_Send s data ok w = (Ret (), set_seq ((seq s + len data) mod 2 ^ 32) s, w')) /\
     (ok = false ->
      Socket_Send s data ok w = (Fail (ErrSendData ErrWrite), s, w'))) /\
  (forall s' w', Socket_Send s data ok w = (Ret (), s', w') ->
     state s = StateEstablished /\ state s' = StateEstablished /\
     seq s' = (seq s + len data) mod 2 ^ 32) /\
  (forall e s' w', Socket_Send s data ok w = (Fail e, s', w') -> seq s' = seq s) /\
  (forall calls,
     let '(s', _, n) := Socket_Send_all calls s w in
     0 <= n /\ seq s' mod 2 ^ 32 = (seq s + n) mod 2 ^ 32 /\
     (state s = StateEstablished -> closed s = false -> n = written calls)).
Proof.
  split; [apply Send_refused|].
  split; [intros f st s1; apply Send_refused; right; apply Socket_Close_closed|].
  split; [|split; [|split]].
  - intros Hst Hc w'. subst w'. rewrite (Send_established s data ok w Hst Hc).
    split; intros ->; reflexivity.
  - intros s' w' Hsend.
    destruct (Send_cases s data ok w) as [(e & w1 & H)|(Hst & _ & w1 & H)];
      rewrite H in Hsend; [discriminate|].
    injection Hsend as <- <-. simpl. repeat split; try assumption.
    apply uint32_add.
  - intros e s' w' Hsend.
    destruct (Send_cases s data ok w) as [(e1 & w1 & H)|(Hst & _ & w1 & H)];
      rewrite H in Hsend; [|discriminate].
    injection Hsend as _ <- _. reflexivity.
  - intros calls.
    pose proof (Send_all_seq calls s w) as Hseq.
    pose proof (Send_all_written calls s w) as Hwr.
    destruct (Socket_Send_all calls s w) as [[s' w'] n].
    destruct Hseq as [Hn Hseq]. split; [exact Hn|]. split; [exact Hseq|].
    intros Hst Hc. apply Hwr; assumption.
Qed.

(** C8 fails on the code.  Whenever a first [Stack.Close] returns, a second
    one panics: it closes the channel [stopChan] again. *)
Theorem Stack_Close_twice_panics (addr_string : UDPAddr -> string) (st st1 : Stack) :
  Stack_Close addr_string st = (Ret (), st1) ->
  Stack_Close addr_string st1 = (Panic CloseOfClosedChannel, st1).
Proof.
  intros H. apply Stack_Close_stopChan in H as [_ H].
  unfold Stack_Close. rewrite H. reflexivity.
Qed.


End FakeTCPProperties.

Section FakeTCPWitnesses.
Import FakeTCP Sample.

Lemma Connect_timeout_witness :
  exists s' ws ds,
    Socket_Connect silence idleSocket world0 =
      (Fail (ErrConnectTimeout RetryCount), s',
       {| writes := writes world0 ++ ws; waits := waits world0 ++ ds |}) /\
    state s' = StateClosed /\
    length ws = Z.to_nat RetryCount /\
    Forall (fun x => seg_flags x.1 = SYN /\ seg_payload x.1 = []) ws /\
    length ds = Z.to_nat RetryCount /\
    Forall (fun d => 0 <= d <= ConnTimeout) ds /\
    ((forall i, (i < Z.to_nat RetryCount)%nat -> woke (silence i) = TimeAfter) ->
     ds = replicate (Z.to_nat RetryCount) ConnTimeout).
Proof.
  apply (Connect_timeout silence idleSocket world0).
  - reflexivity.
  - intros i _. split; [|split].
    + intros data H. discriminate H.
    + intros H. discriminate H.
    + vm_compute. split; discriminate.
Defined.

(** C6 as stated fails: no SYN|ACK comes in, yet [Connect] returns after one
    SYN with "socket closed during connect", because the socket is closed
    while [Connect] waits. *)
Lemma Connect_closed_counterexample :
  state idleSocket = StateIdle /\
  (forall i, no_SynAck (closing i)) /\
  exists s' w',
    Socket_Connect closing idleSocket world0 = (Fail ErrClosedDuringConnect, s', w') /\
    length (writes w') = 1%nat /\
    ErrClosedDuringConnect <> ErrConnectTimeout RetryCount.
Proof.
  split; [reflexivity|].
  split; [intros i data H; discriminate H|].
  eexists _, _. split; [vm_compute; reflexivity|].
  split; [reflexivity|discriminate].
Qed.

Example ParseTCPPacket_synAck :
  (fun pkt => (SrcPort pkt, DstPort pkt, Seq pkt, Flags pkt, Payload pkt)) <$>
    (ParseTCPPacket synAck ≫= deref)
  = Ret (443, 3001, 7, Z.lor SYN ACK, []).
Proof. vm_compute. reflexivity. Qed.

Example ParseTCPPacket_offset_past_end :
  Payload <$> (ParseTCPPacket synAckOffset60 ≫= deref) = Ret []
  /\ tcpDataOffset synAckOffset60 = 60 /\ len (tcpSegment synAckOffset60) = 20.
Proof. vm_compute. repeat split. Qed.

Example ParseTCPPacket_short : ParseTCPPacket (take 39 synAck) = Ret None.
Proof. vm_compute. reflexivity. Qed.

(** The handshake does succeed when the SYN|ACK comes in. *)
Example Connect_established :
  let '(r, s, w) := Socket_Connect answering idleSocket world0 in
  r = Ret () /\ state s = StateEstablished /\ seq s = 1001 /\ ack s = 8 /\
  length (writes w) = 2%nat.
Proof. vm_compute. repeat split. Qed.

(** An established socket whose [seq] is six below 2^32 sends ten bytes: the
    call returns nil and [seq] has wrapped round to 4. *)
Lemma Send_advances_seq_witness :
  let data := replicate 10 Byte.x61 in
  state establishedSocket = StateEstablished /\
  closed establishedSocket = false /\
  seq establishedSocket = 4294967290 /\
  Socket_Send establishedSocket data true world0
  = (Ret (), set_seq 4 establishedSocket,
     {| writes := [({| seg_local := localAddr; seg_remote := remoteAddr;
                       seg_seq := 4294967290; seg_ack := 0; seg_flags := ACK;
                       seg_payload := data |}, true)];
        waits := [] |}).
Proof.
  intros data. split; [reflexivity|]. split; [reflexivity|]. split; [reflexivity|].
  destruct (Send_advances_seq establishedSocket data true world0) as (_ & _ & Hsend & _).
  destruct (Hsend eq_refl eq_refl) as [Hok _].
  exact (Hok eq_refl).
Defined.

Lemma Stack_Close_twice_panics_witness :
  Stack_Close addrString (Stack_Close addrString stack1).2 =
    (Panic CloseOfClosedChannel, (Stack_Close addrString stack1).2).
Proof.
  apply (Stack_Close_twice_panics addrString stack1).
  vm_compute. reflexivity.
Defined.

(** A first [Stack.Close] does not return when the map holds a socket that
    is still open: [Socket.Close] asks for the mutex [Stack.Close] holds. *)
Example Stack_Close_open_socket_blocks :
  (Stack_Close addrString stack2).1 = Deadlock.
Proof. vm_compute. reflexivity. Qed.


End FakeTCPWitnesses.

(** ** Package faketcp: the packet builder *)

Section CodecFacts.
Import FakeTCP.

Lemma len_make (n : Z) : 0 <= n -> len (make n) = n.
Proof. intros H. unfold len, make. rewrite length_replicate. lia. Qed.

Lemma make_app (a b : Z) : 0 <= a -> 0 <= b -> make (a + b) = make a ++ make b.
Proof.
  intros Ha Hb. unfold make. rewrite Z2Nat.inj_add by lia. apply replicate_add.
Qed.

Lemma length_copy (dst src : list byte) : length (copy dst src) = length dst.
Proof. unfold copy. rewrite length_app, length_take, length_drop. lia. Qed.

Lemma copy_full (dst src : list byte) : length src = length dst -> copy dst src = src.
Proof.
  intros H. unfold copy. rewrite take_ge, drop_ge by lia. apply app_nil_r.
Qed.

Lemma To4_cases (ip : list byte) :
  To4 ip = None \/ exists a b c d, To4 ip = Some [a; b; c; d].
Proof.
  unfold To4. destruct (Z.eqb_spec (len ip) 4) as [H|H].
  - right. destruct ip as [|a [|b [|c [|d [|]]]]]; try (unfold len in H; simpl in H; lia). eauto.
  - destruct (Z.eqb_spec (len ip) 16) as [H16|]; simpl; [|auto].
    destruct (isZeros _ && _ && _); [|auto]. right.
    do 16 (destruct ip as [|? ip]; try (unfold len in H16; simpl in H16; lia)).
    simpl. eauto.
Qed.

Lemma To16_cases (ip : list byte) :
  To16 ip = None \/
  exists b0 b1 b2 b3 b4 b5 b6 b7 b8 b9 b10 b11 b12 b13 b14 b15,
    To16 ip = Some [b0; b1; b2; b3; b4; b5; b6; b7; b8; b9; b10; b11; b12; b13; b14; b15].
Proof.
  unfold To16. destruct (Z.eqb_spec (len ip) 4) as [H|H].
  - right. destruct ip as [|a [|b [|c [|d [|]]]]]; try (unfold len in H; simpl in H; lia).
    simpl. do 16 eexists. reflexivity.
  - destruct (Z.eqb_spec (len ip) 16) as [H16|]; [|auto]. right.
    do 16 (destruct ip as [|? ip]; try (unfold len in H16; simpl in H16; lia)).
    destruct ip; [|unfold len in H16; simpl in H16; lia].
    do 16 eexists. reflexivity.
Qed.

Lemma buildIPv4Header_fresh {E} (srcIP dstIP : list byte) (totalLen : Z) :
  buildIPv4Header (E := E) (make 20) srcIP dstIP totalLen =
  (checksum ← calculateChecksumSimple (ipv4Header srcIP dstIP totalLen 0);
   Ret (ipv4Header srcIP dstIP totalLen checksum)).
Proof.
  unfold buildIPv4Header, ipv4Header.
  destruct (To4_cases srcIP) as [->|(a & b & c & d & ->)];
    destruct (To4_cases dstIP) as [->|(a' & b' & c' & d' & ->)];
    cbv -[Zbyte uint16 calculateChecksumSimple Z.shiftr]; reflexivity.
Qed.

Lemma buildIPv6Header_fresh {E} (srcIP dstIP : list byte) (payloadLen : Z) :
  buildIPv6Header (E := E) (make 40) srcIP dstIP payloadLen =
  Ret (ipv6Header srcIP dstIP payloadLen).
Proof.
  unfold buildIPv6Header, ipv6Header.
  destruct (To16_cases srcIP) as [->|(?&?&?&?&?&?&?&?&?&?&?&?&?&?&?&?& ->)];
    destruct (To16_cases dstIP) as [->|(?&?&?&?&?&?&?&?&?&?&?&?&?&?&?&?& ->)];
    cbv -[Zbyte uint16 Z.shiftr]; reflexivity.
Qed.


Lemma Ret_inj {E A} (a b : A) : Ret (E := E) a = Ret b -> a = b.
Proof. intros H. injection H as ->. reflexivity. Qed.

Lemma go_bind_Ret {E A B} (a : A) (k : A -> go E B) : (Ret a ≫= k) = k a.
Proof. reflexivity. Qed.

Lemma set_index_app_l {E} (h t h' : list byte) (i : Z) (v : byte) :
  set_index (E := E) h i v = Ret h' -> set_index (E := E) (h ++ t) i v = Ret (h' ++ t).
Proof.
  unfold set_index. destruct (0 <=? i); [|discriminate].
  destruct (h !! Z.to_nat i) as [b|] eqn:Hb; [|discriminate].
  intros [= <-]. rewrite (lookup_app_l_Some _ _ _ _ Hb).
  rewrite insert_app_l; [reflexivity|]. eapply lookup_lt_Some, Hb.
Qed.

Lemma with_slice_app_l {E} (h t h' : list byte) (lo hi : Z)
    (f : list byte -> go E (list byte)) :
  with_slice h lo hi f = Ret h' -> with_slice (h ++ t) lo hi f = Ret (h' ++ t).
Proof.
  unfold with_slice, slice. rewrite len_app.
  destruct (Z.leb_spec 0 lo); [|discriminate].
  destruct (Z.leb_spec lo hi); [|discriminate].
  destruct (Z.leb_spec hi (len h)); [|discriminate].
  pose proof (len_nonneg t).
  destruct (Z.leb_spec hi (len h + len t)); [|lia]. simpl.
  unfold len in *.
  rewrite !drop_app_le by lia.
  rewrite (take_app_le (drop (Z.to_nat lo) h)) by (rewrite length_drop; lia).
  destruct (f _) as [part| | |]; try discriminate. simpl. intros [= <-].
  rewrite take_app_le by lia.
  rewrite <- !app_assoc. reflexivity.
Qed.

Lemma with_slice_app_r {E} (h t t' : list byte) (lo hi : Z)
    (f : list byte -> go E (list byte)) :
  lo = len h -> hi = len (h ++ t) -> f t = Ret t' ->
  with_slice (h ++ t) lo hi f = Ret (h ++ t').
Proof.
  intros -> -> Hf. unfold with_slice.
  pose proof (len_nonneg h). pose proof (len_nonneg t). pose proof (len_app h t).
  rewrite slice_Ret by lia. simpl.
  replace (Z.to_nat (len h)) with (length h) by (unfold len; lia).
  replace (Z.to_nat (len (h ++ t))) with (length (h ++ t)) by (unfold len; lia).
  rewrite drop_app_length, (take_ge t) by (unfold len in *; lia).
  rewrite Hf. simpl. rewrite take_app_length, drop_all, app_nil_r. reflexivity.
Qed.

Ltac write_prefix :=
  match goal with
  | |- context [@with_slice ?E (?h ++ ?t) ?lo ?hi ?f] =>
    let r := eval cbv -[Zbyte uint16 uint8 Z.shiftr Z.shiftl Z.quot] in (@with_slice E h lo hi f) in
    match r with
    | Ret ?h' => rewrite (@with_slice_app_l E h t h' lo hi f eq_refl), ?go_bind_Ret
    end
  | |- context [@set_index ?E (?h ++ ?t) ?i ?v] =>
    let r := eval cbv -[Zbyte uint16 uint8 Z.shiftr Z.shiftl Z.quot] in (@set_index E h i v) in
    match r with
    | Ret ?h' => rewrite (@set_index_app_l E h t h' i v eq_refl), ?go_bind_Ret
    end
  end.

Lemma buildTCPHeader_fresh {E} (srcPort dstPort seq ack flags : Z) (payload : list byte)
    (wscale : bool) :
  let headerLen := if wscale then TCPHeaderLen + 4 else TCPHeaderLen in
  buildTCPHeader (E := E) (make (headerLen + len payload)) srcPort dstPort seq ack flags
    headerLen payload wscale
  = Ret (tcpHeader srcPort dstPort seq ack flags wscale 0 ++ payload).
Proof.
  intros headerLen. pose proof (len_nonneg payload) as Hp.
  assert (0 <= headerLen) by (subst headerLen; destruct wscale; unfold TCPHeaderLen; lia).
  rewrite make_app by lia. unfold buildTCPHeader.
  destruct wscale; subst headerLen; unfold TCPHeaderLen; simpl Z.add.
  - do 13 write_prefix.
    destruct (Z.ltb_spec 0 (len payload)).
    + apply with_slice_app_r; [reflexivity..|].
      f_equal. apply copy_full. unfold make. rewrite length_replicate. unfold len. lia.
    + destruct payload; [reflexivity|]. unfold len in *. simpl in *. lia.
  - do 9 write_prefix. rewrite ?go_bind_Ret.
    destruct (Z.ltb_spec 0 (len payload)).
    + apply with_slice_app_r; [reflexivity..|].
      f_equal. apply copy_full. unfold make. rewrite length_replicate. unfold len. lia.
    + destruct payload; [reflexivity|]. unfold len in *. simpl in *. lia.
Qed.

Lemma tcpHeader_checksum {E} (srcPort dstPort seq ack flags : Z) (wscale : bool)
    (checksum : Z) (payload : list byte) :
  with_slice (E := E) (tcpHeader srcPort dstPort seq ack flags wscale 0 ++ payload) 16 18
    (BigEndian_PutUint16 checksum)
  = Ret (tcpHeader srcPort dstPort seq ack flags wscale checksum ++ payload).
Proof.
  apply with_slice_app_l. destruct wscale; reflexivity.
Qed.

Lemma buildPseudoHeader_Ret {E} (srcIP dstIP : list byte) (tcpLen : Z) :
  exists pseudo,
    buildPseudoHeader (E := E) srcIP dstIP tcpLen = Ret pseudo /\
    (len pseudo = 12 \/ len pseudo = 40).
Proof.
  unfold buildPseudoHeader.
  destruct (To4_cases srcIP) as [->|(a & b & c & d & ->)].
  - destruct (To16_cases srcIP) as [->|(?&?&?&?&?&?&?&?&?&?&?&?&?&?&?&?& ->)];
      destruct (To16_cases dstIP) as [->|(?&?&?&?&?&?&?&?&?&?&?&?&?&?&?&?& ->)];
      eexists; (split; [reflexivity|right; reflexivity]).
  - destruct (To4_cases dstIP) as [->|(a' & b' & c' & d' & ->)];
      eexists; (split; [reflexivity|left; reflexivity]).
Qed.

(** *** The checksum *)

Lemma pair_ind (P : list byte -> Prop) :
  P [] -> (forall a, P [a]) -> (forall a b l, P l -> P (a :: b :: l)) -> forall l, P l.
Proof.
  intros H0 H1 H2. fix IH 1. intros [|a [|b l]]; [exact H0|apply H1|apply H2, IH].
Qed.

Lemma wordSum_app (k : nat) (pre l : list byte) :
  length pre = (2 * k)%nat -> wordSum (pre ++ l) = wordSum pre + wordSum l.
Proof.
  revert pre. induction k as [|k IH]; intros pre H.
  - destruct pre; [reflexivity|discriminate].
  - destruct pre as [|a [|b pre]]; simpl in H; try lia.
    change (byteZ a * 256 + byteZ b + wordSum (pre ++ l)
            = byteZ a * 256 + byteZ b + wordSum pre + wordSum l).
    rewrite IH by lia. lia.
Qed.

Lemma wordSum_bound (l : list byte) : 0 <= wordSum l <= 65535 * ((len l + 1) / 2).
Proof.
  induction l as [|a|a b l IH] using pair_ind.
  - change (0 <= 0 <= 0). lia.
  - pose proof (byteZ_range a). change (0 <= byteZ a * 256 <= 65535 * 1). lia.
  - pose proof (byteZ_range a). pose proof (byteZ_range b).
    change (wordSum (a :: b :: l)) with (byteZ a * 256 + byteZ b + wordSum l).
    replace (len (a :: b :: l) + 1) with (len l + 1 + 1 * 2) by (unfold len; simpl; lia).
    rewrite Z.div_add by lia. lia.
Qed.

Lemma uint32_small (z : Z) : 0 <= z < 2 ^ 32 -> uint32 z = z.
Proof. apply Z.mod_small. Qed.

Lemma uint32_range (z : Z) : 0 <= uint32 z < 2 ^ 32.
Proof. apply Z.mod_pos_bound. lia. Qed.

Lemma uint32_add_l (a b : Z) : uint32 (uint32 a + b) = uint32 (a + b).
Proof. unfold uint32. apply Zplus_mod_idemp_l. Qed.

Lemma BigEndian_Uint16_word {E} (a b : byte) :
  BigEndian_Uint16 (E := E) [a; b] = Ret (byteZ a * 256 + byteZ b).
Proof.
  pose proof (byteZ_range a). pose proof (byteZ_range b).
  unfold BigEndian_Uint16, index. simpl. rewrite lor_shiftl_8 by lia. f_equal. lia.
Qed.

(** The loop adds the words it passes. *)
Lemma sumWords_wordSum {E} (data : list byte) (n : nat) (i sum : Z) :
  0 <= i -> i + 2 * Z.of_nat n <= len data -> 0 <= sum < 2 ^ 32 ->
  sumWords (E := E) data n i sum
  = Ret (uint32 (sum + wordSum (take (2 * n) (drop (Z.to_nat i) data)))).
Proof.
  revert i sum. induction n as [|n IH]; intros i sum Hi Hlen Hsum.
  - simpl. rewrite Z.add_0_r, uint32_small by lia. reflexivity.
  - cbn [sumWords]. rewrite slice_Ret by lia.
    replace (i + 2 - i) with 2 by lia.
    destruct (drop (Z.to_nat i) data) as [|a [|b rest]] eqn:Hd;
      try (apply (f_equal length) in Hd; rewrite length_drop in Hd;
           unfold len in Hlen; simpl in Hd; lia).
    change (take (Z.to_nat 2) (a :: b :: rest)) with [a; b].
    rewrite go_bind_Ret, BigEndian_Uint16_word, go_bind_Ret.
    pose proof (byteZ_range a). pose proof (byteZ_range b).
    rewrite IH; [|lia|lia|apply uint32_range].
    replace (drop (Z.to_nat (i + 2)) data) with rest.
    2:{ replace (Z.to_nat (i + 2)) with (Z.to_nat i + 2)%nat by lia.
        rewrite <- drop_drop, Hd. reflexivity. }
    replace (2 * S n)%nat with (S (S (2 * n))) by lia.
    change (wordSum (take (S (S (2 * n))) (a :: b :: rest)))
      with (byteZ a * 256 + byteZ b + wordSum (take (2 * n) rest)).
    rewrite (uint32_small (byteZ a * 256 + byteZ b)) by lia.
    rewrite uint32_add_l. f_equal. f_equal. lia.
Qed.

(** The words the loop passes and the odd byte it leaves are all of the data. *)
Lemma wordSum_odd (data : list byte) :
  wordSum data
  = wordSum (take (2 * Z.to_nat (len data / 2)) data)
    + (if Z.rem (len data) 2 =? 1
       then match data !! Z.to_nat (len data - 1) with
            | Some b => byteZ b * 256
            | None => 0
            end
       else 0).
Proof.
  induction data as [|a|a b l IH] using pair_ind.
  - reflexivity.
  - simpl. lia.
  - assert (len (a :: b :: l) = len l + 1 * 2) as -> by (unfold len; simpl; lia).
    pose proof (len_nonneg l) as Hl.
    rewrite Z.div_add by lia.
    replace (Z.to_nat (len l / 2 + 1)) with (S (Z.to_nat (len l / 2)))
      by (assert (0 <= len l / 2) by (apply Z.div_pos; lia); lia).
    replace (2 * S (Z.to_nat (len l / 2)))%nat with (S (S (2 * Z.to_nat (len l / 2)))) by lia.
    change (wordSum (a :: b :: l)) with (byteZ a * 256 + byteZ b + wordSum l).
    change (wordSum (take (S (S (2 * Z.to_nat (len l / 2)))) (a :: b :: l)))
      with (byteZ a * 256 + byteZ b + wordSum (take (2 * Z.to_nat (len l / 2)) l)).
    rewrite IH at 1.
    assert (Z.rem (len l + 1 * 2) 2 = Z.rem (len l) 2) as ->.
    { rewrite !Z.rem_mod_nonneg by lia. apply Z.mod_add. lia. }
    destruct (Z.eqb_spec (Z.rem (len l) 2) 1) as [Hodd|]; [|lia].
    assert (0 < len l) by (destruct (Z.eq_dec (len l) 0) as [Hz|]; [rewrite Hz in Hodd; discriminate|lia]).
    replace (Z.to_nat (len l + 1 * 2 - 1)) with (S (S (Z.to_nat (len l - 1)))) by lia.
    simpl. lia.
Qed.

Lemma checksum_sum {E} (data : list byte) (sum : Z) :
  0 <= sum < 2 ^ 32 ->
  (sum ← sumWords (E := E) data (iterations (len data - 1)) 0 sum; addOddByte data sum)
  = Ret (uint32 (sum + wordSum data)).
Proof.
  intros Hsum. pose proof (len_nonneg data) as Hl.
  unfold iterations. replace (len data - 1 + 1) with (len data) by lia.
  assert (0 <= len data / 2) by (apply Z.div_pos; lia).
  assert (2 * (len data / 2) <= len data) by (apply Z.mul_div_le; lia).
  rewrite sumWords_wordSum by lia. rewrite go_bind_Ret.
  change (drop (Z.to_nat 0) data) with data.
  rewrite (wordSum_odd data). unfold addOddByte.
  destruct (Z.eqb_spec (Z.rem (len data) 2) 1) as [Hodd|].
  - assert (0 < len data) by (destruct (Z.eq_dec (len data) 0) as [Hz|]; [rewrite Hz in Hodd; discriminate|lia]).
    destruct (index_Ret (E := E) data (len data - 1)) as (b & -> & ->); [lia|].
    rewrite go_bind_Ret. pose proof (byteZ_range b).
    rewrite (uint32_small (byteZ b)) by lia.
    rewrite Z.shiftl_mul_pow2 by lia. change (2 ^ 8) with 256.
    rewrite (uint32_small (byteZ b * 256)) by lia.
    rewrite uint32_add_l. f_equal. f_equal. lia.
  - rewrite Z.add_0_r. reflexivity.
Qed.

Lemma onesFold_range (sum : Z) : 0 <= sum -> 0 <= onesFold sum <= 65535.
Proof.
  intros H. unfold onesFold. destruct (Z.eqb_spec sum 0); [lia|].
  pose proof (Z.mod_pos_bound (sum - 1) 65535). lia.
Qed.

Lemma onesFold_small (sum : Z) : 0 <= sum <= 65535 -> onesFold sum = sum.
Proof.
  intros H. unfold onesFold. destruct (Z.eqb_spec sum 0); [lia|].
  rewrite Z.mod_small; lia.
Qed.

(** One turn of the folding loop keeps what the sum folds to. *)
Lemma onesFold_step (sum : Z) :
  65535 < sum -> onesFold (sum mod 65536 + sum / 65536) = onesFold sum.
Proof.
  intros H. unfold onesFold.
  pose proof (Z.div_mod sum 65536) as Hdm. pose proof (Z.mod_pos_bound sum 65536) as Hm.
  assert (1 <= sum / 65536) by (apply Z.div_le_lower_bound; lia).
  destruct (Z.eqb_spec (sum mod 65536 + sum / 65536) 0); [lia|].
  destruct (Z.eqb_spec sum 0); [lia|]. f_equal.
  replace (sum - 1) with (sum mod 65536 + sum / 65536 - 1 + sum / 65536 * 65535) by lia.
  rewrite Z.mod_add; lia.
Qed.

Lemma foldCarry_onesFold {E} (fuel : nat) (sum : Z) :
  0 <= sum < 2 ^ 32 -> foldCarry (E := E) (S (S fuel)) sum = Ret (onesFold sum).
Proof.
  intros H.
  assert (forall s, 0 <= s -> uint32 (Z.land s 65535 + Z.shiftr s 16) = uint32 (s mod 65536 + s / 65536)) as Hstep.
  { intros s Hs. change 65535 with (Z.ones 16). rewrite Z.land_ones by lia.
    rewrite Z.shiftr_div_pow2 by lia. reflexivity. }
  cbn [foldCarry]. destruct (Z.gtb_spec sum 65535) as [Hgt|Hgt];
    [|rewrite onesFold_small by lia; reflexivity].
  rewrite Hstep by lia. rewrite <- (onesFold_step sum) by lia.
  pose proof (Z.mod_pos_bound sum 65536).
  assert (1 <= sum / 65536 < 65536)
    by (split; [apply Z.div_le_lower_bound; lia | apply Z.div_lt_upper_bound; lia]).
  set (s1 := sum mod 65536 + sum / 65536) in *.
  rewrite (uint32_small s1) by lia.
  destruct (Z.gtb_spec s1 65535) as [Hgt1|Hgt1];
    [|destruct fuel; cbn [foldCarry]; destruct (Z.gtb_spec s1 65535); try lia;
      rewrite onesFold_small by lia; reflexivity].
  rewrite Hstep by lia. rewrite <- (onesFold_step s1) by lia.
  assert (s1 / 65536 = 1) as Hq by (symmetry; apply (Z.div_unique s1 65536 1 (s1 - 65536)); lia).
  assert (s1 mod 65536 = s1 - 65536) as Hr
    by (symmetry; apply (Z.mod_unique s1 65536 1 (s1 - 65536)); lia).
  rewrite Hq, Hr. rewrite uint32_small by lia.
  rewrite onesFold_small by lia.
  destruct fuel; cbn [foldCarry]; destruct (Z.gtb_spec (s1 - 65536 + 1) 65535); try lia; reflexivity.
Qed.

Lemma complement16 (x : Z) : 0 <= x <= 65535 -> uint16 (Z.lnot (uint16 x)) = 65535 - x.
Proof.
  intros H. unfold uint16. rewrite (Z.mod_small x) by lia.
  unfold Z.lnot. replace (Z.pred (- x)) with (65535 - x + -1 * 2 ^ 16) by lia.
  rewrite Z.mod_add by lia. apply Z.mod_small. lia.
Qed.

(** What the two checksum functions return. *)
Lemma calculateChecksumSimple_Ret {E} (data : list byte) :
  calculateChecksumSimple (E := E) data = Ret (65535 - onesFold (uint32 (wordSum data))).
Proof.
  unfold calculateChecksumSimple.
  pose proof (checksum_sum (E := E) data 0 ltac:(lia)) as Hsum.
  rewrite Z.add_0_l in Hsum.
  destruct (sumWords data _ 0 0) as [s| | |]; rewrite ?go_bind_Ret in *;
    try discriminate Hsum.
  rewrite Hsum, go_bind_Ret.
  rewrite (foldCarry_onesFold 30) by apply uint32_range. rewrite go_bind_Ret.
  rewrite complement16; [reflexivity|]. apply onesFold_range, uint32_range.
Qed.

Lemma calculateChecksum_Ret {E} (pseudoHeader tcpSegment : list byte) (k : nat) :
  length pseudoHeader = (2 * k)%nat ->
  calculateChecksum (E := E) pseudoHeader tcpSegment
  = Ret (65535 - onesFold (uint32 (wordSum pseudoHeader + wordSum tcpSegment))).
Proof.
  intros Hk. unfold calculateChecksum.
  assert (iterations (len pseudoHeader) = k) as ->.
  { unfold iterations, len. rewrite Hk.
    replace (Z.of_nat (2 * k) + 1) with (1 + Z.of_nat k * 2) by lia.
    rewrite Z.div_add by lia. change (1 / 2) with 0. lia. }
  rewrite sumWords_wordSum; [|lia|unfold len; lia|lia].
  rewrite go_bind_Ret. change (drop (Z.to_nat 0) pseudoHeader) with pseudoHeader.
  rewrite take_ge by lia. rewrite Z.add_0_l.
  pose proof (checksum_sum (E := E) tcpSegment (uint32 (wordSum pseudoHeader))
                (uint32_range _)) as Hsum.
  destruct (sumWords tcpSegment _ 0 _) as [s| | |]; rewrite ?go_bind_Ret in *;
    try discriminate Hsum.
  rewrite Hsum, go_bind_Ret, uint32_add_l.
  rewrite (foldCarry_onesFold 30) by apply uint32_range. rewrite go_bind_Ret.
  rewrite complement16; [reflexivity|]. apply onesFold_range, uint32_range.
Qed.

(** A sum with its checksum added folds to all ones. *)
Lemma onesFold_verify (sum : Z) :
  0 <= sum -> onesFold (sum + (65535 - onesFold sum)) = 65535.
Proof.
  intros H. unfold onesFold at 2. destruct (Z.eqb_spec sum 0) as [->|Hn]; [reflexivity|].
  unfold onesFold.
  pose proof (Z.div_mod (sum - 1) 65535) as Hdm.
  pose proof (Z.mod_pos_bound (sum - 1) 65535) as Hm.
  destruct (Z.eqb_spec (sum + (65535 - ((sum - 1) mod 65535 + 1))) 0); [lia|].
  replace (sum + (65535 - ((sum - 1) mod 65535 + 1)) - 1)
    with (65534 + (sum - 1) / 65535 * 65535) by lia.
  rewrite Z.mod_add by lia. reflexivity.
Qed.

Lemma wordSum_word16 (v : Z) (l : list byte) :
  0 <= v < 65536 -> wordSum (word16 v ++ l) = v + wordSum l.
Proof.
  intros H. change (wordSum (word16 v ++ l))
    with (byteZ (Zbyte (Z.shiftr v 8)) * 256 + byteZ (Zbyte v) + wordSum l).
  rewrite !byteZ_Zbyte, Z.shiftr_div_pow2 by lia. change (2 ^ 8) with 256.
  assert (0 <= v / 256 < 256)
    by (split; [apply Z.div_pos; lia | apply Z.div_lt_upper_bound; lia]).
  rewrite (Z.mod_small (v / 256)) by lia.
  pose proof (Z.div_mod v 256). lia.
Qed.

(** Data whose checksum field holds the checksum of the data with the field
    zero sums to all ones: its own checksum is zero. *)
Lemma checksum_field (k : nat) (pre post : list byte) (sum0 : Z) :
  length pre = (2 * k)%nat -> 0 <= sum0 ->
  sum0 + wordSum (pre ++ word16 0 ++ post) + 65535 < 2 ^ 32 ->
  let checksum := 65535 - onesFold (uint32 (sum0 + wordSum (pre ++ word16 0 ++ post))) in
  0 <= checksum < 65536 /\
  65535 - onesFold (uint32 (sum0 + wordSum (pre ++ word16 checksum ++ post))) = 0.
Proof.
  intros Hk H0 Hb checksum.
  pose proof (wordSum_bound (pre ++ word16 0 ++ post)) as [Hw _].
  set (sum := sum0 + wordSum (pre ++ word16 0 ++ post)) in *.
  assert (uint32 sum = sum) as Hs by (apply uint32_small; lia).
  pose proof (onesFold_range sum ltac:(lia)) as Hf.
  assert (0 <= checksum < 65536) as Hc by (subst checksum; rewrite Hs; lia).
  split; [exact Hc|].
  rewrite (wordSum_app k), wordSum_word16 by assumption.
  replace (sum0 + (wordSum pre + (checksum + wordSum post))) with (sum + checksum).
  2:{ subst sum. rewrite (wordSum_app k), wordSum_word16 by (assumption || lia). lia. }
  rewrite uint32_small by lia. subst checksum. rewrite Hs, onesFold_verify; lia.
Qed.

(** *** [BuildTCPPacket] *)

Lemma len_ipv4Header (srcIP dstIP : list byte) (totalLen checksum : Z) :
  length (ipv4Header srcIP dstIP totalLen checksum) = 20%nat.
Proof.
  unfold ipv4Header. rewrite !length_app, !length_copy. reflexivity.
Qed.

Lemma len_ipv6Header (srcIP dstIP : list byte) (payloadLen : Z) :
  length (ipv6Header srcIP dstIP payloadLen) = 40%nat.
Proof.
  unfold ipv6Header. rewrite !length_app, !length_copy. reflexivity.
Qed.

Lemma len_tcpHeader (srcPort dstPort seq ack flags : Z) (wscale : bool) (checksum : Z) :
  length (tcpHeader srcPort dstPort seq ack flags wscale checksum)
  = if wscale then 24%nat else 20%nat.
Proof. destruct wscale; reflexivity. Qed.

(** The packet [BuildTCPPacket] returns: the IP header of the family of the
    local address, the TCP header and the payload, each checksum field
    holding the checksum of its data taken with the field zero. *)
Lemma BuildTCPPacket_Ret {E} (localAddr remoteAddr : UDPAddr) (seq ack flags : Z)
    (payload : list byte) :
  let wscale := negb (Z.land flags SYN =? 0) in
  let tcpTotalLen := (if wscale then 24 else 20) + len payload in
  let tcpHdr := tcpHeader (Port localAddr) (Port remoteAddr) seq ack flags wscale in
  let ipHdr := ipv4Header (IP localAddr) (IP remoteAddr) (20 + tcpTotalLen) in
  exists pseudo k,
    buildPseudoHeader (E := E) (IP localAddr) (IP remoteAddr) tcpTotalLen = Ret pseudo /\
    length pseudo = (2 * k)%nat /\
    let checksum :=
      65535 - onesFold (uint32 (wordSum pseudo + wordSum (tcpHdr 0 ++ payload))) in
    BuildTCPPacket (E := E) localAddr remoteAddr seq ack flags payload
    = Ret ((if bool_decide (To4 (IP localAddr) = None)
            then ipv6Header (IP localAddr) (IP remoteAddr) tcpTotalLen
            else ipHdr (65535 - onesFold (uint32 (wordSum (ipHdr 0)))))
           ++ tcpHdr checksum ++ payload).
Proof.
  intros wscale tcpTotalLen tcpHdr ipHdr.
  pose proof (len_nonneg payload) as Hp.
  destruct (buildPseudoHeader_Ret (E := E) (IP localAddr) (IP remoteAddr) tcpTotalLen)
    as (pseudo & Hpseudo & Hlen).
  assert (exists k, length pseudo = (2 * k)%nat) as [k Hk].
  { destruct Hlen as [H|H]; [exists 6%nat|exists 20%nat]; unfold len in H; lia. }
  exists pseudo, k. split; [exact Hpseudo|]. split; [exact Hk|]. intros checksum.
  unfold BuildTCPPacket. fold wscale.
  assert ((if wscale then TCPHeaderLen + 4 else TCPHeaderLen) + len payload = tcpTotalLen) as Htl
    by (subst tcpTotalLen; destruct wscale; reflexivity).
  cbv zeta. rewrite Htl.
  assert (0 <= tcpTotalLen) by (subst tcpTotalLen; destruct wscale; lia).
  set (ipLen := if bool_decide (To4 (IP localAddr) = None) then IPv6HeaderLen else IPv4HeaderLen).
  assert (0 <= ipLen) by (subst ipLen; case_bool_decide; unfold IPv6HeaderLen, IPv4HeaderLen; lia).
  rewrite make_app by lia.
  rewrite slice_to_Ret by (rewrite len_app, !len_make by lia; lia).
  rewrite slice_from_Ret by (rewrite len_app, !len_make by lia; lia).
  rewrite !go_bind_Ret.
  replace (Z.to_nat ipLen) with (length (make ipLen)) by (unfold make; rewrite length_replicate; reflexivity).
  rewrite take_app_length, drop_app_length.
  assert (forall ipBuf : list byte,
    (tcpBuf ← buildTCPHeader (E := E) (make tcpTotalLen) (Port localAddr) (Port remoteAddr)
                seq ack flags (if wscale then TCPHeaderLen + 4 else TCPHeaderLen) payload wscale;
     pseudoHeader ← buildPseudoHeader (IP localAddr) (IP remoteAddr) tcpTotalLen;
     checksum ← calculateChecksum pseudoHeader tcpBuf;
     tcpBuf ← with_slice tcpBuf 16 18 (BigEndian_PutUint16 checksum);
     Ret (ipBuf ++ tcpBuf))
    = Ret (ipBuf ++ tcpHdr checksum ++ payload)) as Htcp.
  { intros ipBuf. rewrite <- Htl at 1. rewrite buildTCPHeader_fresh. fold tcpHdr.
    rewrite go_bind_Ret, Hpseudo, go_bind_Ret.
    rewrite (calculateChecksum_Ret _ _ k Hk), go_bind_Ret.
    unfold tcpHdr. rewrite tcpHeader_checksum. reflexivity. }
  subst ipLen. case_bool_decide.
  - unfold IPv6HeaderLen. rewrite buildIPv6Header_fresh, go_bind_Ret. apply Htcp.
  - unfold IPv4HeaderLen. rewrite buildIPv4Header_fresh.
    rewrite calculateChecksumSimple_Ret, !go_bind_Ret. apply Htcp.
Qed.

(** *** Parsing what was built *)

Lemma lor_shiftl (lo hi n : Z) :
  0 <= n -> 0 <= lo < 2 ^ n -> Z.lor lo (Z.shiftl hi n) = lo + hi * 2 ^ n.
Proof.
  intros Hn Hlo.
  assert (Z.land lo (Z.shiftl hi n) = 0) as Hland.
  { apply Z.bits_inj'. intros i Hi. rewrite Z.land_spec, Z.bits_0.
    destruct (Z.ltb_spec i n).
    - rewrite Z.shiftl_spec_low by lia. apply andb_false_r.
    - replace (Z.testbit lo i) with false; [reflexivity|].
      symmetry. destruct (Z.eq_dec lo 0) as [->|]; [apply Z.bits_0|].
      apply Z.bits_above_log2; [lia|].
      apply Z.log2_lt_pow2; [lia|].
      apply Z.lt_le_trans with (2 ^ n); [lia|]. apply Z.pow_le_mono_r; lia. }
  rewrite <- Z.lxor_lor by exact Hland.
  rewrite <- Z.add_nocarry_lxor by exact Hland.
  rewrite Z.shiftl_mul_pow2 by lia. reflexivity.
Qed.

Lemma BigEndian_Uint32_word {E} (v : Z) :
  0 <= v < 2 ^ 32 -> BigEndian_Uint32 (E := E) (word32 v) = Ret v.
Proof.
  intros Hv. unfold word32, BigEndian_Uint32, index. simpl.
  rewrite !byteZ_Zbyte, !Z.shiftr_div_pow2 by lia.
  change (2 ^ 8) with 256. change (2 ^ 16) with 65536. change (2 ^ 24) with 16777216.
  f_equal.
  pose proof (Z.mod_pos_bound v 256). pose proof (Z.mod_pos_bound (v / 256) 256).
  pose proof (Z.mod_pos_bound (v / 65536) 256). pose proof (Z.mod_pos_bound (v / 16777216) 256).
  rewrite (lor_shiftl (v mod 256) _ 8) by lia.
  rewrite (lor_shiftl _ _ 16) by lia.
  rewrite (lor_shiftl _ _ 24) by lia.
  change (2 ^ 8) with 256. change (2 ^ 16) with 65536. change (2 ^ 24) with 16777216.
  assert (v / 65536 = v / 256 / 256) as H16 by (rewrite Z.div_div by lia; reflexivity).
  assert (v / 16777216 = v / 256 / 256 / 256) as H24 by (rewrite !Z.div_div by lia; reflexivity).
  rewrite H16, H24.
  pose proof (Z.div_mod v 256). pose proof (Z.div_mod (v / 256) 256).
  pose proof (Z.div_mod (v / 256 / 256) 256).
  assert (0 <= v / 256 / 256 / 256 < 256).
  { rewrite <- H24. split; [apply Z.div_pos; lia | apply Z.div_lt_upper_bound; lia]. }
  rewrite (Z.mod_small (v / 256 / 256 / 256)) by lia. lia.
Qed.

Lemma BigEndian_Uint16_word16 {E} (v : Z) :
  0 <= v < 65536 -> BigEndian_Uint16 (E := E) (word16 v) = Ret v.
Proof. apply BigEndian_Uint16_pair. Qed.

Lemma uint16_range (z : Z) : 0 <= uint16 z < 65536.
Proof. apply Z.mod_pos_bound. lia. Qed.

Lemma index_app_l {E} (h t : list byte) (i : Z) :
  0 <= i < len h -> index (E := E) (h ++ t) i = index h i.
Proof.
  intros H. unfold index. destruct (Z.leb_spec 0 i); [|lia].
  rewrite lookup_app_l by (unfold len in H; lia). reflexivity.
Qed.

Lemma slice_app_l {E} (h t : list byte) (lo hi : Z) :
  0 <= lo <= hi -> hi <= len h -> slice (E := E) (h ++ t) lo hi = slice h lo hi.
Proof.
  intros H1 H2. pose proof (len_nonneg t). 
  rewrite !slice_Ret by (rewrite ?len_app; lia). f_equal.
  unfold len in *. rewrite drop_app_le by lia.
  apply take_app_le. rewrite length_drop. lia.
Qed.

Lemma slice_from_app {E} (h t : list byte) (n : Z) :
  n = len h -> slice_from (E := E) (h ++ t) n = Ret t.
Proof.
  intros ->. pose proof (len_nonneg h). pose proof (len_nonneg t).
  rewrite slice_from_Ret by (rewrite len_app; lia).
  unfold len. rewrite Nat2Z.id, drop_app_length. reflexivity.
Qed.

(** The TCP part of [ParseTCPPacket] reads back the fields of a header laid
    out by [buildTCPHeader] and the payload behind it. *)
Lemma parse_tcpHeader (srcIP dstIP : list byte) (isIPv6 : bool)
    (srcPort dstPort seq ack flags : Z) (wscale : bool) (checksum : Z)
    (payload : list byte) :
  0 <= seq < 2 ^ 32 -> 0 <= ack < 2 ^ 32 -> 0 <= flags < 256 ->
  let tcpBuf := tcpHeader srcPort dstPort seq ack flags wscale checksum ++ payload in
  (srcPort ← slice tcpBuf 0 2 ≫= BigEndian_Uint16;
   dstPort ← slice tcpBuf 2 4 ≫= BigEndian_Uint16;
   seq ← slice tcpBuf 4 8 ≫= BigEndian_Uint32;
   ack ← slice tcpBuf 8 12 ≫= BigEndian_Uint32;
   b12 ← index tcpBuf 12;
   let dataOffset := uint8 (Z.shiftr (byteZ b12) 4 * 4) in
   flags ← index tcpBuf 13;
   window ← slice tcpBuf 14 16 ≫= BigEndian_Uint16;
   payload ← (if dataOffset <? len tcpBuf then slice_from tcpBuf dataOffset
              else Ret []);
   Ret (Some {| SrcIP := srcIP; DstIP := dstIP; SrcPort := srcPort;
                DstPort := dstPort; Seq := seq; Ack := ack;
                Flags := byteZ flags; Window := window; Payload := payload;
                IsIPv6 := isIPv6 |}))
  = Ret (E := Empty_set)
      (Some {| SrcIP := srcIP; DstIP := dstIP; SrcPort := uint16 srcPort;
               DstPort := uint16 dstPort; Seq := seq; Ack := ack;
               Flags := flags; Window := 65535; Payload := payload;
               IsIPv6 := isIPv6 |}).
Proof.
  intros Hseq Hack Hflags tcpBuf. subst tcpBuf.
  set (hdr := tcpHeader srcPort dstPort seq ack flags wscale checksum).
  set (offset := Zbyte (if wscale then 96 else 80)).
  assert (len hdr = if wscale then 24 else 20) as Hlen
    by (unfold len, hdr; rewrite len_tcpHeader; destruct wscale; reflexivity).
  assert (20 <= len hdr) as H20 by (rewrite Hlen; destruct wscale; lia).
  rewrite !(slice_app_l hdr), !(index_app_l hdr) by lia.
  assert (slice (E := Empty_set) hdr 0 2 = Ret (word16 (uint16 srcPort))) as ->
    by (destruct wscale; reflexivity).
  assert (slice (E := Empty_set) hdr 2 4 = Ret (word16 (uint16 dstPort))) as ->
    by (destruct wscale; reflexivity).
  assert (slice (E := Empty_set) hdr 4 8 = Ret (word32 seq)) as ->
    by (destruct wscale; reflexivity).
  assert (slice (E := Empty_set) hdr 8 12 = Ret (word32 ack)) as ->
    by (destruct wscale; reflexivity).
  assert (slice (E := Empty_set) hdr 14 16 = Ret (word16 65535)) as ->
    by (destruct wscale; reflexivity).
  assert (index (E := Empty_set) hdr 12 = Ret offset) as ->
    by (destruct wscale; reflexivity).
  assert (index (E := Empty_set) hdr 13 = Ret (Zbyte flags)) as ->
    by (destruct wscale; reflexivity).
  rewrite !go_bind_Ret.
  rewrite !BigEndian_Uint16_word16 by (apply uint16_range || lia).
  rewrite !BigEndian_Uint32_word by assumption.
  rewrite !go_bind_Ret. cbv zeta.
  assert (uint8 (Z.shiftr (byteZ offset) 4 * 4) = len hdr) as ->
    by (rewrite Hlen; destruct wscale; reflexivity).
  rewrite byteZ_Zbyte, (Z.mod_small flags) by lia.
  rewrite len_app.
  destruct (Z.ltb_spec (len hdr) (len hdr + len payload)).
  - rewrite slice_from_app by reflexivity. reflexivity.
  - destruct payload; [reflexivity|]. unfold len in *. simpl in *. lia.
Qed.

Lemma ParseTCPPacket_ipv4Header (srcIP dstIP : list byte) (totalLen ipChecksum : Z)
    (srcPort dstPort seq ack flags : Z) (wscale : bool) (checksum : Z)
    (payload : list byte) :
  0 <= seq < 2 ^ 32 -> 0 <= ack < 2 ^ 32 -> 0 <= flags < 256 ->
  ParseTCPPacket (ipv4Header srcIP dstIP totalLen ipChecksum
                  ++ tcpHeader srcPort dstPort seq ack flags wscale checksum ++ payload)
  = Ret (Some {| SrcIP := copy (make 4) (orNil (To4 srcIP));
                 DstIP := copy (make 4) (orNil (To4 dstIP));
                 SrcPort := uint16 srcPort; DstPort := uint16 dstPort;
                 Seq := seq; Ack := ack; Flags := flags; Window := 65535;
                 Payload := payload; IsIPv6 := false |}).
Proof.
  intros Hseq Hack Hflags.
  set (ip := ipv4Header srcIP dstIP totalLen ipChecksum).
  set (tcp := tcpHeader srcPort dstPort seq ack flags wscale checksum ++ payload).
  assert (len ip = 20) as Hip by (unfold len, ip; rewrite len_ipv4Header; reflexivity).
  assert (20 <= len tcp) as Htcp.
  { unfold tcp. rewrite len_app. unfold len at 1. rewrite len_tcpHeader.
    pose proof (len_nonneg payload). destruct wscale; lia. }
  unfold ParseTCPPacket, parseIPHeader, IPv4HeaderLen, TCPHeaderLen.
  rewrite len_app.
  destruct (Z.ltb_spec (len ip + len tcp) 20); [lia|].
  rewrite !(index_app_l ip), !(slice_app_l ip) by lia.
  assert (index (E := Empty_set) ip 0 = Ret (Zbyte 69)) as -> by reflexivity.
  assert (index (E := Empty_set) ip 9 = Ret (Zbyte 6)) as -> by reflexivity.
  assert (slice (E := Empty_set) ip 12 16 = Ret (copy (make 4) (orNil (To4 srcIP)))
          /\ slice (E := Empty_set) ip 16 20 = Ret (copy (make 4) (orNil (To4 dstIP))))
    as [-> ->].
  { unfold ip, ipv4Header.
    destruct (To4_cases srcIP) as [->|(a & b & c & d & ->)];
      destruct (To4_cases dstIP) as [->|(a' & b' & c' & d' & ->)];
      split; reflexivity. }
  rewrite !go_bind_Ret.
  change (Z.shiftr (byteZ (Zbyte 69)) 4 =? 4) with true. cbv iota.
  rewrite !go_bind_Ret. cbv iota beta.
  change (negb (byteZ (Zbyte 6) =? 6)) with false. cbv iota.
  destruct (Z.ltb_spec (len ip + len tcp) (20 + 20)); [lia|].
  rewrite slice_from_app by (symmetry; exact Hip). rewrite go_bind_Ret.
  apply parse_tcpHeader; assumption.
Qed.

Lemma ParseTCPPacket_ipv6Header (srcIP dstIP : list byte) (payloadLen : Z)
    (srcPort dstPort seq ack flags : Z) (wscale : bool) (checksum : Z)
    (payload : list byte) :
  0 <= seq < 2 ^ 32 -> 0 <= ack < 2 ^ 32 -> 0 <= flags < 256 ->
  ParseTCPPacket (ipv6Header srcIP dstIP payloadLen
                  ++ tcpHeader srcPort dstPort seq ack flags wscale checksum ++ payload)
  = Ret (Some {| SrcIP := copy (make 16) (orNil (To16 srcIP));
                 DstIP := copy (make 16) (orNil (To16 dstIP));
                 SrcPort := uint16 srcPort; DstPort := uint16 dstPort;
                 Seq := seq; Ack := ack; Flags := flags; Window := 65535;
                 Payload := payload; IsIPv6 := true |}).
Proof.
  intros Hseq Hack Hflags.
  set (ip := ipv6Header srcIP dstIP payloadLen).
  set (tcp := tcpHeader srcPort dstPort seq ack flags wscale checksum ++ payload).
  assert (len ip = 40) as Hip by (unfold len, ip; rewrite len_ipv6Header; reflexivity).
  assert (20 <= len tcp) as Htcp.
  { unfold tcp. rewrite len_app. unfold len at 1. rewrite len_tcpHeader.
    pose proof (len_nonneg payload). destruct wscale; lia. }
  unfold ParseTCPPacket, parseIPHeader, IPv4HeaderLen, IPv6HeaderLen, TCPHeaderLen.
  rewrite len_app.
  destruct (Z.ltb_spec (len ip + len tcp) 20); [lia|].
  destruct (Z.ltb_spec (len ip + len tcp) 40); [lia|].
  rewrite !(index_app_l ip), !(slice_app_l ip) by lia.
  assert (index (E := Empty_set) ip 0 = Ret (Zbyte 96)) as -> by reflexivity.
  assert (index (E := Empty_set) ip 6 = Ret (Zbyte 6)) as -> by reflexivity.
  assert (slice (E := Empty_set) ip 8 24 = Ret (copy (make 16) (orNil (To16 srcIP)))
          /\ slice (E := Empty_set) ip 24 40 = Ret (copy (make 16) (orNil (To16 dstIP))))
    as [-> ->].
  { unfold ip, ipv6Header.
    destruct (To16_cases srcIP) as [->|(?&?&?&?&?&?&?&?&?&?&?&?&?&?&?&?& ->)];
      destruct (To16_cases dstIP) as [->|(?&?&?&?&?&?&?&?&?&?&?&?&?&?&?&?& ->)];
      split; reflexivity. }
  rewrite !go_bind_Ret.
  change (Z.shiftr (byteZ (Zbyte 96)) 4 =? 4) with false.
  change (Z.shiftr (byteZ (Zbyte 96)) 4 =? 6) with true. cbv iota.
  rewrite !go_bind_Ret. cbv iota beta.
  change (negb (byteZ (Zbyte 6) =? 6)) with false. cbv iota.
  destruct (Z.ltb_spec (len ip + len tcp) (40 + 20)); [lia|].
  rewrite slice_from_app by (symmetry; exact Hip). rewrite go_bind_Ret.
  apply parse_tcpHeader; assumption.
Qed.

Lemma To4_length (ip ip4 : list byte) : To4 ip = Some ip4 -> length ip4 = 4%nat.
Proof.
  intros H. destruct (To4_cases ip) as [H'|(a & b & c & d & H')];
    rewrite H' in H; [discriminate|]. injection H as <-. reflexivity.
Qed.

Lemma To16_length (ip ip16 : list byte) : To16 ip = Some ip16 -> length ip16 = 16%nat.
Proof.
  intros H. destruct (To16_cases ip) as [H'|(?&?&?&?&?&?&?&?&?&?&?&?&?&?&?&?& H')];
    rewrite H' in H; [discriminate|]. injection H as <-. reflexivity.
Qed.

Lemma calculateChecksum_app {E} (pseudoHeader tcpSegment : list byte) (k : nat) :
  length pseudoHeader = (2 * k)%nat ->
  calculateChecksum (E := E) pseudoHeader tcpSegment
  = calculateChecksumSimple (pseudoHeader ++ tcpSegment).
Proof.
  intros Hk. rewrite (calculateChecksum_Ret _ _ k Hk), calculateChecksumSimple_Ret.
  rewrite (wordSum_app k) by exact Hk. reflexivity.
Qed.

Lemma ipv4Header_verifies {E} (srcIP dstIP : list byte) (totalLen : Z) :
  let hdr := ipv4Header srcIP dstIP totalLen in
  calculateChecksumSimple (E := E) (hdr (65535 - onesFold (uint32 (wordSum (hdr 0))))) = Ret 0.
Proof.
  intros hdr. rewrite calculateChecksumSimple_Ret. f_equal.
  unfold hdr, ipv4Header.
  set (pre := [Zbyte 69; Zbyte 0] ++ word16 (uint16 totalLen) ++ word16 0 ++ word16 16384
              ++ [Zbyte 64; Zbyte 6]).
  set (post := copy (make 4) (orNil (To4 srcIP)) ++ copy (make 4) (orNil (To4 dstIP))).
  pose proof (wordSum_bound (pre ++ word16 0 ++ post)) as Hb.
  assert (len (pre ++ word16 0 ++ post) = 20) as Hlen
    by (unfold len; apply (f_equal Z.of_nat (len_ipv4Header srcIP dstIP totalLen 0))).
  rewrite Hlen in Hb. change ((20 + 1) / 2) with 10 in Hb.
  destruct (checksum_field 5 pre post 0) as [_ Hv]; [reflexivity|lia|lia|].
  rewrite !Z.add_0_l in Hv. exact Hv.
Qed.

Lemma tcpHeader_verifies {E} (pseudo : list byte) (k : nat)
    (srcPort dstPort seq ack flags : Z) (wscale : bool) (payload : list byte) :
  length pseudo = (2 * k)%nat -> len pseudo <= 40 -> len payload <= 65535 ->
  let hdr := tcpHeader srcPort dstPort seq ack flags wscale in
  calculateChecksum (E := E) pseudo
    (hdr (65535 - onesFold (uint32 (wordSum pseudo + wordSum (hdr 0 ++ payload)))) ++ payload)
  = Ret 0.
Proof.
  intros Hk H40 Hp hdr. rewrite (calculateChecksum_Ret _ _ k Hk). f_equal.
  unfold hdr, tcpHeader.
  set (pre := word16 (uint16 srcPort) ++ word16 (uint16 dstPort) ++ word32 seq ++ word32 ack
              ++ [Zbyte (if wscale then 96 else 80); Zbyte flags] ++ word16 65535).
  set (opts := word16 0 ++ (if wscale then [Zbyte 1; Zbyte 3; Zbyte 3; Zbyte 14] else [])).
  assert (forall c, (pre ++ word16 c ++ opts) ++ payload
                    = pre ++ word16 c ++ (opts ++ payload)) as Hassoc
    by (intros c; rewrite <- !app_assoc; reflexivity).
  rewrite !Hassoc.
  set (post := opts ++ payload).
  pose proof (wordSum_bound pseudo) as Hbp.
  pose proof (wordSum_bound (pre ++ word16 0 ++ post)) as Hb.
  pose proof (len_nonneg payload) as Hp0. pose proof (len_nonneg pseudo) as Hp1.
  assert (len (pre ++ word16 0 ++ post) <= 24 + len payload) as Hlen.
  { unfold post, opts. rewrite !len_app. unfold len. destruct wscale; simpl; lia. }
  assert ((len pseudo + 1) / 2 < 21) by (apply Z.div_lt_upper_bound; lia).
  assert ((len (pre ++ word16 0 ++ post) + 1) / 2 < 32781)
    by (apply Z.div_lt_upper_bound; lia).
  destruct (checksum_field 8 pre post (wordSum pseudo)) as [_ Hv];
    [reflexivity|lia|nia|].
  exact Hv.
Qed.

End CodecFacts.

(** ** Package faketcp: properties of the packet builder *)

Section CodecProperties.
Import FakeTCP.


(** X2.  [ParseTCPPacket] reads back what [BuildTCPPacket] was given: for a
    sequence number and an acknowledgement number of 32 bits and flags of 8
    bits, the packet built parses to the ports (as 16-bit numbers), the two
    numbers, the flags, the window 0xffff and the payload; [IsIPv6] tells
    whether [To4] of the local address is nil; the two addresses come back in
    their 4-byte form when both have one, and in their 16-byte form when the
    local address has no 4-byte form. *)
Theorem ParseTCPPacket_BuildTCPPacket (localAddr remoteAddr : UDPAddr) (seq ack flags : Z)
    (payload : list byte) :
  0 <= seq < 2 ^ 32 -> 0 <= ack < 2 ^ 32 -> 0 <= flags < 256 ->
  exists buf pkt,
    BuildTCPPacket (E := Empty_set) localAddr remoteAddr seq ack flags payload = Ret buf /\
    ParseTCPPacket buf = Ret (Some pkt) /\
    SrcPort pkt = uint16 (Port localAddr) /\ DstPort pkt = uint16 (Port remoteAddr) /\
    Seq pkt = seq /\ Ack pkt = ack /\ Flags pkt = flags /\ Window pkt = 65535 /\
    Payload pkt = payload /\
    IsIPv6 pkt = bool_decide (To4 (IP localAddr) = None) /\
    (forall local4 remote4,
       To4 (IP localAddr) = Some local4 -> To4 (IP remoteAddr) = Some remote4 ->
       SrcIP pkt = local4 /\ DstIP pkt = remote4) /\
    (forall local16 remote16,
       To4 (IP localAddr) = None ->
       To16 (IP localAddr) = Some local16 -> To16 (IP remoteAddr) = Some remote16 ->
       SrcIP pkt = local16 /\ DstIP pkt = remote16).
Proof.
  intros Hseq Hack Hflags.
  destruct (BuildTCPPacket_Ret (E := Empty_set) localAddr remoteAddr seq ack flags payload)
    as (pseudo & k & _ & _ & Hbuild).
  cbv zeta in Hbuild. rewrite Hbuild.
  case_bool_decide as Hv6; eexists; eexists; (split; [reflexivity|]).
  - rewrite ParseTCPPacket_ipv6Header by assumption.
    split; [reflexivity|]. simpl. repeat (split; [reflexivity|]). split.
    + intros l4 r4 Hl. rewrite Hv6 in Hl. discriminate.
    + intros l16 r16 _ Hl Hr. rewrite Hl, Hr. simpl.
      split; apply copy_full; [rewrite (To16_length _ _ Hl)|rewrite (To16_length _ _ Hr)];
        reflexivity.
  - rewrite ParseTCPPacket_ipv4Header by assumption.
    split; [reflexivity|]. simpl. repeat (split; [reflexivity|]). split.
    + intros l4 r4 Hl Hr. rewrite Hl, Hr. simpl.
      split; apply copy_full; [rewrite (To4_length _ _ Hl)|rewrite (To4_length _ _ Hr)];
        reflexivity.
    + intros l16 r16 Hl. contradiction.
Qed.

(** X3.  The IPv4 header that [BuildTCPPacket] writes verifies: the checksum
    of the first 20 bytes of the packet, taken with the checksum field as
    written, is zero. *)
Theorem BuildTCPPacket_ipv4_checksum (localAddr remoteAddr : UDPAddr) (seq ack flags : Z)
    (payload buf : list byte) :
  To4 (IP localAddr) <> None ->
  BuildTCPPacket (E := Empty_set) localAddr remoteAddr seq ack flags payload = Ret buf ->
  calculateChecksumSimple (E := Empty_set) (take (Z.to_nat IPv4HeaderLen) buf) = Ret 0.
Proof.
  intros Hv4 Hbuf.
  destruct (BuildTCPPacket_Ret (E := Empty_set) localAddr remoteAddr seq ack flags payload)
    as (pseudo & k & _ & _ & Hbuild).
  cbv zeta in Hbuild. rewrite Hbuild in Hbuf. apply Ret_inj in Hbuf. subst buf.
  rewrite bool_decide_eq_false_2 by exact Hv4.
  replace (Z.to_nat IPv4HeaderLen) with (length (ipv4Header (IP localAddr) (IP remoteAddr)
    (20 + ((if negb (Z.land flags SYN =? 0) then 24 else 20) + len payload))
    (65535 - onesFold (uint32 (wordSum (ipv4Header (IP localAddr) (IP remoteAddr)
      (20 + ((if negb (Z.land flags SYN =? 0) then 24 else 20) + len payload)) 0))))))
    by (rewrite len_ipv4Header; reflexivity).
  rewrite take_app_length. apply ipv4Header_verifies.
Qed.

(** X4.  The TCP segment that [BuildTCPPacket] writes verifies: for a payload
    of at most 65535 bytes, the checksum of the pseudo header of the two
    addresses and the segment length, followed by the segment with its
    checksum field as written, is zero. *)
Theorem BuildTCPPacket_tcp_checksum (localAddr remoteAddr : UDPAddr) (seq ack flags : Z)
    (payload buf : list byte) :
  len payload <= 65535 ->
  BuildTCPPacket (E := Empty_set) localAddr remoteAddr seq ack flags payload = Ret buf ->
  let ipHeaderLen :=
    if bool_decide (To4 (IP localAddr) = None) then IPv6HeaderLen else IPv4HeaderLen in
  let segment := drop (Z.to_nat ipHeaderLen) buf in
  (pseudoHeader ← buildPseudoHeader (E := Empty_set) (IP localAddr) (IP remoteAddr)
                    (len segment);
   calculateChecksum pseudoHeader segment) = Ret 0.
Proof.
  intros Hp Hbuf ipHeaderLen segment.
  destruct (BuildTCPPacket_Ret (E := Empty_set) localAddr remoteAddr seq ack flags payload)
    as (pseudo & k & Hpseudo & Hk & Hbuild).
  cbv zeta in Hbuild. rewrite Hbuild in Hbuf. apply Ret_inj in Hbuf. subst buf.
  set (ip := if bool_decide (To4 (IP localAddr) = None) then _ else _) in segment.
  assert (Z.to_nat ipHeaderLen = length ip) as Hip.
  { unfold ip, ipHeaderLen. case_bool_decide;
      [rewrite len_ipv6Header|rewrite len_ipv4Header]; reflexivity. }
  unfold segment. rewrite Hip, drop_app_length.
  assert (len (tcpHeader (Port localAddr) (Port remoteAddr) seq ack flags
                 (negb (Z.land flags SYN =? 0))
                 (65535 - onesFold (uint32 (wordSum pseudo + wordSum
                   (tcpHeader (Port localAddr) (Port remoteAddr) seq ack flags
                      (negb (Z.land flags SYN =? 0)) 0 ++ payload)))) ++ payload)
          = (if negb (Z.land flags SYN =? 0) then 24 else 20) + len payload) as ->.
  { rewrite len_app. unfold len at 1. rewrite len_tcpHeader.
    destruct (negb (Z.land flags SYN =? 0)); reflexivity. }
  rewrite Hpseudo, go_bind_Ret.
  apply (tcpHeader_verifies pseudo k); [exact Hk| |exact Hp].
  destruct (buildPseudoHeader_Ret (E := Empty_set) (IP localAddr) (IP remoteAddr)
              ((if negb (Z.land flags SYN =? 0) then 24 else 20) + len payload))
    as (pseudo' & Hpseudo' & Hlen).
  rewrite Hpseudo in Hpseudo'. injection Hpseudo' as <-. lia.
Qed.

(** X5.  Both checksum functions return for all data, a number of 16 bits,
    and never panic; the loop that folds the carries ends.  With a pseudo
    header of even length, [calculateChecksum] is [calculateChecksumSimple]
    of the pseudo header followed by the segment. *)
Theorem calculateChecksum_concat (pseudoHeader segment : list byte) :
  Z.rem (len pseudoHeader) 2 = 0 ->
  exists checksum,
    calculateChecksum (E := Empty_set) pseudoHeader segment = Ret checksum /\
    calculateChecksumSimple (E := Empty_set) (pseudoHeader ++ segment) = Ret checksum /\
    0 <= checksum <= 65535.
Proof.
  intros Heven. pose proof (len_nonneg pseudoHeader) as Hl.
  assert (length pseudoHeader = (2 * Z.to_nat (len pseudoHeader / 2))%nat) as Hk.
  { rewrite Z.rem_mod_nonneg in Heven by lia.
    pose proof (Z.div_mod (len pseudoHeader) 2 ltac:(lia)) as Hdm.
    assert (0 <= len pseudoHeader / 2) by (apply Z.div_pos; lia).
    unfold len in *. lia. }
  rewrite (calculateChecksum_app _ _ _ Hk), calculateChecksumSimple_Ret.
  eexists. split; [reflexivity|]. split; [reflexivity|].
  pose proof (onesFold_range (uint32 (wordSum (pseudoHeader ++ segment)))
                (proj1 (uint32_range _))). lia.
Qed.

End CodecProperties.

Section CodecWitnesses.
Import FakeTCP Sample.

Lemma ParseTCPPacket_BuildTCPPacket_witness :
  exists buf pkt,
    BuildTCPPacket (E := Empty_set) localAddr remoteAddr 4294967295 7 (Z.lor SYN ACK)
      [Byte.x68; Byte.x69] = Ret buf /\
    ParseTCPPacket buf = Ret (Some pkt) /\
    SrcPort pkt = uint16 (Port localAddr) /\ DstPort pkt = uint16 (Port remoteAddr) /\
    Seq pkt = 4294967295 /\ Ack pkt = 7 /\ Flags pkt = Z.lor SYN ACK /\
    Window pkt = 65535 /\
    Payload pkt = [Byte.x68; Byte.x69] /\
    IsIPv6 pkt = bool_decide (To4 (IP localAddr) = None) /\
    (forall local4 remote4,
       To4 (IP localAddr) = Some local4 -> To4 (IP remoteAddr) = Some remote4 ->
       SrcIP pkt = local4 /\ DstIP pkt = remote4) /\
    (forall local16 remote16,
       To4 (IP localAddr) = None ->
       To16 (IP localAddr) = Some local16 -> To16 (IP remoteAddr) = Some remote16 ->
       SrcIP pkt = local16 /\ DstIP pkt = remote16).
Proof.
  apply (ParseTCPPacket_BuildTCPPacket localAddr remoteAddr 4294967295 7 (Z.lor SYN ACK)
           [Byte.x68; Byte.x69]); vm_compute; (split; [discriminate|reflexivity]).
Defined.

Lemma BuildTCPPacket_ipv4_checksum_witness :
  To4 (IP localAddr) <> None /\
  match BuildTCPPacket (E := Empty_set) localAddr remoteAddr 1000 0 SYN [] with
  | Ret buf => calculateChecksumSimple (E := Empty_set) (take (Z.to_nat IPv4HeaderLen) buf) = Ret 0
  | _ => False
  end.
Proof.
  split; [discriminate|].
  destruct (BuildTCPPacket (E := Empty_set) localAddr remoteAddr 1000 0 SYN []) as [buf| | |] eqn:Hbuf;
    try (vm_compute in Hbuf; discriminate Hbuf).
  apply (BuildTCPPacket_ipv4_checksum localAddr remoteAddr 1000 0 SYN [] buf);
    [discriminate|exact Hbuf].
Defined.

Lemma BuildTCPPacket_tcp_checksum_witness :
  let payload := [Byte.x68; Byte.x69; Byte.x21] in
  len payload <= 65535 /\
  match BuildTCPPacket (E := Empty_set) localAddr remoteAddr 1000 2000 ACK payload with
  | Ret buf =>
    let ipHeaderLen :=
      if bool_decide (To4 (IP localAddr) = None) then IPv6HeaderLen else IPv4HeaderLen in
    let segment := drop (Z.to_nat ipHeaderLen) buf in
    (pseudoHeader ← buildPseudoHeader (E := Empty_set) (IP localAddr) (IP remoteAddr)
                      (len segment);
     calculateChecksum pseudoHeader segment) = Ret 0
  | _ => False
  end.
Proof.
  intros payload. split; [vm_compute; discriminate|].
  destruct (BuildTCPPacket (E := Empty_set) localAddr remoteAddr 1000 2000 ACK payload)
    as [buf| | |] eqn:Hbuf; try (vm_compute in Hbuf; discriminate Hbuf).
  apply (BuildTCPPacket_tcp_checksum localAddr remoteAddr 1000 2000 ACK payload buf);
    [vm_compute; discriminate|exact Hbuf].
Defined.

Lemma calculateChecksum_concat_witness :
  let pseudoHeader := [Byte.x0a; Byte.x00; Byte.x00; Byte.x01] in
  let segment := [Byte.xff; Byte.xfe; Byte.x80] in
  Z.rem (len pseudoHeader) 2 = 0 /\
  exists checksum,
    calculateChecksum (E := Empty_set) pseudoHeader segment = Ret checksum /\
    calculateChecksumSimple (E := Empty_set) (pseudoHeader ++ segment) = Ret checksum /\
    0 <= checksum <= 65535.
Proof.
  intros pseudoHeader segment. split; [reflexivity|].
  apply (calculateChecksum_concat pseudoHeader segment). reflexivity.
Defined.

(** The SYN of the sample addresses, 44 bytes: its IPv4 header checksum is
    0x26ca and its TCP checksum 0x766f, as the Internet checksum of RFC 1071
    gives for these headers. *)
Example BuildTCPPacket_syn :
  (buf ← BuildTCPPacket (E := Empty_set) localAddr remoteAddr 1000 0 SYN [];
   Ret (len buf, take 2 (drop 10 buf), take 2 (drop 36 buf)))
  = Ret (44, [Byte.x26; Byte.xca], [Byte.x76; Byte.x6f]).
Proof. vm_compute. reflexivity. Qed.

End CodecWitnesses.

(** ** Package faketcp: what Connect and Close leave behind *)

Section ConnectFacts.
Import FakeTCP.

(** What the loop of [Connect] can end with, and what it has done to the
    socket by then: [m] counts the SYN|ACK packets it took. *)
Lemma Connect_loop_result (env : nat -> Attempt) (n i : nat) (s : Socket) (w : World)
    (r : go error unit) (s' : Socket) (w' : World) :
  Connect_loop env n i s w = (r, s', w') ->
  stack s' = stack s /\ localAddr s' = localAddr s /\ remoteAddr s' = remoteAddr s /\
  closed s' = closed s /\ closeChan s' = closeChan s /\
  exists m : nat,
    (m <= n)%nat /\
    ((m = 0%nat /\ seq s' = seq s) \/
     ((1 <= m)%nat /\ seq s' = (seq s + Z.of_nat m) mod 2 ^ 32)) /\
    match r with
    | Ret _ =>
      state s' = StateEstablished /\ (1 <= m)%nat /\
      ((forall j, (i <= j < i + n)%nat -> ack_write_ok (env j) = true) -> m = 1%nat) /\
      exists j data pkt,
        (i <= j < i + n)%nat /\
        woke (env j) = RecvIncoming data /\
        ParseTCPPacket data = Ret (Some pkt) /\
        Flags pkt = Z.lor SYN ACK /\
        ack s' = uint32 (Seq pkt + 1) /\ lastAck s' = uint32 (Seq pkt + 1)
    | Fail e =>
      (e = ErrConnectTimeout RetryCount /\ state s' = StateClosed) \/
      (e = ErrClosedDuringConnect /\ state s' = state s)
    | Panic _ | Deadlock => False
    end.
Proof.
  revert i s w. induction n as [|n IH]; intros i s w Hrun.
  - simpl in Hrun. injection Hrun as <- <- <-. simpl.
    repeat (split; [reflexivity|]). exists 0%nat. split; [lia|]. split; [left; auto|].
    left. auto.
  - assert (forall i1 s1 w1,
              (stack s1 = stack s /\ localAddr s1 = localAddr s /\ remoteAddr s1 = remoteAddr s /\
               closed s1 = closed s /\ closeChan s1 = closeChan s /\ state s1 = state s) ->
              forall k : nat, (k <= 1)%nat ->
              ((k = 0%nat /\ seq s1 = seq s) \/
               (k = 1%nat /\ seq s1 = (seq s + 1) mod 2 ^ 32 /\ ack_write_ok (env i) = false)) ->
              i1 = S i ->
              Connect_loop env n i1 s1 w1 = (r, s', w') ->
              stack s' = stack s /\ localAddr s' = localAddr s /\
              remoteAddr s' = remoteAddr s /\
              closed s' = closed s /\ closeChan s' = closeChan s /\
              exists m : nat,
                (m <= S n)%nat /\
                ((m = 0%nat /\ seq s' = seq s) \/
                 ((1 <= m)%nat /\ seq s' = (seq s + Z.of_nat m) mod 2 ^ 32)) /\
                match r with
                | Ret _ =>
                  state s' = StateEstablished /\ (1 <= m)%nat /\
                  ((forall j, (i <= j < i + S n)%nat -> ack_write_ok (env j) = true) ->
                   m = 1%nat) /\
                  exists j data pkt,
                    (i <= j < i + S n)%nat /\
                    woke (env j) = RecvIncoming data /\
                    ParseTCPPacket data = Ret (Some pkt) /\
                    Flags pkt = Z.lor SYN ACK /\
                    ack s' = uint32 (Seq pkt + 1) /\ lastAck s' = uint32 (Seq pkt + 1)
                | Fail e =>
                  (e = ErrConnectTimeout RetryCount /\ state s' = StateClosed) \/
                  (e = ErrClosedDuringConnect /\ state s' = state s)
                | Panic _ | Deadlock => False
                end) as Hnext.
    { intros i1 s1 w1 (H1 & H2 & H3 & H4 & H5 & H6) k Hk Hseq -> Hrest.
      destruct (IH _ _ _ Hrest) as (G1 & G2 & G3 & G4 & G5 & m & Hm & Hs & Hr).
      rewrite G1, G2, G3, G4, G5, H1, H2, H3, H4, H5.
      repeat (split; [reflexivity|]).
      exists (k + m)%nat. split; [lia|]. split.
      { destruct Hseq as [[-> Hq]|(-> & Hq & _)]; destruct Hs as [[-> Hs]|[Hm1 Hs]].
        - left. split; [reflexivity|]. congruence.
        - right. split; [lia|]. rewrite Hs, Hq. reflexivity.
        - right. split; [lia|]. rewrite Hs, Hq. f_equal. 
        - right. split; [lia|]. rewrite Hs, Hq.
          rewrite Zplus_mod_idemp_l. f_equal. lia. }
      destruct r as [[]|e| |]; try contradiction.
      - destruct Hr as (Hst & Hm1 & Hone & j & data & pkt & Hj & Hr).
        split; [exact Hst|]. split; [lia|]. split.
        + intros Hall. destruct Hseq as [[-> _]|(-> & _ & Hfalse)].
          * rewrite Hone; [reflexivity|]. intros j' Hj'. apply Hall. lia.
          * rewrite Hall in Hfalse by lia. discriminate.
        + exists j, data, pkt. split; [lia|exact Hr].
      - destruct Hr as [Hr|[He Hr]]; [left; exact Hr|right].
        split; [exact He|]. congruence. }
    cbn [Connect_loop] in Hrun. unfold sendPacket in Hrun.
    destruct (syn_write_ok (env i)) eqn:Hsyn; cbn [fst snd] in Hrun.
    2:{ eapply (Hnext _ s _ ltac:(auto 10) 0%nat); [lia|left; auto|reflexivity|exact Hrun]. }
    destruct (woke (env i)) as [data| |] eqn:Hw.
    + destruct (ParseTCPPacket_returns data) as [[pkt|] Hp]; rewrite Hp in Hrun.
      2:{ eapply (Hnext _ s _ ltac:(auto 10) 0%nat); [lia|left; auto|reflexivity|exact Hrun]. }
      destruct (Z.eqb_spec (Flags pkt) (Z.lor SYN ACK)) as [Hfl|Hfl].
      2:{ eapply (Hnext _ s _ ltac:(auto 10) 0%nat); [lia|left; auto|reflexivity|exact Hrun]. }
      destruct (ack_write_ok (env i)) eqn:Hack; cbn [fst snd] in Hrun.
      * injection Hrun as <- <- <-. simpl.
        repeat (split; [reflexivity|]). exists 1%nat. split; [lia|].
        split; [right; split; [lia|reflexivity]|].
        split; [reflexivity|]. split; [lia|]. split; [reflexivity|].
        exists i, data, pkt. split; [lia|]. auto.
      * refine (Hnext _ _ _ _ 1%nat _ _ eq_refl Hrun); [simpl; auto 10|lia|].
        right. split; [reflexivity|]. split; reflexivity.
    + eapply (Hnext _ s _ ltac:(auto 10) 0%nat); [lia|left; auto|reflexivity|exact Hrun].
    + injection Hrun as <- <- <-.
      repeat (split; [reflexivity|]). exists 0%nat. split; [lia|]. split; [left; auto|].
      right. auto.
Qed.

End ConnectFacts.

Section CloseFacts.
Import FakeTCP.
Variable addr_string : UDPAddr -> string.

(** With the mutex of the stack held, the loop of [Stack.Close] blocks at
    the first socket that is open and attached to the stack, and only
    there. *)
Lemma closeSockets_held (entries : list (string * string * Socket)) (st : Stack) :
  mu st = true ->
  (Exists (fun e => closed e.2 = false /\ stack e.2 = true) entries /\
   (closeSockets addr_string entries st).1 = Deadlock) \/
  (Forall (fun e => closed e.2 = true \/ stack e.2 = false) entries /\
   (closeSockets addr_string entries st).1 = Ret ()).
Proof.
  revert st. induction entries as [|[tuple sock] rest IH]; intros st Hmu.
  - right. split; [constructor|reflexivity].
  - cbn [closeSockets]. unfold Socket_Close.
    destruct (closed sock) eqn:Hc.
    + destruct (IH (if bool_decide (is_Some (sockets st !! tuple))
                    then set_sockets (<[tuple := sock]> (sockets st)) st else st))
        as [[Hex Hr]|[Hall Hr]].
      * case_bool_decide; exact Hmu.
      * left. split; [apply Exists_cons_tl; exact Hex|exact Hr].
      * right. split; [constructor; [left; exact Hc|exact Hall]|exact Hr].
    + change (stack (mark_closed sock)) with (stack sock).
      destruct (stack sock) eqn:Hs.
      * unfold unregisterSocket, Lock. rewrite Hmu. left.
        split; [apply Exists_cons_hd; auto|reflexivity].
      * destruct (IH (if bool_decide (is_Some (sockets st !! tuple))
                      then set_sockets (<[tuple := mark_closed sock]> (sockets st)) st
                      else st))
          as [[Hex Hr]|[Hall Hr]].
        -- case_bool_decide; exact Hmu.
        -- left. split; [apply Exists_cons_tl; exact Hex|exact Hr].
        -- right. split; [constructor; [right; exact Hs|exact Hall]|exact Hr].
Qed.

End CloseFacts.

(** ** Package faketcp: properties of sockets and of the stack *)

Section SocketProperties.
Import FakeTCP.

(** X6.  A [Connect] that returns nil was called in [StateIdle] and leaves
    the socket in [StateEstablished].  It took a SYN|ACK packet from the
    queue in one of its six attempts, and [ack] and [lastAck] are the
    sequence number of that packet plus one.  [seq] has moved forward by the
    number of SYN|ACK packets taken, modulo 2^32: by one when no write of an
    ACK failed, by more when the ACK for an earlier SYN|ACK could not be
    written.  Addresses and the closed flag are as they were. *)
Theorem Connect_success (env : nat -> Attempt) (s s' : Socket) (w w' : World) :
  Socket_Connect env s w = (Ret (), s', w') ->
  state s = StateIdle /\ state s' = StateEstablished /\
  (exists m,
     1 <= m <= RetryCount /\ seq s' = (seq s + m) mod 2 ^ 32 /\
     ((forall j, (j < Z.to_nat RetryCount)%nat -> ack_write_ok (env j) = true) -> m = 1)) /\
  (exists j data pkt,
     (j < Z.to_nat RetryCount)%nat /\
     woke (env j) = RecvIncoming data /\
     ParseTCPPacket data = Ret (Some pkt) /\ Flags pkt = Z.lor SYN ACK /\
     ack s' = uint32 (Seq pkt + 1) /\ lastAck s' = uint32 (Seq pkt + 1)) /\
  localAddr s' = localAddr s /\ remoteAddr s' = remoteAddr s /\ closed s' = closed s.
Proof.
  unfold Socket_Connect. case_bool_decide as Hidle; cbn [negb]; [|discriminate].
  intros Hrun. apply Connect_loop_result in Hrun.
  cbn [set_state stack localAddr remoteAddr closed closeChan seq] in Hrun.
  destruct Hrun as (_ & Hl & Hr & Hc & _ & m & Hm & Hseq & Hst & Hm1 & Hone & j & data & pkt
                    & Hj & Hrest).
  split; [exact Hidle|]. split; [exact Hst|]. split; [|split; [|auto]].
  - exists (Z.of_nat m). unfold RetryCount in *.
    split; [lia|]. split.
    + destruct Hseq as [[-> _]|[_ Hseq]]; [lia|exact Hseq].
    + intros Hall. rewrite Hone; [reflexivity|]. intros j' Hj'. apply Hall. lia.
  - exists j, data, pkt. split; [lia|exact Hrest].
Qed.

(** X7.  [Connect] returns: with nil or with an error, without a panic.
    Whatever it returns, the socket is not in [StateIdle] afterwards, so a
    second [Connect] on the socket fails with "socket not in idle state" and
    writes nothing. *)
Theorem Connect_not_twice (env env' : nat -> Attempt) (s : Socket) (w : World) :
  let '(r, s1, w1) := Socket_Connect env s w in
  (r = Ret () \/ exists e, r = Fail e) /\
  state s1 <> StateIdle /\
  Socket_Connect env' s1 w1 = (Fail ErrNotIdle, s1, w1).
Proof.
  destruct (Socket_Connect env s w) as [[r s1] w1] eqn:Hrun.
  assert ((r = Ret () \/ exists e, r = Fail e) /\ state s1 <> StateIdle) as [Hr Hst].
  { unfold Socket_Connect in Hrun. case_bool_decide as Hidle; cbn [negb] in Hrun.
    - apply Connect_loop_result in Hrun.
      cbn [set_state state] in Hrun.
      destruct Hrun as (_ & _ & _ & _ & _ & m & _ & _ & Hres).
      destruct r as [[]|e| |]; try contradiction.
      + destruct Hres as (Hst & _). split; [auto|]. rewrite Hst. discriminate.
      + split; [eauto|]. destruct Hres as [[_ Hst]|[_ Hst]]; rewrite Hst; discriminate.
    - injection Hrun as <- <- <-. split; [eauto|exact Hidle]. }
  split; [exact Hr|]. split; [exact Hst|].
  unfold Socket_Connect. case_bool_decide; [contradiction|reflexivity].
Qed.

(** X8.  [Socket.Close] can be called again: after it has run, whatever it
    returned, the closed flag is set, and a second call returns nil and
    changes neither the socket nor the stack.  On an open socket the first
    call sets [StateClosed] and closes [closeChan]; [seq], [ack] and the
    addresses stay.  When the socket is attached to a stack whose mutex is
    free, the call returns nil and the stack has lost the entry of the
    socket's address pair and no other; when the mutex is held, the call
    blocks. *)
Theorem Socket_Close_again (addr_string : UDPAddr -> string) (s : Socket) (st : Stack) :
  let '(r, s1, st1) := Socket_Close addr_string s st in
  closed s1 = true /\
  Socket_Close addr_string s1 st1 = (Ret (), s1, st1) /\
  (closed s = false ->
     state s1 = StateClosed /\ closeChan s1 = true /\
     seq s1 = seq s /\ ack s1 = ack s /\
     localAddr s1 = localAddr s /\ remoteAddr s1 = remoteAddr s) /\
  (closed s = false -> stack s = true -> mu st = false ->
     r = Ret () /\ mu st1 = false /\
     sockets st1 = delete (newAddrTuple addr_string (localAddr s) (remoteAddr s))
                     (sockets st)) /\
  (closed s = false -> stack s = true -> mu st = true -> r = Deadlock) /\
  (closed s = false -> stack s = false -> r = Ret () /\ st1 = st).
Proof.
  destruct (Socket_Close addr_string s st) as [[r s1] st1] eqn:Hclose.
  pose proof (Socket_Close_closed addr_string s st) as Hc. rewrite Hclose in Hc. simpl in Hc.
  split; [exact Hc|]. split; [unfold Socket_Close; rewrite Hc; reflexivity|].
  unfold Socket_Close in Hclose. destruct (closed s) eqn:Hcs.
  { repeat split; intros; discriminate. }
  change (stack (mark_closed s)) with (stack s) in Hclose.
  change (localAddr (mark_closed s)) with (localAddr s) in Hclose.
  change (remoteAddr (mark_closed s)) with (remoteAddr s) in Hclose.
  assert (s1 = mark_closed s) as ->.
  { destruct (stack s); [destruct (unregisterSocket _ _ _ _)|]; congruence. }
  split; [intros _; repeat split|].
  split; [|split].
  - intros _ Hs Hmu. rewrite Hs, (unregisterSocket_Ret addr_string st _ _ Hmu) in Hclose.
    injection Hclose as <- <-. repeat split.
  - intros _ Hs Hmu. rewrite Hs in Hclose. unfold unregisterSocket, Lock in Hclose.
    rewrite Hmu in Hclose. simpl in Hclose. congruence.
  - intros _ Hs. rewrite Hs in Hclose. injection Hclose as <- <-. auto.
Qed.

(** X9.  A first [Stack.Close] does not return while the map of the stack
    holds a socket that is open and attached to the stack: the loop over the
    sockets runs with the mutex held, and [Socket.Close] of such a socket
    asks [unregisterSocket] for the same mutex. *)
Theorem Stack_Close_blocks (addr_string : UDPAddr -> string) (st : Stack)
    (tuple : string * string) (sock : Socket) :
  stopChan st = false ->
  sockets st !! tuple = Some sock -> closed sock = false -> stack sock = true ->
  (Stack_Close addr_string st).1 = Deadlock.
Proof.
  intros Hstop Hsock Hopen Hatt. unfold Stack_Close, Lock. rewrite Hstop.
  cbn [mu set_tuns set_stopChan]. destruct (mu st) eqn:Hmu; [reflexivity|].
  set (st1 := set_mu true _).
  destruct (closeSockets_held addr_string (map_to_list (sockets st1)) st1 eq_refl)
    as [[_ Hr]|[Hall Hr]].
  - destruct (closeSockets addr_string _ st1) as [r st2]. simpl in Hr. subst r. reflexivity.
  - exfalso. rewrite Forall_forall in Hall.
    specialize (Hall (tuple, sock)). simpl in Hall.
    destruct Hall as [H|H]; [|congruence|congruence].
    apply elem_of_map_to_list. exact Hsock.
Qed.

(** X10.  A [Stack.Connect] that returns a socket has registered it: the map
    of the stack is the old one with the socket under the pair of its
    addresses, the mutex is free again, and the socket is attached to the
    stack, open, in [StateEstablished], with the local IP chosen for the
    remote address and the local port asked for. *)
Theorem Stack_Connect_registers (addr_string : UDPAddr -> string) (st st' : Stack)
    (localPort : Z) (remoteAddr : UDPAddr) (isn : Z) (env : nat -> Attempt)
    (w w' : World) (sock : Socket) :
  Stack_Connect addr_string st localPort remoteAddr isn env w = (Ret sock, st', w') ->
  exists localIP,
    chooseLocalIP st remoteAddr = Some localIP /\
    FakeTCP.localAddr sock = {| IP := localIP; Port := localPort |} /\
    FakeTCP.remoteAddr sock = remoteAddr /\
    state sock = StateEstablished /\ stack sock = true /\ closed sock = false /\
    sockets st' =
      <[newAddrTuple addr_string {| IP := localIP; Port := localPort |} remoteAddr := sock]>
        (sockets st) /\
    mu st = false /\ mu st' = false.
Proof.
  unfold Stack_Connect. destruct (chooseLocalIP st remoteAddr) as [localIP|]; [|discriminate].
  destruct (tuns st !! 0%nat) as [tun|]; [|discriminate].
  unfold Lock. destruct (mu st) eqn:Hmu; [discriminate|].
  set (sock0 := newSocket true _ remoteAddr 0 StateIdle isn).
  destruct (Socket_Connect env sock0 w) as [[r sock1] w1] eqn:Hrun.
  destruct r as [[]|e| |].
  - intros [= <- <- <-].
    destruct (Connect_success env sock0 sock1 w w1 Hrun)
      as (_ & Hst & _ & _ & Hl & Hr & Hc).
    exists localIP. split; [reflexivity|]. split; [exact Hl|]. split; [exact Hr|].
    split; [exact Hst|].
    assert (stack sock1 = true) as Hstack.
    { unfold Socket_Connect in Hrun. cbn [negb bool_decide] in Hrun.
      change (state sock0) with StateIdle in Hrun.
      rewrite bool_decide_eq_true_2 in Hrun by reflexivity. cbn [negb] in Hrun.
      apply Connect_loop_result in Hrun. destruct Hrun as (H & _). exact H. }
    split; [exact Hstack|]. split; [exact Hc|].
    split; [|split; reflexivity].
    cbn [sockets set_sockets Unlock set_mu]. apply insert_insert_eq.
  - destruct (unregisterSocket _ _ _ _); discriminate.
  - discriminate.
  - discriminate.
Qed.

End SocketProperties.

Section SocketWitnesses.
Import FakeTCP Sample.

Lemma Connect_success_witness :
  match Socket_Connect answering idleSocket world0 with
  | (Ret _, s', w') =>
    state idleSocket = StateIdle /\ state s' = StateEstablished /\
    (exists m,
       1 <= m <= RetryCount /\ seq s' = (seq idleSocket + m) mod 2 ^ 32 /\
       ((forall j, (j < Z.to_nat RetryCount)%nat -> ack_write_ok (answering j) = true) ->
        m = 1)) /\
    (exists j data pkt,
       (j < Z.to_nat RetryCount)%nat /\
       woke (answering j) = RecvIncoming data /\
       ParseTCPPacket data = Ret (Some pkt) /\ Flags pkt = Z.lor SYN ACK /\
       ack s' = uint32 (Seq pkt + 1) /\ lastAck s' = uint32 (Seq pkt + 1)) /\
    FakeTCP.localAddr s' = FakeTCP.localAddr idleSocket /\
    FakeTCP.remoteAddr s' = FakeTCP.remoteAddr idleSocket /\
    closed s' = closed idleSocket
  | _ => False
  end.
Proof.
  destruct (Socket_Connect answering idleSocket world0) as [[r s'] w'] eqn:Hrun.
  destruct r as [[]|e| |]; try (vm_compute in Hrun; discriminate Hrun).
  apply (Connect_success answering idleSocket s' world0 w'). exact Hrun.
Defined.

Lemma Stack_Close_blocks_witness :
  stopChan stack2 = false /\
  sockets stack2 !! newAddrTuple addrString Sample.localAddr Sample.remoteAddr
    = Some idleSocket /\
  closed idleSocket = false /\ stack idleSocket = true /\
  (Stack_Close addrString stack2).1 = Deadlock.
Proof.
  assert (sockets stack2 !! newAddrTuple addrString Sample.localAddr Sample.remoteAddr
          = Some idleSocket) as Hsock by apply lookup_insert_eq.
  split; [reflexivity|]. split; [exact Hsock|]. split; [reflexivity|]. split; [reflexivity|].
  apply (Stack_Close_blocks addrString stack2
           (newAddrTuple addrString Sample.localAddr Sample.remoteAddr) idleSocket);
    [reflexivity|exact Hsock|reflexivity|reflexivity].
Defined.

Lemma Stack_Connect_registers_witness :
  match Stack_Connect addrString stack1 3001 Sample.remoteAddr 1000 answering world0 with
  | (Ret sock, st', w') =>
    exists localIP,
      chooseLocalIP stack1 Sample.remoteAddr = Some localIP /\
      FakeTCP.localAddr sock = {| IP := localIP; Port := 3001 |} /\
      FakeTCP.remoteAddr sock = Sample.remoteAddr /\
      state sock = StateEstablished /\ stack sock = true /\ closed sock = false /\
      sockets st' =
        <[newAddrTuple addrString {| IP := localIP; Port := 3001 |} Sample.remoteAddr := sock]>
          (sockets stack1) /\
      mu stack1 = false /\ mu st' = false
  | _ => False
  end.
Proof.
  destruct (Stack_Connect addrString stack1 3001 Sample.remoteAddr 1000 answering world0)
    as [[r st'] w'] eqn:Hrun.
  destruct r as [sock|e| |]; try (vm_compute in Hrun; discriminate Hrun).
  apply (Stack_Connect_registers addrString stack1 st' 3001 Sample.remoteAddr 1000
           answering world0 w' sock). exact Hrun.
Defined.

(** When the ACK for the first SYN|ACK cannot be written, [Connect] goes on
    and takes a second SYN|ACK: it returns nil with [seq] two above where it
    started. *)
Example Connect_second_SynAck :
  let env := fun i : nat =>
    {| syn_write_ok := true; woke := RecvIncoming synAck; wait := 0;
       ack_write_ok := negb (Nat.eqb i 0) |} in
  let '(r, s, w) := Socket_Connect env idleSocket world0 in
  r = Ret () /\ state s = StateEstablished /\
  seq idleSocket = 1000 /\ seq s = 1002 /\ length (writes w) = 4%nat.
Proof. vm_compute. repeat split. Qed.

End SocketWitnesses.

(** ** Package obfuscation: what Encrypt and Decrypt never do *)

Section ObfuscationMore.
Import Obfuscation.
Context {C : Crypto} {HC : CryptoLaws C}.

(** X11.  [Encrypt] never panics, and it has one error.  Under a handler the
    constructor returned, enabled or not, for a size the AEAD can take,
    [Encrypt] either returns a packet that is at least as long as the one it
    was given, or fails with "control packet is too large"; it fails only on
    an enabled handler, for a control packet of at least 16 bytes that is
    longer than [maxControlPacketSize] or has more than 65535 bytes behind
    its first block. *)
Theorem Encrypt_never_panics
    (psk : list byte) (mps : Z) (en : bool) (h : ZeroOverheadHandler)
    (rnd : Entropy) (P : list byte) :
  EntropyLaws rnd ->
  NewZeroOverheadHandler psk mps en = Ret h ->
  0 <= mps <= chacha20poly1305_maxPlaintext ->
  len P <= maxAlloc ->
  (exists c, Encrypt h rnd P = Ret c /\ len P <= len c) \/
  (Encrypt h rnd P = Fail ErrControlPacketTooLarge /\
   en = true /\ 16 <= len P /\
   (exists b0, P !! 0%nat = Some b0 /\ 1 <= byteZ b0 <= 6) /\
   (maxControlPacketSize h < len P \/ 65535 < len P - 16)).
Proof.
  intros HR Hnew Hmps HPmax. destruct en.
  2:{ apply NewZeroOverheadHandler_disabled in Hnew.
      left. exists P. unfold Encrypt. rewrite Hnew. split; [reflexivity|lia]. }
  assert (0 <= mps <= max_int) as Hint
    by (unfold chacha20poly1305_maxPlaintext, max_int in *; lia).
  destruct (NewZeroOverheadHandler_ready psk mps h Hnew) as (_ & _ & _ & blk & a & Hr).
  destruct (Z.lt_ge_cases (len P) 16) as [Hshort|HP].
  { left. exists P. unfold Encrypt. rewrite (ready_enabled _ _ _ Hr). cbn [negb].
    destruct (Z.ltb_spec (len P) aes_BlockSize) as [_|Hge];
      [split; [reflexivity|lia] | unfold aes_BlockSize in Hge; lia]. }
  assert (exists b0, P !! 0%nat = Some b0) as [b0 Hb0].
  { destruct (P !! 0%nat) eqn:E; [eauto|].
    apply lookup_ge_None in E. unfold len in HP. lia. }
  destruct (isControlPacket b0) eqn:Hk.
  2:{ left. eexists. split; [eapply Encrypt_data; eassumption|].
      pose proof (Block_Encrypt_length _ (ready_Block _ _ _ Hr) _ (take_16_length P HP)) as HE.
      unfold len in *. rewrite length_app, length_drop. lia. }
  destruct (paddingHeadroom_exact psk mps h P Hnew Hint HPmax) as [Hmax Hwrap].
  set (headroom := maxControlPacketSize h - len P) in *.
  destruct (Z.lt_ge_cases headroom 0) as [Hneg|Hroom];
    [|destruct (Z.lt_ge_cases 65535 (len P - 16)) as [Hbig|Hrem]].
  - right. split; [|split; [reflexivity|split; [exact HP|split]]].
    + rewrite (Encrypt_control h blk a rnd P b0 Hr HP Hb0 Hk). cbv zeta.
      fold headroom. rewrite Hwrap.
      destruct (Z.ltb_spec headroom 0); [reflexivity|lia].
    + exists b0. split; [exact Hb0|]. apply isControlPacket_spec. exact Hk.
    + left. subst headroom. lia.
  - right. split; [|split; [reflexivity|split; [exact HP|split]]].
    + rewrite (Encrypt_control h blk a rnd P b0 Hr HP Hb0 Hk). cbv zeta.
      fold headroom. rewrite Hwrap.
      destruct (Z.ltb_spec headroom 0); [reflexivity|].
      destruct (Z.gtb_spec (len P - 16) 65535); [reflexivity|lia].
    + exists b0. split; [exact Hb0|]. apply isControlPacket_spec. exact Hk.
    + right. exact Hbig.
  - left.
    assert (exists pad, choosePadding rnd headroom = Ret pad /\ 0 <= pad <= headroom)
      as (pad & Hpad & Hrange).
    { destruct (Z.eq_dec headroom 0) as [H0|Hne].
      - exists 0. split; [apply choosePadding_zero; lia|lia].
      - assert (headroom <= max_int)
          by (subst headroom; pose proof (len_nonneg P); unfold max_int in *; lia).
        destruct (choosePadding_pos rnd headroom HR ltac:(lia)) as (pad & Hpad & Hr').
        exists pad. split; [exact Hpad|lia]. }
    destruct (Encrypt_control_succeeds h blk a rnd P b0 pad Hr HP Hb0 Hk) as [c Henc];
      try (fold headroom; rewrite Hwrap); try assumption;
      try (subst headroom; unfold chacha20poly1305_maxPlaintext in *; lia).
    exists c. split; [exact Henc|].
    destruct (Encrypt_control_len h blk a rnd P c b0 Hr HP Hb0 Hk Henc) as (pad' & _ & ->).
    lia.
Qed.

(** X12.  [Decrypt] takes every data packet: under an enabled handler the
    constructor returned, a packet of at least 16 bytes whose first block
    deciphers to a first byte outside 1..6 is returned with that block
    deciphered and the rest as it is, whatever the rest holds; nothing of a
    data packet is authenticated, and the length stays. *)
Theorem Decrypt_data_zero_overhead
    (psk : list byte) (mps : Z) (h : ZeroOverheadHandler) (c : list byte) :
  NewZeroOverheadHandler psk mps true = Ret h ->
  16 <= len c ->
  exists blk b0,
    cb h = Some blk /\
    Block_Decrypt blk (take 16 c) !! 0%nat = Some b0 /\
    (~ (1 <= byteZ b0 <= 6) ->
     exists p, Decrypt h c = Ret p /\ len p = len c /\
       take 16 p = Block_Decrypt blk (take 16 c) /\ drop 16 p = drop 16 c).
Proof.
  intros Hnew Hc.
  destruct (NewZeroOverheadHandler_ready psk mps h Hnew) as (_ & _ & _ & blk & a & Hr).
  pose proof (Block_Decrypt_length _ (ready_Block _ _ _ Hr) _ (take_16_length c Hc)) as HD.
  destruct (Block_Decrypt blk (take 16 c) !! 0%nat) as [b0|] eqn:Hb0.
  2:{ apply lookup_ge_None in Hb0. lia. }
  exists blk, b0. split; [apply (ready_cb _ _ _ Hr)|]. split; [exact Hb0|].
  intros Hdata. apply isControlPacket_false in Hdata.
  eexists. split; [eapply Decrypt_data; eassumption|].
  split; [|split].
  - unfold len in *. rewrite length_app, length_drop. lia.
  - apply take_app_length'. lia.
  - apply drop_app_length'. lia.
Qed.

End ObfuscationMore.

Section ObfuscationMoreWitnesses.
Import Obfuscation Sample.

Lemma Encrypt_never_panics_witness :
  let P := packet Byte.x03 200 in
  (exists c, Encrypt (handler 100) entropy P = Ret c /\ len P <= len c) \/
  (Encrypt (handler 100) entropy P = Fail ErrControlPacketTooLarge /\
   true = true /\ 16 <= len P /\
   (exists b0, P !! 0%nat = Some b0 /\ 1 <= byteZ b0 <= 6) /\
   (maxControlPacketSize (handler 100) < len P \/ 65535 < len P - 16)).
Proof.
  intros P.
  apply (Encrypt_never_panics (HC := crypto_laws) psk 100 true (handler 100) entropy P).
  - exact entropy_laws.
  - reflexivity.
  - vm_compute. split; discriminate.
  - vm_compute. discriminate.
Defined.

Lemma Decrypt_data_zero_overhead_witness :
  let c := packet Byte.x09 40 in
  exists blk b0,
    cb (handler 100) = Some blk /\
    Block_Decrypt blk (take 16 c) !! 0%nat = Some b0 /\
    (~ (1 <= byteZ b0 <= 6) ->
     exists p, Decrypt (handler 100) c = Ret p /\ len p = len c /\
       take 16 p = Block_Decrypt blk (take 16 c) /\ drop 16 p = drop 16 c).
Proof.
  intros c.
  apply (Decrypt_data_zero_overhead (HC := crypto_laws) psk 100 (handler 100) c).
  - reflexivity.
  - vm_compute. discriminate.
Defined.

(** The control packet of 200 bytes is refused under a handler for packets
    of 100 bytes; the packet of 40 bytes whose first byte deciphers to a
    data kind comes back 40 bytes long. *)
Example Encrypt_too_large :
  Encrypt (handler 100) entropy (packet Byte.x03 200) = Fail ErrControlPacketTooLarge.
Proof. vm_compute. reflexivity. Qed.

End ObfuscationMoreWitnesses.

(** ** Package faketcp: Recv *)

Section RecvProperties.
Import FakeTCP.

(** X13.  A [Recv] that returns nil was called in [StateEstablished].  It
    dropped the packets with an empty payload that were first in the queue and
    took the first packet with a payload: [n] is the smaller of [len buf] and
    the length of the payload, [buf] begins with the first [n] bytes of the
    payload and is as it was behind them, and [ack] is the sequence number of
    the packet plus the length of the whole payload, modulo 2^32, even when
    [buf] was too short for it.  Afterwards [ack - lastAck], modulo 2^32, is
    at most [MaxUnackedLen]: when the step to the new [ack] is larger,
    [lastAck] becomes [ack] and one ACK segment without payload, carrying it,
    is written; otherwise nothing is written.  [seq], the state and the
    closed flag stay. *)
Theorem Recv_ack (events : list RecvEvent) (buf : list byte) (write_ok : bool)
    (s s' : Socket) (w w' : World) (n : Z) (buf' : list byte) :
  Socket_Recv events buf write_ok s w = (Ret (n, buf'), s', w') ->
  state s = StateEstablished /\
  exists skipped data pkt rest,
    events = (Incoming <$> skipped) ++ Incoming data :: rest /\
    Forall (fun d => exists p, ParseTCPPacket d = Ret (Some p) /\ Payload p = []) skipped /\
    ParseTCPPacket data = Ret (Some pkt) /\ Payload pkt <> [] /\
    n = Z.min (len buf) (len (Payload pkt)) /\
    buf' = take (Z.to_nat n) (Payload pkt) ++ drop (Z.to_nat n) buf /\
    ack s' = (Seq pkt + len (Payload pkt)) mod 2 ^ 32 /\
    uint32 (ack s' - lastAck s') <= MaxUnackedLen /\
    seq s' = seq s /\ state s' = state s /\ closed s' = closed s /\
    ((uint32 (ack s' - lastAck s) <= MaxUnackedLen /\
      lastAck s' = lastAck s /\ w' = w) \/
     (MaxUnackedLen < uint32 (ack s' - lastAck s) /\
      lastAck s' = ack s' /\
      w' = {| writes := writes w ++
                [({| seg_local := localAddr s; seg_remote := remoteAddr s;
                     seg_seq := seq s; seg_ack := ack s'; seg_flags := ACK;
                     seg_payload := [] |}, write_ok)];
              waits := waits w |})).
Proof.
  revert s w. induction events as [|ev events IH]; intros s w Hrun.
  - cbn [Socket_Recv] in Hrun. case_bool_decide; discriminate.
  - cbn [Socket_Recv] in Hrun. case_bool_decide as Hst; cbn [negb] in Hrun; [|discriminate].
    split; [exact Hst|].
    destruct ev as [data|]; [|discriminate].
    destruct (ParseTCPPacket_returns data) as [[pkt|] Hp]; rewrite Hp in Hrun; [|discriminate].
    destruct (Z.eqb_spec (len (Payload pkt)) 0) as [Hempty|Hdata].
    + destruct (IH _ _ Hrun) as (_ & skipped & data' & pkt' & rest & -> & Hsk & Hrest).
      exists (data :: skipped), data', pkt', rest.
      split; [reflexivity|]. split; [|exact Hrest].
      constructor; [|exact Hsk]. exists pkt. split; [exact Hp|].
      destruct (Payload pkt); [reflexivity|]. unfold len in Hempty. simpl in Hempty. lia.
    + exists [], data, pkt, events.
      split; [reflexivity|]. split; [constructor|]. split; [exact Hp|].
      split; [intros Hnil; rewrite Hnil in Hdata; apply Hdata; reflexivity|].
      set (newAck := uint32 (Seq pkt + uint32 (len (Payload pkt)))) in *.
      assert (newAck = (Seq pkt + len (Payload pkt)) mod 2 ^ 32) as HnewAck
        by apply uint32_add.
      assert (copy buf (Payload pkt)
              = take (Z.to_nat (Z.min (len buf) (len (Payload pkt)))) (Payload pkt)
                ++ drop (Z.to_nat (Z.min (len buf) (len (Payload pkt)))) buf) as Hcopy.
      { unfold copy, len. destruct (Z.min_spec (Z.of_nat (length buf))
                                      (Z.of_nat (length (Payload pkt)))) as [[Hlt ->]|[Hge ->]].
        - rewrite !Nat2Z.id. rewrite (drop_ge buf) by lia. rewrite (drop_ge buf) by lia.
          reflexivity.
        - rewrite !Nat2Z.id. rewrite (take_ge (Payload pkt)) by lia.
          rewrite firstn_all. reflexivity. }
      cbn [set_ack lastAck] in Hrun.
      destruct (Z.gtb_spec (uint32 (newAck - lastAck s)) MaxUnackedLen) as [Hbig|Hsmall];
        injection Hrun as <- <- <- <-; cbn [ack lastAck seq state closed set_ack set_lastAck];
        (split; [reflexivity|]); (split; [exact Hcopy|]); (split; [exact HnewAck|]).
      * split.
        { rewrite Z.sub_diag. unfold MaxUnackedLen. vm_compute. discriminate. }
        repeat (split; [reflexivity|]). right.
        split; [exact Hbig|]. split; reflexivity.
      * split; [exact Hsmall|]. repeat (split; [reflexivity|]). left.
        split; [exact Hsmall|]. split; reflexivity.
Qed.

End RecvProperties.

Section RecvWitnesses.
Import FakeTCP Sample.

Lemma Recv_ack_witness :
  let events := [Incoming ackPacket; Incoming dataPacket] in
  let buf := [Byte.x00; Byte.x00] in
  let s := establishedSocket in
  let w := world0 in
  match Socket_Recv events buf true s w with
  | (Ret (n, buf'), s', w') =>
    state s = StateEstablished /\
    exists skipped data pkt rest,
      events = (Incoming <$> skipped) ++ Incoming data :: rest /\
      Forall (fun d => exists p, ParseTCPPacket d = Ret (Some p) /\ Payload p = []) skipped /\
      ParseTCPPacket data = Ret (Some pkt) /\ Payload pkt <> [] /\
      n = Z.min (len buf) (len (Payload pkt)) /\
      buf' = take (Z.to_nat n) (Payload pkt) ++ drop (Z.to_nat n) buf /\
      ack s' = (Seq pkt + len (Payload pkt)) mod 2 ^ 32 /\
      uint32 (ack s' - lastAck s') <= MaxUnackedLen /\
      seq s' = seq s /\ state s' = state s /\ closed s' = closed s /\
      ((uint32 (ack s' - lastAck s) <= MaxUnackedLen /\
        lastAck s' = lastAck s /\ w' = w) \/
       (MaxUnackedLen < uint32 (ack s' - lastAck s) /\
        lastAck s' = ack s' /\
        w' = {| writes := writes w ++
                  [({| seg_local := FakeTCP.localAddr s; seg_remote := FakeTCP.remoteAddr s;
                       seg_seq := seq s; seg_ack := ack s'; seg_flags := ACK;
                       seg_payload := [] |}, true)];
                waits := waits w |}))
  | _ => False
  end.
Proof.
  intros events buf s w.
  destruct (Socket_Recv events buf true s w) as [[r s'] w'] eqn:Hrun.
  destruct r as [[n buf']|e| |]; try (vm_compute in Hrun; discriminate Hrun).
  apply (Recv_ack events buf true s s' w w' n buf'). exact Hrun.
Defined.

(** The sample run: the bare ACK is skipped; of the three bytes the buffer
    of two takes "hi"; [ack] is 200000003 all the same, and as that is more
    than [MaxUnackedLen] above [lastAck], an ACK is written. *)
Example Recv_short_buffer :
  let '(r, s', w') :=
    Socket_Recv [Incoming ackPacket; Incoming dataPacket] [Byte.x00; Byte.x00] true
      establishedSocket world0 in
  r = Ret (2, [Byte.x68; Byte.x69]) /\ ack s' = 200000003 /\ lastAck s' = 200000003 /\
  (fun x => (seg_flags x.1, seg_ack x.1, seg_payload x.1)) <$> writes w'
    = [(ACK, 200000003, [])].
Proof. vm_compute. repeat split. Qed.

(** With nothing in the queue and the socket open, [Recv] does not return. *)
Example Recv_blocks :
  (Socket_Recv [] [] true establishedSocket world0).1.1 = Deadlock.
Proof. reflexivity. Qed.

End RecvWitnesses.

(** ** Package faketcp: Accept *)

Section AcceptFacts.
Import FakeTCP.

(** What the loop of [Accept] ends with: it has written SYN|ACK segments of
    the socket only, one for each timer that fired, and leaves the socket as
    it was until it takes a packet with the ACK flag. *)
Lemma Accept_loop_result (env : nat -> Attempt) (n i : nat) (s : Socket) (w : World)
    (r : go error_more unit) (s' : Socket) (w' : World) :
  Accept_loop env n i s w = (r, s', w') ->
  exists ws ds,
    w' = {| writes := writes w ++ ws; waits := waits w ++ ds |} /\
    Forall (fun x => x.1 = {| seg_local := localAddr s; seg_remote := remoteAddr s;
                              seg_seq := seq s; seg_ack := ack s;
                              seg_flags := Z.lor SYN ACK; seg_payload := [] |}) ws /\
    (length ws <= n)%nat /\ (length ds <= n)%nat /\
    match r with
    | Ret _ =>
      s' = set_state StateEstablished (set_seq (uint32 (seq s + 1)) s) /\
      (length ws < n)%nat /\
      exists j data pkt,
        (i <= j < i + n)%nat /\ woke (env j) = RecvIncoming data /\
        ParseTCPPacket data = Ret (Some pkt) /\ Z.land (Flags pkt) ACK <> 0
    | Fail e =>
      (e = ErrAcceptTimeout RetryCount /\ s' = set_state StateClosed s) \/
      (e = ErrClosedDuringAccept /\ s' = s)
    | Panic _ | Deadlock => False
    end.
Proof.
  revert i w. induction n as [|n IH]; intros i w Hrun.
  - cbn [Accept_loop] in Hrun. injection Hrun as <- <- <-.
    exists [], []. rewrite !app_nil_r. destruct w. split; [reflexivity|].
    split; [constructor|]. split; [simpl; lia|]. split; [simpl; lia|]. left. auto.
  - assert (forall w1 x d,
              w1 = {| writes := writes w ++ x; waits := waits w ++ [d] |} ->
              Forall (fun x => x.1 = {| seg_local := localAddr s; seg_remote := remoteAddr s;
                                        seg_seq := seq s; seg_ack := ack s;
                                        seg_flags := Z.lor SYN ACK; seg_payload := [] |}) x ->
              (length x <= 1)%nat ->
              Accept_loop env n (S i) s w1 = (r, s', w') ->
              exists ws ds,
                w' = {| writes := writes w ++ ws; waits := waits w ++ ds |} /\
                Forall (fun x => x.1 = {| seg_local := localAddr s; seg_remote := remoteAddr s;
                                          seg_seq := seq s; seg_ack := ack s;
                                          seg_flags := Z.lor SYN ACK; seg_payload := [] |}) ws /\
                (length ws <= S n)%nat /\ (length ds <= S n)%nat /\
                match r with
                | Ret _ =>
                  s' = set_state StateEstablished (set_seq (uint32 (seq s + 1)) s) /\
                  (length ws < S n)%nat /\
                  exists j data pkt,
                    (i <= j < i + S n)%nat /\ woke (env j) = RecvIncoming data /\
                    ParseTCPPacket data = Ret (Some pkt) /\ Z.land (Flags pkt) ACK <> 0
                | Fail e =>
                  (e = ErrAcceptTimeout RetryCount /\ s' = set_state StateClosed s) \/
                  (e = ErrClosedDuringAccept /\ s' = s)
                | Panic _ | Deadlock => False
                end) as Hnext.
    { intros w1 x d -> Hx Hlen Hrest.
      destruct (IH _ _ Hrest) as (ws & ds & -> & Hws & Hlw & Hld & Hr).
      exists (x ++ ws), (d :: ds). cbn [writes waits].
      rewrite <- !app_assoc. split; [reflexivity|].
      split; [apply Forall_app; auto|].
      split; [rewrite length_app; lia|]. split; [simpl; lia|].
      destruct r as [[]|e| |]; try contradiction; [|exact Hr].
      destruct Hr as (Hs & Hlt & j & data & pkt & Hj & Hr).
      split; [exact Hs|]. split; [rewrite length_app; lia|].
      exists j, data, pkt. split; [lia|exact Hr]. }
    cbn [Accept_loop] in Hrun.
    destruct (woke (env i)) as [data| |] eqn:Hw.
    + destruct (ParseTCPPacket_returns data) as [[pkt|] Hp]; rewrite Hp in Hrun.
      2:{ refine (Hnext _ [] (wait (env i)) _ _ _ Hrun); [|constructor|simpl; lia].
          unfold block. rewrite app_nil_r. reflexivity. }
      destruct (Z.eqb_spec (Z.land (Flags pkt) ACK) 0) as [Hno|Hack]; cbn [negb] in Hrun.
      * refine (Hnext _ [] (wait (env i)) _ _ _ Hrun); [|constructor|simpl; lia].
        unfold block. rewrite app_nil_r. reflexivity.
      * injection Hrun as <- <- <-.
        exists [], [wait (env i)]. unfold block. rewrite app_nil_r.
        split; [reflexivity|]. split; [constructor|]. split; [simpl; lia|].
        split; [simpl; lia|]. split; [reflexivity|]. split; [simpl; lia|].
        exists i, data, pkt. split; [lia|]. auto.
    + refine (Hnext _ [(_, syn_write_ok (env i))] ConnTimeout _ _ _ Hrun);
        [reflexivity| |simpl; lia].
      constructor; [reflexivity|constructor].
    + injection Hrun as <- <- <-.
      exists [], [wait (env i)]. unfold block. rewrite app_nil_r.
      split; [reflexivity|]. split; [constructor|]. split; [simpl; lia|].
      split; [simpl; lia|]. right. auto.
Qed.

(** When only timers fire, the loop writes one SYN|ACK for each of them and
    gives up. *)
Lemma Accept_loop_silent (env : nat -> Attempt) (n i : nat) (s : Socket) (w : World) :
  (forall j, (i <= j < i + n)%nat -> woke (env j) = TimeAfter) ->
  Accept_loop env n i s w =
    (Fail (ErrAcceptTimeout RetryCount), set_state StateClosed s,
     {| writes := writes w ++
          ((fun j => ({| seg_local := localAddr s; seg_remote := remoteAddr s;
                         seg_seq := seq s; seg_ack := ack s;
                         seg_flags := Z.lor SYN ACK; seg_payload := [] |},
                      syn_write_ok (env j))) <$> List.seq i n);
        waits := waits w ++ replicate n ConnTimeout |}).
Proof.
  revert i w. induction n as [|n IH]; intros i w Hquiet.
  - cbn [Accept_loop]. simpl. rewrite !app_nil_r. destruct w. reflexivity.
  - cbn [Accept_loop]. rewrite (Hquiet i) by lia.
    rewrite IH by (intros j Hj; apply Hquiet; lia).
    unfold sendPacket, block. cbn [writes waits snd List.seq fmap list_fmap replicate].
    rewrite <- !app_assoc. reflexivity.
Qed.

End AcceptFacts.

Section AcceptProperties.
Import FakeTCP.

(** X14.  An [Accept] that returns nil was called in [StateIdle] with a SYN
    packet and leaves the socket in [StateEstablished], with [ack] and
    [lastAck] the sequence number of the SYN plus one and [seq] one further,
    modulo 2^32.  It has written SYN|ACK segments only, between one and six
    of them, the first successfully, each with the old [seq] and the new
    [ack] and no payload, and in one of at most six [select]s it took a packet
    that parses and has the ACK flag among its flags. *)
Theorem Accept_success (synPacket : option TCPPacket) (write_ok : bool)
    (env : nat -> Attempt) (s s' : Socket) (w w' : World) :
  Socket_Accept synPacket write_ok env s w = (Ret (), s', w') ->
  state s = StateIdle /\ write_ok = true /\
  exists syn ws,
    synPacket = Some syn /\
    state s' = StateEstablished /\
    seq s' = (seq s + 1) mod 2 ^ 32 /\
    ack s' = (Seq syn + 1) mod 2 ^ 32 /\ lastAck s' = ack s' /\
    localAddr s' = localAddr s /\ remoteAddr s' = remoteAddr s /\ closed s' = closed s /\
    writes w' = writes w ++ ws /\ (1 <= length ws <= 6)%nat /\
    Forall (fun x => x.1 = {| seg_local := localAddr s; seg_remote := remoteAddr s;
                              seg_seq := seq s; seg_ack := (Seq syn + 1) mod 2 ^ 32;
                              seg_flags := Z.lor SYN ACK; seg_payload := [] |}) ws /\
    exists j data pkt,
      (j < Z.to_nat RetryCount)%nat /\ woke (env j) = RecvIncoming data /\
      ParseTCPPacket data = Ret (Some pkt) /\ Z.land (Flags pkt) ACK <> 0.
Proof.
  unfold Socket_Accept. case_bool_decide as Hidle; cbn [negb]; [|discriminate].
  destruct synPacket as [syn|]; [|discriminate].
  unfold sendPacket. destruct write_ok; cbn [fst snd]; [|discriminate].
  intros Hrun. apply Accept_loop_result in Hrun.
  destruct Hrun as (ws & ds & -> & Hws & _ & _ & -> & Hlw & j & data & pkt & Hj & Hrest).
  split; [exact Hidle|]. split; [reflexivity|].
  eexists syn, (_ :: ws). split; [reflexivity|].
  cbn [state seq ack lastAck localAddr remoteAddr closed set_state set_seq set_ack
       set_lastAck writes].
  split; [reflexivity|]. split; [reflexivity|]. split; [reflexivity|]. split; [reflexivity|].
  split; [reflexivity|]. split; [reflexivity|]. split; [reflexivity|].
  split; [rewrite <- app_assoc; reflexivity|].
  change (Z.to_nat RetryCount) with 6%nat in Hlw, Hj.
  split; [simpl; lia|].
  split; [constructor; [reflexivity|exact Hws]|].
  exists j, data, pkt. split; [change (Z.to_nat RetryCount) with 6%nat; lia|exact Hrest].
Qed.

(** X15.  The ways [Accept] fails.  On a socket that is not in [StateIdle] it
    fails with "socket not in idle state" and touches nothing.  When the
    first SYN|ACK cannot be written it fails with that error wrapped, in
    [StateClosed], after that one write.  When the SYN|ACK went out and
    nothing but the timers wake the six [select]s, it writes the SYN|ACK
    again after each of them, seven segments in all, waits six times
    [ConnTimeout], and fails with "accept timeout after 6 retries" in
    [StateClosed]. *)
Theorem Accept_failures (syn : TCPPacket) (write_ok : bool) (env : nat -> Attempt)
    (s : Socket) (w : World) :
  (state s <> StateIdle ->
     Socket_Accept (Some syn) write_ok env s w = (Fail (Known ErrNotIdle), s, w)) /\
  (state s = StateIdle ->
     let s1 := set_lastAck (uint32 (Seq syn + 1))
                 (set_ack (uint32 (Seq syn + 1)) (set_state StateSynReceived s)) in
     let synAck := {| seg_local := localAddr s; seg_remote := remoteAddr s;
                      seg_seq := seq s; seg_ack := uint32 (Seq syn + 1);
                      seg_flags := Z.lor SYN ACK; seg_payload := [] |} in
     (write_ok = false ->
        Socket_Accept (Some syn) write_ok env s w
        = (Fail (ErrSendSynAck ErrWrite), set_state StateClosed s1,
           {| writes := writes w ++ [(synAck, false)]; waits := waits w |})) /\
     (write_ok = true ->
      (forall j, (j < Z.to_nat RetryCount)%nat -> woke (env j) = TimeAfter) ->
        Socket_Accept (Some syn) write_ok env s w
        = (Fail (ErrAcceptTimeout RetryCount), set_state StateClosed s1,
           {| writes := writes w ++ (synAck, true)
                :: ((fun j => (synAck, syn_write_ok (env j)))
                      <$> List.seq 0 (Z.to_nat RetryCount));
              waits := waits w ++ replicate (Z.to_nat RetryCount) ConnTimeout |}))).
Proof.
  split.
  - intros Hst. unfold Socket_Accept. case_bool_decide; [contradiction|reflexivity].
  - intros Hst s1 synAck. unfold Socket_Accept.
    case_bool_decide; [|contradiction]. cbn [negb]. fold s1. unfold sendPacket. split.
    + intros ->. reflexivity.
    + intros -> Hquiet. cbn [fst snd].
      rewrite Accept_loop_silent by (intros j Hj; apply Hquiet; lia).
      cbn [writes waits]. rewrite <- app_assoc. reflexivity.
Qed.

End AcceptProperties.

Section AcceptWitnesses.
Import FakeTCP Sample.

Lemma Accept_success_witness :
  let synPacket :=
    Some {| SrcIP := remote4; DstIP := local4; SrcPort := 443; DstPort := 3001;
            Seq := 4294967295; Ack := 0; Flags := SYN; Window := 65535; Payload := [];
            IsIPv6 := false |} in
  let s := idleSocket in
  let w := world0 in
  match Socket_Accept synPacket true acking s w with
  | (Ret _, s', w') =>
    state s = StateIdle /\ true = true /\
    exists syn ws,
      synPacket = Some syn /\
      state s' = StateEstablished /\
      seq s' = (seq s + 1) mod 2 ^ 32 /\
      ack s' = (Seq syn + 1) mod 2 ^ 32 /\ lastAck s' = ack s' /\
      FakeTCP.localAddr s' = FakeTCP.localAddr s /\
      FakeTCP.remoteAddr s' = FakeTCP.remoteAddr s /\ closed s' = closed s /\
      writes w' = writes w ++ ws /\ (1 <= length ws <= 6)%nat /\
      Forall (fun x => x.1 = {| seg_local := FakeTCP.localAddr s;
                                seg_remote := FakeTCP.remoteAddr s;
                                seg_seq := seq s; seg_ack := (Seq syn + 1) mod 2 ^ 32;
                                seg_flags := Z.lor SYN ACK; seg_payload := [] |}) ws /\
      exists j data pkt,
        (j < Z.to_nat RetryCount)%nat /\ woke (acking j) = RecvIncoming data /\
        ParseTCPPacket data = Ret (Some pkt) /\ Z.land (Flags pkt) ACK <> 0
  | _ => False
  end.
Proof.
  intros synPacket s w.
  destruct (Socket_Accept synPacket true acking s w) as [[r s'] w'] eqn:Hrun.
  destruct r as [[]|e| |]; try (vm_compute in Hrun; discriminate Hrun).
  apply (Accept_success synPacket true acking s s' w w'). exact Hrun.
Defined.

(** The sample run: the sequence number of the SYN is 2^32 - 1, so [ack]
    wraps round to 0; one timer fires before the ACK comes, so two SYN|ACK
    segments are written. *)
Example Accept_established :
  let syn := {| SrcIP := remote4; DstIP := local4; SrcPort := 443; DstPort := 3001;
                Seq := 4294967295; Ack := 0; Flags := SYN; Window := 65535; Payload := [];
                IsIPv6 := false |} in
  let '(r, s', w') := Socket_Accept (Some syn) true acking idleSocket world0 in
  r = Ret () /\ state s' = StateEstablished /\ seq s' = 1001 /\ ack s' = 0 /\
  length (writes w') = 2%nat /\ waits w' = [ConnTimeout; 1000].
Proof. vm_compute. repeat split. Qed.

End AcceptWitnesses.

(** ** Package faketcp: Listen *)

Section ListenProperties.
Import FakeTCP.

(** X16.  On a stack whose mutex is free, [Listen] on a port that is not
    listening returns nil and leaves the mutex free; afterwards the port is
    listening, the other ports and the sockets are as they were, and a second
    [Listen] on the port fails with "already listening on port" and leaves
    the stack as it is.  On a stack whose mutex is held [Listen] blocks. *)
Theorem Listen_twice (st : Stack) (port : Z) :
  (mu st = false -> default false (listening st !! port) = false ->
   exists st1,
     Stack_Listen st port = (Ret (), st1) /\
     listening st1 !! port = Some true /\
     (forall q, q <> port -> listening st1 !! q = listening st !! q) /\
     sockets st1 = sockets st /\ mu st1 = false /\ stopChan st1 = stopChan st /\
     Stack_Listen st1 port = (Fail (ErrAlreadyListening port), st1)) /\
  (mu st = false -> default false (listening st !! port) = true ->
   Stack_Listen st port = (Fail (ErrAlreadyListening port), st)) /\
  (mu st = true -> Stack_Listen st port = (Deadlock, st)).
Proof.
  split; [|split].
  - intros Hmu Hfree. unfold Stack_Listen, Lock. rewrite Hmu.
    cbn [listening set_mu]. rewrite Hfree.
    eexists. split; [reflexivity|].
    cbn [listening sockets mu stopChan Unlock set_mu set_listening].
    split; [apply lookup_insert_eq|].
    split; [intros q Hq; apply lookup_insert_ne; congruence|].
    repeat (split; [reflexivity|]).
    rewrite lookup_insert_eq. reflexivity.
  - intros Hmu Hbusy. unfold Stack_Listen, Lock. rewrite Hmu.
    cbn [listening set_mu]. rewrite Hbusy. f_equal.
    destruct st. cbn in Hmu. subst. reflexivity.
  - intros Hmu. unfold Stack_Listen, Lock. rewrite Hmu. reflexivity.
Qed.

End ListenProperties.
